(** * ChatAI-Free-Multimodel: the debate core and its context budgeter

    A shallow embedding of [cafm/context_manager.py], [cafm/ollama_client.py]
    and [cafm/debate_engine.py], and the properties of the specification
    that concern them.

    Conventions.
    - A Python [str] is the list of its code points ([pystr]), so that
      [len] is [length]; [lit] turns an ASCII literal into a [pystr].
    - A Python [int] is a [Z]; [//] is [Z.div] (floor, as in Python for a
      positive divisor).
    - A chat message is a [dict] from keys to strings: a [gmap string pystr].
    - The effectful code runs in a monad of state and exceptions; the state
      holds the model server (a parameter), the session of the engine, and a
      ghost record of the calls into the context budgeter.
    - Console output (rich) is display only and is left out, and so is the
      file that [_save_log] writes: neither touches the session. *)

From Stdlib Require Import ZArith List String Ascii Lia.
From stdpp Require Import base option list list_numbers strings gmap pretty sorting.

Local Open Scope Z_scope.

(** ** Python strings *)

Abbreviation pystr := (list N).

Definition lit (s : string) : pystr :=
  N_of_ascii <$> list_ascii_of_string s.
Arguments lit : simpl never.

(** [str(n)] for an [int]. *)
Definition str_of_int (n : Z) : pystr := lit (pretty n).

(** [sep.join(parts)]. *)
Fixpoint join (sep : pystr) (parts : list pystr) : pystr :=
  match parts with
  | [] => []
  | [p] => p
  | p :: ps => p ++ sep ++ join sep ps
  end.

(** [l[start:]], with Python's treatment of a negative or too large start. *)
Definition slice_from {A} (l : list A) (start : Z) : list A :=
  let n := Z.of_nat (length l) in
  let i := if start <? 0 then Z.max 0 (n + start) else Z.min start n in
  drop (Z.to_nat i) l.

(** [l[:stop]], with Python's treatment of a negative or too large stop. *)
Definition slice_to {A} (l : list A) (stop : Z) : list A :=
  let n := Z.of_nat (length l) in
  let j := if stop <? 0 then Z.max 0 (n + stop) else Z.min stop n in
  take (Z.to_nat j) l.

(** ** The interpreter's character database

    [re] classifies and case-folds characters with the Unicode tables of the
    running interpreter, which are not part of this repository: they are a
    parameter.  [isalnum] is [Py_UNICODE_ISALNUM], [tolower] is the
    one-character lower-case mapping ([_sre.unicode_tolower]). *)

Record unicode_db := {
  isalnum : N -> bool;
  tolower : N -> N;
}.

(** The tables on the code points below 256 (Basic Latin and Latin-1
    Supplement); above, nothing is alphanumeric and nothing has a lower case. *)
Definition latin1 : unicode_db := {|
  isalnum c :=
    ((48 <=? c) && (c <=? 57) || (65 <=? c) && (c <=? 90) || (97 <=? c) && (c <=? 122)
     || (c =? 170) || (c =? 178) || (c =? 179) || (c =? 181) || (c =? 185) || (c =? 186)
     || (188 <=? c) && (c <=? 190)
     || (192 <=? c) && (c <=? 214) || (216 <=? c) && (c <=? 246)
     || (248 <=? c) && (c <=? 255))%N;
  tolower c :=
    (if (65 <=? c) && (c <=? 90) || (192 <=? c) && (c <=? 214) || (216 <=? c) && (c <=? 222)
     then c + 32 else c)%N;
|}.

(** ** The pattern [_SPANISH_RE] and [findall]

    [[áéíóúüñ¿¡]|\b(que|...|si)\b]
    compiled with [re.IGNORECASE]. *)

Module Re.

Definition SPANISH_CLASS : list N :=
  [225; 233; 237; 243; 250; 252; 241; 191; 161]%N.

Definition SPANISH_WORDS : list pystr :=
  [ lit "que"; lit "est" ++ [225%N]; lit "es"; lit "en"; lit "de"; lit "la"; lit "el";
    lit "los"; lit "las"; lit "con"; lit "por"; lit "para"; lit "una"; lit "uno";
    lit "pero"; lit "como"; lit "m" ++ [225%N] ++ lit "s";
    lit "tambi" ++ [233%N] ++ lit "n"; lit "sobre"; lit "muy"; lit "tiene";
    lit "hacer"; lit "qu" ++ [233%N]; lit "c" ++ [243%N] ++ lit "mo";
    lit "cu" ++ [225%N] ++ lit "l"; lit "esto"; lit "eso"; lit "son"; lit "hay";
    lit "si" ].

Definition inb (c : N) (cs : list N) : bool := existsb (N.eqb c) cs.

(** The characters sre adds to a case-insensitive literal besides its lower
    case: dotless i for [i], long s for [s] (the pattern has no other letter
    of sre's equivalence table). *)
Definition ignorecase_fixes (c : N) : list N :=
  if (c =? 105)%N then [305%N] else if (c =? 115)%N then [383%N] else [].

Section Matcher.
Variable db : unicode_db.

(** A character of the class: the class is matched on the lower case of
    the text character. *)
Definition in_class (t : N) : bool := inb (tolower db t) SPANISH_CLASS.

(** A literal [c] of the pattern (a lower-case letter) against a text
    character [t]. *)
Definition literal_ignore (c t : N) : bool :=
  inb (tolower db t) (c :: ignorecase_fixes c).

(** [\w]: alphanumeric or underscore.  Outside the text counts as not a
    word character. *)
Definition is_word (c : option N) : bool :=
  match c with
  | Some c => isalnum db c || (c =? 95)%N
  | None => false
  end.

(** [\b] between [prev] and [next]. *)
Definition at_boundary (prev next : option N) : bool :=
  xorb (is_word prev) (is_word next).

(** The literals of one word against the text at the current position:
    the matched text and what follows it. *)
Fixpoint match_word (w s : pystr) : option (pystr * pystr) :=
  match w with
  | [] => Some ([], s)
  | c :: w' =>
      match s with
      | t :: s' =>
          if literal_ignore c t then
            match match_word w' s' with
            | Some (m, r) => Some (t :: m, r)
            | None => None
            end
          else None
      | [] => None
      end
  end.

(** One alternative [w] of the group followed by the closing [\b]. *)
Definition match_alternative (w : pystr) (prev : option N) (s : pystr)
    : option (pystr * pystr) :=
  match match_word w s with
  | Some (m, r) =>
      let before_end := match last m with Some c => Some c | None => prev end in
      if at_boundary before_end (head r) then Some (m, r) else None
  | None => None
  end.

(** [(w1|w2|...)\b]: the alternatives in order; a word whose closing [\b]
    fails gives way to the next. *)
Fixpoint match_words (ws : list pystr) (prev : option N) (s : pystr)
    : option (pystr * pystr) :=
  match ws with
  | [] => None
  | w :: ws' =>
      match match_alternative w prev s with
      | Some found => Some found
      | None => match_words ws' prev s
      end
  end.

(** One attempt of the whole pattern at a position: the text of group 1
    (empty for the class alternative) and the number of characters
    consumed. *)
Definition match_at (prev : option N) (s : pystr) : option (pystr * nat) :=
  match s with
  | t :: _ =>
      if in_class t then Some ([], 1%nat)
      else if at_boundary prev (head s) then
        match match_words SPANISH_WORDS prev s with
        | Some (m, _) => Some (m, length m)
        | None => None
        end
      else None
  | [] => None
  end.

(** The scan of [findall]: matches are looked for from left to right and
    do not overlap; [skip] counts the characters of the current match
    that are still to be passed. *)
Fixpoint scan (skip : nat) (prev : option N) (s : pystr) : list pystr :=
  match s with
  | [] => []
  | t :: s' =>
      match skip with
      | S k => scan k (Some t) s'
      | O =>
          match match_at prev s with
          | Some (g, n) => g :: scan (n - 1) (Some t) s'
          | None => scan 0 (Some t) s'
          end
      end
  end.

Definition findall (text : pystr) : list pystr := scan 0 None text.

End Matcher.

Arguments match_words : simpl never.
Arguments match_at : simpl never.

End Re.

(** ** cafm/context_manager.py, the pure part *)

Abbreviation message := (gmap string pystr).

Definition CHARS_PER_TOKEN : Z := 4.

Definition estimate_tokens (text : pystr) : Z :=
  Z.max 1 (Z.of_nat (length text) / CHARS_PER_TOKEN).

(** [msg.get("content", "")] *)
Definition content_of (msg : message) : pystr :=
  default [] (msg !! "content"%string).

Definition estimate_messages_tokens (messages : list message) : Z :=
  foldl (fun total msg => total + (4 + estimate_tokens (content_of msg))) 0 messages.

(** The loop of [sliding_window] over [reversed(rest)]: [included.insert(0, msg)]
    conses at the front; the [break] returns what was included so far. *)
Fixpoint window_walk (rev_rest : list message) (budget : Z)
    (included : list message) : list message :=
  match rev_rest with
  | [] => included
  | msg :: older =>
      let cost := estimate_messages_tokens [msg] in
      if budget - cost <? 0 then included
      else window_walk older (budget - cost) (msg :: included)
  end.

Definition sliding_window (messages : list message) (limit : Z) : list message :=
  match messages with
  | [] => messages
  | _ =>
      let reserved := take 2 messages in
      let rest := drop 2 messages in
      let budget := limit - estimate_messages_tokens reserved - 64 in
      if budget <=? 0 then reserved
      else reserved ++ window_walk (reverse rest) budget []
  end.

(** ** Exceptions, program state and the monad of the effectful code *)

(** An instance of [Exception] (what [except Exception] catches): its class
    name and its [str()]. *)
Inductive exn := Exc (cls : string) (msg : pystr).

Definition exn_str (e : exn) : pystr := let 'Exc _ msg := e in msg.

Definition IndexError : exn := Exc "IndexError" (lit "list index out of range").

Inductive result (A : Type) :=
| Ret (a : A)
| Raise (e : exn).
Arguments Ret {A} a.
Arguments Raise {A} e.

(** A value that is a [str] or [None]. *)
Abbreviation optional_str := (option pystr).

(** [f"{value}"] *)
Definition format_value (value : optional_str) : pystr :=
  match value with
  | Some text => text
  | None => lit "None"
  end.

(** One turn of the debate ([DebateEntry]); the content is what [_generate]
    returned. *)
Record DebateEntry := {
  model : pystr;
  round_num : Z;
  content : optional_str;
}.

(** The mutable part of a [DebateEngine]. *)
Record session := {
  transcript : list DebateEntry;
  user_query : pystr;
}.

(** Ghost record of the calls into the context budgeter, kept to state
    which of them a composition made. *)
Inductive call :=
| CallSummarizeTranscript
| CallSummaryFunc (prompt_messages : list message)
| CallSlidingWindow (messages : list message) (limit : Z).

(** [ollama.chat] answers with a mapping; [resp.get("message", {})] is a
    mapping again, whose [content], when the key is there, is a string or
    [None]. *)
Abbreviation response := (gmap string (gmap string optional_str)).

(** [resp.get("message", {}).get("content", "")]: the default stands in only
    for a key that is not there. *)
Definition response_content (resp : response) : optional_str :=
  default (Some []) (default ∅ (resp !! "message"%string) !! "content"%string).

Section Program.

(** The state of the model server and whatever else decides its answers. *)
Variable W : Type.

Record state := {
  world : W;
  engine : session;
  calls : list call;
}.

Definition M (A : Type) : Type := state -> result A * state.

Definition ret {A} (a : A) : M A := fun s => (Ret a, s).

Definition bind {A B} (m : M A) (k : A -> M B) : M B :=
  fun s =>
    match m s with
    | (Ret a, s') => k a s'
    | (Raise e, s') => (Raise e, s')
    end.

Definition raise {A} (e : exn) : M A := fun s => (Raise e, s).

(** [try: body  except Exception as exc: handler(exc)] *)
Definition try_except {A} (body : M A) (handler : exn -> M A) : M A :=
  fun s =>
    match body s with
    | (Ret a, s') => (Ret a, s')
    | (Raise e, s') => handler e s'
    end.

Definition log_call (c : call) : M unit :=
  fun s => (Ret tt, {| world := world s; engine := engine s; calls := calls s ++ [c] |}).

Definition get_transcript : M (list DebateEntry) :=
  fun s => (Ret (transcript (engine s)), s).

Definition update_engine (f : session -> session) : M unit :=
  fun s => (Ret tt, {| world := world s; engine := f (engine s); calls := calls s |}).

(** [for x in xs: body(x)] *)
Fixpoint for_each {A} (xs : list A) (body : A -> M unit) : M unit :=
  match xs with
  | [] => ret tt
  | x :: xs' => bind (body x) (fun _ => for_each xs' body)
  end.

(** [l[i]] *)
Definition py_index {A} (l : list A) (i : Z) : M A :=
  let j := if i <? 0 then Z.of_nat (length l) + i else i in
  if j <? 0 then raise IndexError
  else match l !! Z.to_nat j with
       | Some x => ret x
       | None => raise IndexError
       end.

End Program.

Arguments world {W} s.
Arguments engine {W} s.
Arguments calls {W} s.
Arguments Build_state {W}.
Arguments ret {W A} a.
Arguments bind {W A B} m k.
Arguments raise {W A} e.
Arguments try_except {W A} body handler.
Arguments log_call {W} c.
Arguments get_transcript {W}.
Arguments update_engine {W} f.
Arguments for_each {W A} xs body.
Arguments py_index {W A} l i.

Notation "x <- m ;; k" := (bind m (fun x => k))
  (at level 100, m at next level, right associativity).
Notation "m ;;; k" := (bind m (fun _ => k))
  (at level 100, right associativity).

(** ** cafm/ollama_client.py *)

(** The Ollama server, as the program sees it.  [chat] is
    [ollama.chat(..., stream=False)]: an answer or an exception.
    [chat_iter] is [ollama.chat(..., stream=True)]: an exception at the call,
    or an iterator that hands out finitely many chunks and then ends or
    raises. *)
Record backend (W : Type) := {
  chat : pystr -> list message -> Z -> W -> result response * W;
  chat_iter : pystr -> list message -> Z -> W -> result (list response * option exn) * W;
}.
Arguments chat {W} b.
Arguments chat_iter {W} b.

(** What a generator did when it was run to its end: the values it yielded,
    and the exception that ended it, if one did. *)
Record generated := {
  yielded : list pystr;
  propagated : option exn;
}.

Section OllamaClient.
Context {W : Type} (ollama : backend W).

Definition with_world {A} (f : W -> A * W) : state W -> A * state W :=
  fun s =>
    let '(a, w) := f (world s) in
    (a, {| world := w; engine := engine s; calls := calls s |}).

Definition ollama_chat (model : pystr) (messages : list message) (num_ctx : Z)
    : M W response :=
  with_world (chat ollama model messages num_ctx).

(** A generator of strings, run to its end. *)
Definition Gen : Type := state W -> generated * state W.

(** [try: body  except Exception as exc: handler(exc)] inside a generator:
    what the body yielded stays yielded. *)
Definition gen_try_except (body : Gen) (handler : exn -> Gen) : Gen :=
  fun s =>
    match body s with
    | ({| yielded := ys; propagated := Some e |}, s') =>
        let '(h, s'') := handler e s' in
        ({| yielded := ys ++ yielded h; propagated := propagated h |}, s'')
    | done => done
    end.

Definition gen_yield (token : pystr) : Gen :=
  fun s => ({| yielded := [token]; propagated := None |}, s).

(** [if token: yield token] over the chunks of the iterator: [None] and the
    empty string are passed over. *)
Definition stream_tokens (chunks : list response) : list pystr :=
  chunks ≫= (fun chunk =>
    match response_content chunk with
    | Some (c :: token) => [c :: token]
    | _ => []
    end).

(** The body of the [try] of [chat_stream]. *)
Definition chat_stream_body (model : pystr) (messages : list message)
    (context_limit : Z) : Gen :=
  fun s =>
    match with_world (chat_iter ollama model messages context_limit) s with
    | (Ret (chunks, fin), s') =>
        ({| yielded := stream_tokens chunks; propagated := fin |}, s')
    | (Raise e, s') => ({| yielded := []; propagated := Some e |}, s')
    end.

Definition chat_stream (model : pystr) (messages : list message)
    (context_limit : Z) : Gen :=
  gen_try_except
    (chat_stream_body model messages context_limit)
    (fun exc =>
       gen_yield ([10%N] ++ lit "[ERROR] Model " ++ model ++ lit " failed: "
                  ++ exn_str exc ++ [10%N])).

Definition chat_sync (model : pystr) (messages : list message)
    (context_limit : Z) : M W optional_str :=
  try_except
    (resp <- ollama_chat model messages context_limit ;;
     ret (response_content resp))
    (fun exc =>
       ret (Some (lit "[ERROR] Model " ++ model ++ lit " failed: " ++ exn_str exc))).

(** [for token in gen: collected.append(token)]: the tokens, unless the
    generator lets an exception out. *)
Definition collect (g : Gen) : M W (list pystr) :=
  fun s =>
    match g s with
    | ({| yielded := ys; propagated := None |}, s') => (Ret ys, s')
    | ({| yielded := _; propagated := Some e |}, s') => (Raise e, s')
    end.

End OllamaClient.

(** ** cafm/context_manager.py, transcript rendering and composition *)

(** The dict of [DebateEntry.as_dict]: keys [model], [round], [content]. *)
Record entry_dict := {
  d_model : pystr;
  d_round : Z;
  d_content : optional_str;
}.

Definition mk_message (role content : pystr) : message :=
  {[ "role"%string := role; "content"%string := content ]}.

Definition render_entry (e : entry_dict) : pystr :=
  let header := lit "[" ++ d_model e ++ lit " - Round " ++ str_of_int (d_round e) ++ lit "]" in
  header ++ lit ":" ++ [10%N] ++ format_value (d_content e) ++ [10%N].

Definition build_transcript (entries : list entry_dict) : pystr :=
  join [10%N] (render_entry <$> entries).

Definition SUMMARIZER_PROMPT : pystr :=
  lit "You are a concise summarizer. Compress the following debate "
  ++ lit "transcript into a brief summary that preserves every key argument, "
  ++ lit "point of agreement, and point of contention. Use bullet points.".

(** The marker of the fallback: an ellipsis (U+2026) on both sides, then a
    newline. *)
Definition TRUNCATION_MARKER : pystr :=
  [8230%N] ++ lit "[earlier transcript truncated]" ++ [8230%N; 10%N].

(** [prompt_messages] of [summarize_transcript]. *)
Definition summary_prompt_messages (full : pystr) : list message :=
  [ mk_message (lit "system") SUMMARIZER_PROMPT;
    mk_message (lit "user") full ].

Section ContextManager.
Context {W : Type}.

(** [summary_func] is any callable; what it returns is returned as it is,
    a [str] or [None]. *)
Definition summarize_transcript (entries : list entry_dict)
    (summary_func : list message -> M W optional_str) (limit : Z) : M W optional_str :=
  let full := build_transcript entries in
  let prompt_messages := summary_prompt_messages full in
  try_except
    (log_call (CallSummaryFunc prompt_messages) ;;;
     summary <- summary_func prompt_messages ;;
     ret summary)
    (fun _ =>
       let max_chars := limit * CHARS_PER_TOKEN in
       if Z.of_nat (length full) >? max_chars
       then ret (Some (TRUNCATION_MARKER ++ slice_from full (- max_chars)))
       else ret (Some full)).

Definition prepare_messages (system_prompt user_query : pystr)
    (transcript_entries : list entry_dict) (context_limit : Z)
    (strategy : pystr) (summary_func : option (list message -> M W optional_str))
    : M W (list message) :=
  let messages :=
    [ mk_message (lit "system") system_prompt;
      mk_message (lit "user") (lit "User Query: " ++ user_query) ] in
  let messages :=
    match transcript_entries with
    | [] => messages
    | _ =>
        let transcript_text := build_transcript transcript_entries in
        messages ++
        [ mk_message (lit "user")
            (lit "Debate transcript so far:" ++ [10%N; 10%N] ++ transcript_text) ]
    end in
  let total := estimate_messages_tokens messages in
  if total <=? context_limit then ret messages
  else
    match (if bool_decide (strategy = lit "summary") then summary_func else None) with
    | Some summary_func =>
        log_call CallSummarizeTranscript ;;;
        summary <- summarize_transcript transcript_entries summary_func
                     (context_limit / 2) ;;
        let messages :=
          [ mk_message (lit "system") system_prompt;
            mk_message (lit "user") (lit "User Query: " ++ user_query);
            mk_message (lit "user")
              (lit "Condensed debate summary:" ++ [10%N; 10%N]
               ++ format_value summary) ] in
        if estimate_messages_tokens messages <=? context_limit then ret messages
        else
          log_call (CallSlidingWindow messages context_limit) ;;;
          ret (sliding_window messages context_limit)
    | None =>
        log_call (CallSlidingWindow messages context_limit) ;;;
        ret (sliding_window messages context_limit)
    end.

End ContextManager.

(** ** cafm/config_manager.py, as far as a run reads it *)

Record ConfigManager := {
  instances : Z;
  rounds : Z;
  models : list pystr;
  context_limit : Z;
  context_strategy : pystr;
  summary_model : option pystr;
  stream_output : bool;
  save_logs : bool;
  skeptic_agent : bool;
  system_prompts : gmap string pystr;
}.

(** ** cafm/debate_engine.py *)

Definition detect_language (db : unicode_db) (text : pystr) : pystr :=
  if (2 <=? length (Re.findall db text))%nat then lit "Spanish" else lit "English".

Definition as_dict (e : DebateEntry) : entry_dict :=
  {| d_model := model e; d_round := round_num e; d_content := content e |}.

(** [prompts.get(key, dflt)] *)
Definition prompts_get (prompts : gmap string pystr) (key : string) (dflt : pystr) : pystr :=
  default dflt (prompts !! key).

(** The [if]/[elif] chain of [run] that picks the system prompt of a turn. *)
Definition select_prompt (prompts : gmap string pystr)
    (is_this_skeptic is_first : bool) : pystr :=
  if is_this_skeptic && is_first then
    prompts_get prompts "skeptic_initial_round" (prompts_get prompts "skeptic_round" [])
  else if is_this_skeptic then
    prompts_get prompts "skeptic_round" (prompts_get prompts "debate_round" [])
  else if is_first then
    prompts_get prompts "initial_round" []
  else
    prompts_get prompts "debate_round" [].

Definition lang_note_of (language : pystr) : pystr :=
  [10%N; 10%N] ++ lit "IMPORTANT: You MUST respond ENTIRELY in " ++ language ++ lit ". "
  ++ lit "Do not switch languages under any circumstances.".

(** [is_this_skeptic] of [run], for the agent of index [idx]:
    [skeptic = config.skeptic_agent and n_instances > 1],
    [skeptic_idx = n_instances - 1],
    [is_this_skeptic = skeptic and idx == skeptic_idx]. *)
Definition is_this_skeptic (config : ConfigManager) (idx : Z) : bool :=
  let n_instances := instances config in
  let skeptic := skeptic_agent config && (n_instances >? 1) in
  let skeptic_idx := n_instances - 1 in
  skeptic && (idx =? skeptic_idx).

(** [sp] of [run], for the agent of index [idx] in round [rnd]. *)
Definition turn_prompt (config : ConfigManager) (rnd idx : Z) : pystr :=
  let is_first := rnd =? 1 in
  select_prompt (system_prompts config) (is_this_skeptic config idx) is_first.

(** *** The console and the file system

    [console.print], [console.rule], the title of a [Panel] and the text of
    a prompt render a string as console markup, which [rich] does not do
    for every string: [render text] is the exception it raises on [text],
    if it raises one.  [rich] is not part of this repository; it is a
    parameter.  Modelled are the outputs into which the program fills a
    string it was given (the query, a model name, an answer, a path).
    Outputs of constant markup, or of markup with only numbers or the
    detected language filled in, and the [Live] display of streamed tokens,
    which takes them as plain text, are left out; so is a failure of the
    output stream.

    [dump_log config session] is the part of [_save_log] that touches the
    file system ([mkdir], [open], [json.dump]): the path written, or the
    exception raised. *)
Record host (W : Type) := {
  render : pystr -> option exn;
  dump_log : ConfigManager -> session -> W -> result pystr * W;
}.
Arguments render {W} h.
Arguments dump_log {W} h.

Definition console_print {W : Type} (term : host W) (text : pystr) : M W unit :=
  match render term text with
  | Some exc => raise exc
  | None => ret tt
  end.

Definition AGENT_COLORS : list pystr :=
  [lit "cyan"; lit "yellow"; lit "magenta"; lit "blue"; lit "green"; lit "red"].

Definition AGENT_BOLD : list pystr :=
  [lit "bold cyan"; lit "bold yellow"; lit "bold magenta"; lit "bold blue";
   lit "bold green"; lit "bold red"].

(** [AGENT_COLORS[agent_idx % len(AGENT_COLORS)]]: the remainder is an index
    of the list. *)
Definition agent_color (agent_idx : Z) : pystr :=
  default [] (AGENT_COLORS !! Z.to_nat (agent_idx mod Z.of_nat (length AGENT_COLORS))).

Definition agent_bold (agent_idx : Z) : pystr :=
  default [] (AGENT_BOLD !! Z.to_nat (agent_idx mod Z.of_nat (length AGENT_BOLD))).

(** The line of the header that shows the query. *)
Definition query_line (query : pystr) : pystr :=
  lit "  Query    : " ++ query.

(** The line of the header for the agent of index [i] and model [m]. *)
Definition agent_line (config : ConfigManager) (i : Z) (m : pystr) : pystr :=
  let bold := agent_bold i in
  let is_sk := is_this_skeptic config i in
  let tag := if is_sk
             then lit " [bold red]" ++ [9889%N] ++ lit " SKEPTIC[/bold red]"
             else [] in
  lit "  [" ++ bold ++ lit "]Agent " ++ str_of_int (i + 1) ++ lit "[/" ++ bold ++ lit "]"
  ++ tag ++ lit "  : " ++ m.

(** [title] of [_generate]. *)
Definition panel_title (model : pystr) (rnd agent_idx : Z)
    (is_synthesis is_skeptic : bool) : pystr :=
  let color := agent_color agent_idx in
  let bold := agent_bold agent_idx in
  if is_synthesis then
    lit "[bold green] " ++ [10022%N] ++ lit " Agent " ++ str_of_int (agent_idx + 1)
    ++ lit " " ++ [8212%N] ++ lit " " ++ model ++ lit " " ++ [8212%N]
    ++ lit " Final Synthesis [/bold green]"
  else if is_skeptic then
    lit "[bold red] " ++ [9889%N] ++ lit " SKEPTIC " ++ [8212%N] ++ lit " Agent "
    ++ str_of_int (agent_idx + 1) ++ lit " [" ++ color ++ lit "](" ++ model
    ++ lit ")[/" ++ color ++ lit "]"
    ++ lit " " ++ [8212%N] ++ lit " Round " ++ str_of_int rnd ++ lit " [/bold red]"
  else
    lit "[" ++ bold ++ lit "] Agent " ++ str_of_int (agent_idx + 1) ++ lit " ["
    ++ color ++ lit "]" ++ [8212%N] ++ lit " " ++ model ++ lit "[/" ++ color
    ++ lit "] " ++ [8212%N] ++ lit " Round " ++ str_of_int rnd ++ lit " ["
    ++ bold ++ lit "][/]".

(** The notice of [_save_log]. *)
Definition log_notice (path : pystr) : pystr :=
  [10%N] ++ lit "[dim]Session log saved to " ++ path ++ lit "[/dim]".

Section DebateEngine.
Context (db : unicode_db) {W : Type} (ollama : backend W) (term : host W).
Variable config : ConfigManager.

(** The tokens go to the [Live] display as plain text. *)
Definition _stream_generate (model : pystr) (messages : list message) : M W pystr :=
  collected <- collect (chat_stream ollama model messages (context_limit config)) ;;
  ret (concat collected).

(** [console.print(content, style=...)] renders a [str] as markup and shows
    any other object, [None] too, by its [str()]. *)
Definition _generate (model : pystr) (messages : list message) (rnd : Z)
    (stream : bool) (agent_idx : Z) (is_synthesis is_skeptic : bool)
    : M W optional_str :=
  console_print term (panel_title model rnd agent_idx is_synthesis is_skeptic) ;;;
  if stream then
    text <- _stream_generate model messages ;;
    ret (Some text)
  else
    content <- chat_sync ollama model messages (context_limit config) ;;
    match content with
    | Some text => console_print term text
    | None => ret tt
    end ;;;
    ret content.

Definition _make_summary_func : option (list message -> M W optional_str) :=
  let summary_model :=
    match summary_model config with
    | Some (c :: m) => Some (c :: m)
    | _ => head (models config)
    end in
  match summary_model with
  | None => None
  | Some summary_model =>
      Some (fun messages => chat_sync ollama summary_model messages (context_limit config))
  end.

Definition append_entry (e : DebateEntry) : M W unit :=
  update_engine (fun eng =>
    {| transcript := transcript eng ++ [e]; user_query := user_query eng |}).

(** The body of the inner loop of [run]: the turn of agent [idx] in round
    [rnd]. *)
Definition debate_turn (query lang_note : pystr) (rnd idx : Z) : M W unit :=
  let models := models config in
  model <- py_index models idx ;;
  let sp := turn_prompt config rnd idx in
  entries <- get_transcript ;;
  messages <- prepare_messages (sp ++ lang_note) query (as_dict <$> entries)
                (context_limit config) (context_strategy config)
                _make_summary_func ;;
  content <- _generate model messages rnd (stream_output config) idx false
               (is_this_skeptic config idx) ;;
  append_entry {| model := model; round_num := rnd; content := content |}.

Definition _save_log : M W unit :=
  path <- (fun s => with_world (dump_log term config (engine s)) s) ;;
  console_print term (log_notice path).

(** The lines of the header that show the agents:
    [for i, m in enumerate(models[:n_instances])]. *)
Definition show_agents : M W unit :=
  for_each (imap (fun i m => (Z.of_nat i, m))
              (slice_to (models config) (instances config)))
    (fun i_m => console_print term (agent_line config (fst i_m) (snd i_m))).

Definition run (query : pystr) : M W optional_str :=
  update_engine (fun _ => {| transcript := []; user_query := query |}) ;;;
  let models := models config in
  let n_rounds := rounds config in
  let n_instances := instances config in
  let prompts := system_prompts config in
  let language := detect_language db query in
  let lang_note := lang_note_of language in
  console_print term (query_line query) ;;;
  show_agents ;;;
  for_each (seqZ 1 n_rounds) (fun rnd =>
    for_each (seqZ 0 n_instances) (fun idx =>
      debate_turn query lang_note rnd idx)) ;;;
  let synth_prompt := prompts_get prompts "final_synthesis" [] ++ lang_note in
  final_model <- py_index models 0 ;;
  entries <- get_transcript ;;
  messages <- prepare_messages synth_prompt query (as_dict <$> entries)
                (context_limit config) (context_strategy config)
                _make_summary_func ;;
  final_content <- _generate final_model messages (n_rounds + 1) (stream_output config)
                     0 true false ;;
  append_entry {| model := final_model; round_num := n_rounds + 1;
                  content := final_content |} ;;;
  (if save_logs config then _save_log else ret tt) ;;;
  ret final_content.

End DebateEngine.

(** ** cafm/ollama_client.py, model discovery *)

(** The part of the Ollama server that knows the installed models:
    [ollama.list()], as the list of the [model] names of its answer, and
    [ollama.pull(model)]; either may raise. *)
Record registry (W : Type) := {
  ollama_list : W -> result (list pystr) * W;
  ollama_pull : pystr -> W -> result unit * W;
}.
Arguments ollama_list {W} r.
Arguments ollama_pull {W} r.

(** The order of [str]: lexicographic on code points. *)
Fixpoint pystr_leb (a b : pystr) : bool :=
  match a, b with
  | [], _ => true
  | _ :: _, [] => false
  | x :: a', y :: b' => (x <? y)%N || ((x =? y)%N && pystr_leb a' b')
  end.

Definition pystr_le (a b : pystr) : Prop := pystr_leb a b = true.

#[global] Instance pystr_le_dec : RelDecision pystr_le :=
  fun a b => decide (pystr_leb a b = true).

(** [sorted(names)] *)
Definition sorted (names : list pystr) : list pystr := merge_sort pystr_le names.

(** [m.split(":")[0]]: what stands before the first colon. *)
Fixpoint base_name (m : pystr) : pystr :=
  match m with
  | [] => []
  | c :: m' => if (c =? 58)%N then [] else c :: base_name m'
  end.

(** [{m.split(":")[0]: m for m in local}] *)
Definition local_base_of (local : list pystr) : gmap pystr pystr :=
  foldl (fun d m => <[base_name m := m]> d) ∅ local.

(** The loop of [validate_models] over [required]. *)
Definition sort_out (local : list pystr) (local_base : gmap pystr pystr)
    (required : list pystr) : list pystr * list pystr :=
  foldl (fun '(available, missing) model =>
           let base := base_name model in
           if bool_decide (model ∈ local) || bool_decide (is_Some (local_base !! base))
           then (available ++ [model], missing)
           else (available, missing ++ [model]))
        ([], []) required.

Section Discovery.
Context {W : Type} (server : registry W).

Definition list_local_models : M W (list pystr) :=
  try_except
    (names <- with_world (ollama_list server) ;;
     ret (sorted names))
    (fun exc => ret []).

Definition validate_models (required : list pystr)
    : M W (list pystr * list pystr) :=
  local <- list_local_models ;;
  let local_base := local_base_of local in
  ret (sort_out local local_base required).

Definition pull_model (model : pystr) : M W bool :=
  try_except
    (with_world (ollama_pull server model) ;;;
     ret true)
    (fun exc => ret false).

End Discovery.

(** ** cafm/config_manager.py, the operations on the model list *)

(** [models[-1] if models else "llama3.2"] *)
Definition filler_of (models : list pystr) : pystr :=
  match last models with
  | Some m => m
  | None => lit "llama3.2"
  end.

Definition with_models (config : ConfigManager) (new_models : list pystr)
    : ConfigManager :=
  {| instances := instances config; rounds := rounds config;
     models := new_models; context_limit := context_limit config;
     context_strategy := context_strategy config;
     summary_model := summary_model config; stream_output := stream_output config;
     save_logs := save_logs config; skeptic_agent := skeptic_agent config;
     system_prompts := system_prompts config |}.

(** [ensure_models_match_instances]; the write to disk of [save] is left
    out. *)
Definition ensure_models_match_instances (config : ConfigManager) : ConfigManager :=
  let models := models config in
  let n := instances config in
  let models :=
    if Z.of_nat (length models) <? n then
      let filler := filler_of models in
      models ++ replicate (Z.to_nat (n - Z.of_nat (length models))) filler
    else if Z.of_nat (length models) >? n then
      slice_to models n
    else models in
  with_models config models.

(** The [while] loop of [set_model_at], with a bound on its iterations:
    [None] when the bound is reached before the loop ends. *)
Fixpoint pad_models (fuel : nat) (models : list pystr) (index : Z)
    : option (list pystr) :=
  if Z.of_nat (length models) <=? index then
    match fuel with
    | O => None
    | S fuel' => pad_models fuel' (models ++ [filler_of models]) index
    end
  else Some models.

(** What [l[i] = x] raises when [i] is out of range. *)
Definition IndexError_assignment : exn :=
  Exc "IndexError" (lit "list assignment index out of range").

(** [l[i] = x] *)
Definition py_set_index {A} (l : list A) (i : Z) (x : A) : result (list A) :=
  let j := if i <? 0 then Z.of_nat (length l) + i else i in
  if (j <? 0) || (Z.of_nat (length l) <=? j) then Raise IndexError_assignment
  else Ret (<[Z.to_nat j := x]> l).

(** [set_model_at]; the write to disk of [save] is left out. *)
Definition set_model_at (fuel : nat) (config : ConfigManager) (index : Z)
    (model_name : pystr) : option (result ConfigManager) :=
  match pad_models fuel (models config) index with
  | None => None
  | Some models =>
      Some (match py_set_index models index model_name with
            | Ret models => Ret (with_models config models)
            | Raise e => Raise e
            end)
  end.

(** ** cafm/config_manager.py, reading the configuration *)

(** A [float] is only carried along. *)
Inductive float_value :=
| Finite (mantissa exponent : Z)
| Infinite (negative : bool)
| NotANumber.

(** The values [json.load] builds.  A [dict] keeps its keys in the order in
    which they were first set. *)
#[local] Unset Elimination Schemes.
Inductive json : Type :=
| JNull
| JBool (b : bool)
| JInt (n : Z)
| JFloat (x : float_value)
| JStr (s : pystr)
| JList (items : list json)
| JDict (items : list (string * json)).
#[local] Set Elimination Schemes.

Abbreviation pydict := (list (string * json)).

(** [d.get(key)], [None] when [key not in d]. *)
Fixpoint dict_get (d : pydict) (key : string) : option json :=
  match d with
  | [] => None
  | (k, v) :: d' => if String.eqb k key then Some v else dict_get d' key
  end.

(** [d[key] = value]: a key that is there keeps its place, a new one goes
    to the end. *)
Fixpoint dict_set (d : pydict) (key : string) (value : json) : pydict :=
  match d with
  | [] => [(key, value)]
  | (k, v) :: d' =>
      if String.eqb k key then (k, value) :: d' else (k, v) :: dict_set d' key value
  end.

(** [_deep_merge(base, override)] for an [override] that is a [dict], by
    recursion on [override]; [copy.deepcopy] is the identity on values. *)
Fixpoint merge_with (override : json) (base : pydict) {struct override} : pydict :=
  match override with
  | JDict items =>
      foldl (fun merged '(key, value) =>
               match dict_get merged key, value with
               | Some (JDict sub), JDict _ =>
                   dict_set merged key (JDict (merge_with value sub))
               | _, _ => dict_set merged key value
               end)
            base items
  | _ => base
  end.

Definition _deep_merge (base override : pydict) : pydict :=
  merge_with (JDict override) base.

(** [type(v).__name__] *)
Definition type_name (v : json) : pystr :=
  match v with
  | JNull => lit "NoneType"
  | JBool _ => lit "bool"
  | JInt _ => lit "int"
  | JFloat _ => lit "float"
  | JStr _ => lit "str"
  | JList _ => lit "list"
  | JDict _ => lit "dict"
  end.

(** What [override.items()] raises on a value that is no [dict]. *)
Definition AttributeError (v : json) : exn :=
  Exc "AttributeError"
    (lit "'" ++ type_name v ++ lit "' object has no attribute 'items'").

Definition DEFAULT_CONFIG : pydict := [
  ("instances"%string, JInt 3);
  ("rounds"%string, JInt 3);
  ("models"%string, JList [JStr (lit "llama3.2"); JStr (lit "qwen2.5"); JStr (lit "mistral")]);
  ("context_limit"%string, JInt 4096);
  ("context_strategy"%string, JStr (lit "sliding_window"));
  ("summary_model"%string, JNull);
  ("stream_output"%string, JBool true);
  ("save_logs"%string, JBool true);
  ("log_directory"%string, JStr (lit "logs"));
  ("skeptic_agent"%string, JBool true);
  ("system_prompts"%string, JDict [
     ("initial_round"%string, JStr (
        lit "You are an expert analyst participating in a multi-agent debate. "
        ++ lit "Provide your independent, well-reasoned perspective on the user's query. "
        ++ lit "Be thorough, specific, and support your arguments with clear reasoning."));
     ("debate_round"%string, JStr (
        lit "You are an expert analyst participating in a multi-agent debate. "
        ++ lit "Review the full transcript of the debate so far. You MUST specifically "
        ++ lit "refute, clarify, or expand on points raised by other participants. "
        ++ lit "Reference their arguments directly. Do not simply repeat what has been "
        ++ lit "said " ++ [8212%N] ++ lit " add genuine value."));
     ("skeptic_round"%string, JStr (
        lit "You are the SKEPTIC in a multi-agent debate. Your sole role is to "
        ++ lit "challenge, question, and actively refute the arguments made by the other "
        ++ lit "participants in the transcript. Find logical flaws, missing evidence, "
        ++ lit "hidden assumptions, and counter-examples. Be direct and adversarial. "
        ++ lit "Do NOT simply agree " ++ [8212%N] ++ lit " your job is to stress-test every claim."));
     ("skeptic_initial_round"%string, JStr (
        lit "You are the SKEPTIC in a multi-agent debate. Since this is the opening round "
        ++ lit "and no other participant has spoken yet, your job is to challenge the USER'S "
        ++ lit "QUERY ITSELF. Identify hidden assumptions, ambiguous language, missing context, "
        ++ lit "or logical traps embedded in the question. Present an adversarial perspective "
        ++ lit "that forces the debate to confront potential flaws from the very start. "
        ++ lit "Do NOT give a straightforward answer " ++ [8212%N]
        ++ lit " question whether the question is even "
        ++ lit "well-formed."));
     ("final_synthesis"%string, JStr (
        lit "You are the final synthesizer in a multi-agent debate. Review the entire "
        ++ lit "debate transcript carefully. Produce a single, comprehensive, high-quality "
        ++ lit "answer that integrates the best insights from all participants. Resolve any "
        ++ lit "contradictions and present the strongest possible consensus answer to the "
        ++ lit "user's original query."))
   ])
].

(** What [load] finds at [self.path]: no file; a file whose reading raises
    one of the exceptions [load] catches ([json.JSONDecodeError],
    [OSError]); or a file that [json.load] parses. *)
Inductive config_file :=
| Absent
| Unreadable (exc : exn)
| Parsed (user_cfg : json).

(** [load], as a function of what is on disk; the [save] of the defaults
    when there is no file, and the warning, are left out. *)
Definition load (file : config_file) : result pydict :=
  let base := DEFAULT_CONFIG in
  match file with
  | Parsed (JDict user_cfg) => Ret (_deep_merge base user_cfg)
  | Parsed user_cfg => Raise (AttributeError user_cfg)
  | Unreadable exc => Ret base
  | Absent => Ret base
  end.

(** ** cafm/cli.py, what it does with the configuration *)

Definition with_instances (config : ConfigManager) (n : Z) : ConfigManager :=
  {| instances := n; rounds := rounds config;
     models := models config; context_limit := context_limit config;
     context_strategy := context_strategy config;
     summary_model := summary_model config; stream_output := stream_output config;
     save_logs := save_logs config; skeptic_agent := skeptic_agent config;
     system_prompts := system_prompts config |}.


(** The agent rows of [show_status]: the number of the agent (from 1), its
    model, and whether the row carries the skeptic mark. *)
Definition status_rows (config : ConfigManager) : list (Z * pystr * bool) :=
  let skeptic_on := skeptic_agent config && (instances config >? 1) in
  imap (fun k m =>
          let i := Z.of_nat k + 1 in
          (i, m, skeptic_on && (i =? instances config)))
       (slice_to (models config) (instances config)).

(** [l.index(x)]; the message is [repr(x)] followed by the text below,
    written out here for a name without quote, backslash or control
    character. *)
Definition ValueError_not_in_list (x : pystr) : exn :=
  Exc "ValueError" (lit "'" ++ x ++ lit "' is not in list").

Definition py_list_index (l : list pystr) (x : pystr) : result Z :=
  match list_find (fun y => y = x) l with
  | Some (i, _) => Ret (Z.of_nat i)
  | None => Raise (ValueError_not_in_list x)
  end.

(** The answers to [Prompt.ask(..., choices=["p", "r", "s"])]. *)
Inductive fix_choice := Pull | Replace | Skip.

(** The user at the prompts of [rich], which ask again until the answer is
    one of the choices offered: [ask_fix model] is the answer for a missing
    model; [ask_number model_list] is [int(pick)] for the answer to the
    numbered list.  A prompt that is interrupted is outside this model. *)
Record console (W : Type) := {
  ask_fix : pystr -> W -> fix_choice * W;
  ask_number : list pystr -> W -> Z * W;
}.
Arguments ask_fix {W} c.
Arguments ask_number {W} c.

(** [f"{idx:>3}"]: the number, with spaces before it up to a width of 3. *)
Definition pad3 (idx : Z) : pystr :=
  let digits := str_of_int idx in
  replicate (3 - length digits) 32%N ++ digits.

(** The lines of [validate_and_fix_models] and [_pick_model_by_number] into
    which a model name is filled. *)
Definition missing_line (missing : list pystr) : pystr :=
  lit "[yellow]" ++ [9888%N] ++ lit " Missing models: " ++ join (lit ", ") missing
  ++ lit "[/yellow]" ++ [10%N].

Definition local_line (m : pystr) : pystr :=
  lit "  " ++ [8226%N] ++ lit " " ++ m.

Definition fix_prompt (model : pystr) : pystr :=
  lit "Model [bold]" ++ model ++ lit "[/bold] not found. [P]ull / [R]eplace / [S]kip?".

Definition pull_failed_line (model : pystr) : pystr :=
  lit "[red]Could not pull " ++ model ++ lit ". Please resolve manually.[/red]".

Definition numbered_line (idx : Z) (name : pystr) : pystr :=
  lit "  [bold cyan]" ++ pad3 idx ++ lit "[/bold cyan]) " ++ name.

Definition replace_prompt (model : pystr) : pystr :=
  lit "Replace " ++ model ++ lit " with".

Definition replaced_line (model replacement : pystr) : pystr :=
  lit "[green]Replaced " ++ model ++ lit " " ++ [8594%N] ++ lit " " ++ replacement
  ++ lit "[/green]".

Definition skipping_line (model : pystr) : pystr :=
  lit "[dim]Skipping " ++ model ++ lit ".[/dim]".

Section Cli.
Context {W : Type} (server : registry W) (term : host W) (user : console W).


Definition from_result {A} (r : result A) : M W A := fun s => (r, s).

Definition ask {A} (f : W -> A * W) : M W A :=
  fun s => let '(a, s') := with_world f s in (Ret a, s').

(** [Prompt.ask(prompt, ...)]: the text of the prompt is rendered as markup,
    then the user answers. *)
Definition prompt_ask {A} (prompt : pystr) (f : W -> A * W) : M W A :=
  console_print term prompt ;;;
  ask f.

Definition _pick_model_by_number (model_list : list pystr) (prompt_label : pystr)
    : M W (option pystr) :=
  match model_list with
  | [] => ret None
  | _ =>
      for_each (imap (fun i name => (Z.of_nat i + 1, name)) model_list)
        (fun idx_name =>
           console_print term (numbered_line (fst idx_name) (snd idx_name))) ;;;
      pick <- prompt_ask prompt_label (ask_number user model_list) ;;
      chosen <- py_index model_list (pick - 1) ;;
      ret (Some chosen)
  end.

(** The loop of [validate_and_fix_models] over [missing]; a [return] inside
    it ends the function with the value returned and the configuration as
    it then is.  [None] stands for a loop of [set_model_at] that did not end
    within [fuel] iterations. *)
Fixpoint fix_missing (fuel : nat) (local missing : list pystr) (cfg : ConfigManager)
    : M W (option (bool * ConfigManager)) :=
  match missing with
  | [] => ret (Some (true, cfg))
  | model :: rest =>
      choice <- prompt_ask (fix_prompt model) (ask_fix user model) ;;
      match choice with
      | Pull =>
          pulled <- pull_model server model ;;
          if negb pulled then
            console_print term (pull_failed_line model) ;;;
            ret (Some (false, cfg))
          else fix_missing fuel local rest cfg
      | Replace =>
          if bool_decide (local = []) then ret (Some (false, cfg))
          else
            replacement <- _pick_model_by_number local (replace_prompt model) ;;
            match replacement with
            | None => ret (Some (false, cfg))
            | Some replacement =>
                idx <- from_result (py_list_index (models cfg) model) ;;
                match set_model_at fuel cfg idx replacement with
                | None => ret None
                | Some changed =>
                    cfg' <- from_result changed ;;
                    console_print term (replaced_line model replacement) ;;;
                    fix_missing fuel local rest cfg'
                end
            end
      | Skip =>
          console_print term (skipping_line model) ;;;
          ret (Some (false, cfg))
      end
  end.

Definition validate_and_fix_models (fuel : nat) (cfg : ConfigManager)
    : M W (option (bool * ConfigManager)) :=
  let models_needed := slice_to (models cfg) (instances cfg) in
  sorted_out <- validate_models server models_needed ;;
  let '(available, missing) := sorted_out in
  match missing with
  | [] => ret (Some (true, cfg))
  | _ =>
      console_print term (missing_line missing) ;;;
      local <- list_local_models server ;;
      for_each local (fun m => console_print term (local_line m)) ;;;
      fix_missing fuel local missing cfg
  end.

End Cli.





(** A required model counts as installed when the local list has it, or has
    a model of the same name before the colon. *)
Definition known (local : list pystr) (model : pystr) : Prop :=
  model ∈ local \/ exists l, l ∈ local /\ base_name l = base_name model.

(** ** Definitions that follow the specification's words, for comparison *)

(** The cost of one fragment as the specification words it:
    [ceil(character_length / 4) + 4]. *)
Definition spec_fragment_cost (msg : message) : Z :=
  (Z.of_nat (length (content_of msg)) + 3) / 4 + 4.

(** The cost of one fragment as the code computes it inside
    [estimate_messages_tokens]. *)
Definition fragment_cost (msg : message) : Z :=
  4 + estimate_tokens (content_of msg).

(** The naive composition of a turn, in the specification's words: the
    system fragment, the fragment framing the query and, when the transcript
    is not empty, one fragment with the rendered transcript. *)
Definition naive_composition (system_prompt user_query : pystr)
    (transcript_entries : list entry_dict) : list message :=
  [ mk_message (lit "system") system_prompt;
    mk_message (lit "user") (lit "User Query: " ++ user_query) ]
  ++ (if bool_decide (transcript_entries = []) then []
      else [ mk_message (lit "user")
               (lit "Debate transcript so far:" ++ [10%N; 10%N]
                ++ build_transcript transcript_entries) ]).

(** The fallback of the summarizer as the specification words it: the last
    [limit * 4] characters of the rendered transcript, prefixed with the
    marker. *)
Definition spec_fallback (full : pystr) (limit : Z) : pystr :=
  TRUNCATION_MARKER ++ drop (length full - Z.to_nat (limit * 4)) full.

(** The roles and the prompt variants of the specification. *)
Inductive role := Debater | Skeptic.

Inductive prompt_variant :=
| skeptic_initial
| skeptic_followup
| debater_initial
| debater_followup.

Definition spec_variant (r : role) (is_first_round : bool) : prompt_variant :=
  match r, is_first_round with
  | Skeptic, true => skeptic_initial
  | Skeptic, false => skeptic_followup
  | Debater, true => debater_initial
  | Debater, false => debater_followup
  end.

(** The role of the agent of index [idx], as the specification has it. *)
Definition spec_role (config : ConfigManager) (idx : Z) : role :=
  if bool_decide (skeptic_agent config = true
                  /\ instances config > 1
                  /\ idx = instances config - 1)
  then Skeptic else Debater.

(** The text of a variant in the configured prompts: the prompt under the
    key of the variant; when the key is not there, for the skeptic the
    prompt of the next variant in line, and at last the empty text. *)
Definition variant_text (prompts : gmap string pystr) (v : prompt_variant) : pystr :=
  match v with
  | skeptic_initial =>
      match prompts !! "skeptic_initial_round"%string with
      | Some prompt => prompt
      | None =>
          match prompts !! "skeptic_round"%string with
          | Some prompt => prompt
          | None => []
          end
      end
  | skeptic_followup =>
      match prompts !! "skeptic_round"%string with
      | Some prompt => prompt
      | None =>
          match prompts !! "debate_round"%string with
          | Some prompt => prompt
          | None => []
          end
      end
  | debater_initial =>
      match prompts !! "initial_round"%string with
      | Some prompt => prompt
      | None => []
      end
  | debater_followup =>
      match prompts !! "debate_round"%string with
      | Some prompt => prompt
      | None => []
      end
  end.

(** The count of the specification: the Spanish diacritic characters of the
    text, plus the positions at which a function word stands as a whole
    word. *)
Definition spec_diacritics (db : unicode_db) (text : pystr) : nat :=
  length (filter (fun t => Re.in_class db t = true) text).

(** The closed list of function words, written out. *)
Definition SPEC_FUNCTION_WORDS : list pystr :=
  [ lit "que"; lit "est" ++ [225%N]; lit "es"; lit "en"; lit "de"; lit "la";
    lit "el"; lit "los"; lit "las"; lit "con"; lit "por"; lit "para";
    lit "una"; lit "uno"; lit "pero"; lit "como"; lit "m" ++ [225%N] ++ lit "s";
    lit "tambi" ++ [233%N] ++ lit "n"; lit "sobre"; lit "muy"; lit "tiene";
    lit "hacer"; lit "qu" ++ [233%N]; lit "c" ++ [243%N] ++ lit "mo";
    lit "cu" ++ [225%N] ++ lit "l"; lit "esto"; lit "eso"; lit "son";
    lit "hay"; lit "si" ].

(** The Spanish diacritic characters, written out: á é í ó ú ü ñ ¿ ¡. *)
Definition SPEC_DIACRITICS : list N :=
  [225; 233; 237; 243; 250; 252; 241; 191; 161]%N.

(** A character that can be part of a word: a letter, a digit or the
    underscore. *)
Definition spec_word_char (db : unicode_db) (c : option N) : bool :=
  match c with
  | Some c => isalnum db c || (c =? 95)%N
  | None => false
  end.

(** The letter [c] of a function word and the character [t] of the text are
    the same without regard to case: [c] is the lower case of [t], or [t] is
    one of the two characters the regular-expression engine takes for an
    [i] (the dotless i) or an [s] (the long s). *)
Definition spec_same_letter (db : unicode_db) (c t : N) : bool :=
  (tolower db t =? c)%N
  || ((c =? 105) && (tolower db t =? 305))%N
  || ((c =? 115) && (tolower db t =? 383))%N.

(** The word [w] stands at the head of [s], letter for letter. *)
Fixpoint spec_occurs (db : unicode_db) (w s : pystr) : bool :=
  match w, s with
  | [], _ => true
  | c :: w', t :: s' => spec_same_letter db c t && spec_occurs db w' s'
  | _ :: _, [] => false
  end.

(** The occurrence of [w] at the head of [s], after the character [prev],
    is a whole word: a word starts at its first character and ends at its
    last. *)
Definition spec_whole_word (db : unicode_db) (prev : option N) (w s : pystr) : bool :=
  spec_occurs db w s
  && xorb (spec_word_char db prev) (spec_word_char db (head s))
  && xorb (spec_word_char db
             (match last (take (length w) s) with Some c => Some c | None => prev end))
          (spec_word_char db (head (drop (length w) s))).

(** The first function word of the list that stands as a whole word at the
    head of [s]. *)
Definition spec_word_here (db : unicode_db) (prev : option N) (s : pystr) : option pystr :=
  List.find (fun w => spec_whole_word db prev w s) SPEC_FUNCTION_WORDS.

Definition spec_diacritic (db : unicode_db) (t : N) : bool :=
  bool_decide (tolower db t ∈ SPEC_DIACRITICS).

(** The matches of the text, counted from left to right without overlap: at
    each character that is not inside the match before it, a diacritic
    character counts one; otherwise a function word that stands there as a
    whole word counts one, and its characters are passed over. *)
Fixpoint spec_match_count (db : unicode_db) (skip : nat) (prev : option N)
    (s : pystr) : nat :=
  match s with
  | [] => 0
  | t :: s' =>
      match skip with
      | S k => spec_match_count db k (Some t) s'
      | O =>
          if spec_diacritic db t then S (spec_match_count db 0 (Some t) s')
          else match spec_word_here db prev s with
               | Some w => S (spec_match_count db (length w - 1) (Some t) s')
               | None => spec_match_count db 0 (Some t) s'
               end
      end
  end%nat.

Definition spec_matches (db : unicode_db) (text : pystr) : nat :=
  spec_match_count db 0 None text.

(** The positions at which a function word stands as a whole word, each
    counted, whatever stands around it. *)
Fixpoint spec_whole_words (db : unicode_db) (prev : option N) (s : pystr) : nat :=
  match s with
  | [] => 0
  | t :: s' =>
      (if bool_decide (is_Some (spec_word_here db prev s)) then 1 else 0)
      + spec_whole_words db (Some t) s'
  end%nat.

Definition spec_signal_count (db : unicode_db) (text : pystr) : nat :=
  (spec_diacritics db text + spec_whole_words db None text)%nat.

(** Two character databases say the same of a character. *)
Definition same_on (db db' : unicode_db) (c : N) : Prop :=
  isalnum db c = isalnum db' c /\ tolower db c = tolower db' c.

(** The diagnostic texts of the two port operations, for a model and the
    exception its call raised. *)
Definition sync_error (model : pystr) (e : exn) : pystr :=
  lit "[ERROR] Model " ++ model ++ lit " failed: " ++ exn_str e.

Definition stream_error (model : pystr) (e : exn) : pystr :=
  [10%N] ++ lit "[ERROR] Model " ++ model ++ lit " failed: " ++ exn_str e ++ [10%N].

(** ** What a run prints *)

(** The titles of the panels of a debate turn and of the synthesis. *)
Definition turn_title (config : ConfigManager) (rnd idx : Z) (m : pystr) : pystr :=
  panel_title m rnd idx false (is_this_skeptic config idx).

Definition synthesis_title (config : ConfigManager) (m : pystr) : pystr :=
  panel_title m (rounds config + 1) 0 true false.

(** The lines and titles of a run that carry the query or a model name: the
    query line, the line of every agent, the title of every turn of every
    round, and the title of the synthesis. *)
Definition run_lines (config : ConfigManager) (query : pystr) : list pystr :=
  query_line query
  :: imap (fun i m => agent_line config (Z.of_nat i) m)
       (slice_to (models config) (instances config))
  ++ (seqZ 1 (rounds config) ≫= (fun rnd =>
        imap (fun i m => turn_title config rnd (Z.of_nat i) m)
          (take (Z.to_nat (instances config)) (models config))))
  ++ match models config !! 0%nat with
     | Some m => [synthesis_title config m]
     | None => []
     end.

(** The console renders every answer it is given to print: the answers of
    the configured models, when they are not streamed. *)
Definition answers_render {W : Type} (ollama : backend W) (term : host W)
    (config : ConfigManager) : Prop :=
  stream_output config = false ->
  forall (m : pystr) (messages : list message) (s : state W) (text : pystr),
    m ∈ models config ->
    fst (chat_sync ollama m messages (context_limit config) s) = Ret (Some text) ->
    render term text = None.

(** The log is written and its notice rendered, when logs are kept. *)
Definition log_kept {W : Type} (term : host W) (config : ConfigManager) : Prop :=
  save_logs config = true ->
  forall (sess : session) (w : W), exists path w',
    dump_log term config sess w = (Ret path, w')
    /\ render term (log_notice path) = None.

(** Nothing the run hands to the console or to the disk fails. *)
Definition console_ready {W : Type} (ollama : backend W) (term : host W)
    (config : ConfigManager) (query : pystr) : Prop :=
  Forall (fun text => render term text = None) (run_lines config query)
  /\ answers_render ollama term config
  /\ log_kept term config.

(** ** Predicates on computations *)

(** The computation leaves the session (transcript and query) as it is. *)
Definition keeps_session {W A} (m : M W A) : Prop :=
  forall s, engine (snd (m s)) = engine s.

(** The computation lets no exception out. *)
Definition never_raises {W A} (m : M W A) : Prop :=
  forall s, exists a, fst (m s) = Ret a.





(** ** Sample inputs *)

Definition q_es : pystr :=
  [191%N] ++ lit "Qu" ++ [233%N] ++ lit " es esto y por qu" ++ [233%N] ++ lit "?".

Definition q_en : pystr := lit "What is this and why?".

Definition q_mas : pystr := lit "m" ++ [225%N] ++ lit "s".

(** A server that refuses every call. *)
Definition refusing : backend unit := {|
  chat _ _ _ w := (Raise (Exc "ConnectionError" (lit "connection refused")), w);
  chat_iter _ _ _ w := (Raise (Exc "ConnectionError" (lit "connection refused")), w);
|}.

(** A server that answers every call with the same word, and streams it in
    two chunks (with an empty chunk between them). *)
Definition reply (text : pystr) : response :=
  {[ "message"%string := {[ "content"%string := Some text ]} ]}.

(** An answer whose content is [None]. *)
Definition reply_none : response :=
  {[ "message"%string := {[ "content"%string := None ]} ]}.

Definition parrot : backend unit := {|
  chat _ _ _ w := (Ret (reply (lit "ok")), w);
  chat_iter _ _ _ w := (Ret ([reply (lit "o"); reply []; reply (lit "k")], None), w);
|}.

(** A server whose stream breaks after the first chunk. *)
Definition stutter : backend unit := {|
  chat _ _ _ w := (Ret (reply (lit "ok")), w);
  chat_iter _ _ _ w := (Ret ([reply (lit "o")], Some (Exc "ResponseError" (lit "eof"))), w);
|}.

Definition fresh : state unit :=
  {| world := tt; engine := {| transcript := []; user_query := [] |}; calls := [] |}.

Definition sample_messages : list message :=
  [ mk_message (lit "system") (lit "Argue.");
    mk_message (lit "user") (lit "User Query: why?");
    mk_message (lit "user") (lit "an old and rather long contribution to the debate");
    mk_message (lit "user") (lit "recent") ].

Definition sample_entry : entry_dict :=
  {| d_model := lit "llama3.2"; d_round := 1; d_content := Some (lit "hi") |}.

(** A summarizer that always fails. *)
Definition failing_summary : list message -> M unit optional_str :=
  fun _ => raise (Exc "RuntimeError" (lit "boom")).

(** A server that answers every call without a content: the field is set
    to [None]. *)
Definition mute : backend unit := {|
  chat _ _ _ w := (Ret reply_none, w);
  chat_iter _ _ _ w := (Ret ([reply_none], None), w);
|}.

(** A console that keeps the tag discipline of the markup of [rich], as far
    as tags without escapes and handlers go.  A tag is an opening bracket, a
    character of [[a-z#/@]], then the characters up to the first closing
    bracket, with no opening bracket among them.  An opening tag is put on
    the stack; a closing tag takes the nearest tag of its name off the
    stack, [[/]] the top one, and faults when there is none.  Names are
    compared as they are written. *)
Definition tag_start (c : N) : bool :=
  ((97 <=? c) && (c <=? 122) || (c =? 35) || (c =? 47) || (c =? 64))%N.

Fixpoint tag_rest (s : pystr) : option pystr :=
  match s with
  | [] => None
  | c :: s' =>
      if (c =? 93)%N then Some []
      else if (c =? 91)%N then None
      else match tag_rest s' with
           | Some rest => Some (c :: rest)
           | None => None
           end
  end.

Definition tag_at (s : pystr) : option pystr :=
  match s with
  | b :: c :: s' =>
      if (b =? 91)%N && tag_start c then
        match tag_rest s' with
        | Some rest => Some (c :: rest)
        | None => None
        end
      else None
  | _ => None
  end.

Fixpoint before_equals (tag : pystr) : pystr :=
  match tag with
  | [] => []
  | c :: tag' => if (c =? 61)%N then [] else c :: before_equals tag'
  end.

Fixpoint pop_style (name : pystr) (stack : list pystr) : option (list pystr) :=
  match stack with
  | [] => None
  | top :: below =>
      if bool_decide (top = name) then Some below
      else match pop_style name below with
           | Some below' => Some (top :: below')
           | None => None
           end
  end.

Definition MarkupError (msg : pystr) : exn := Exc "MarkupError" msg.

Fixpoint markup_fault_from (skip : nat) (position : Z) (stack : list pystr)
    (s : pystr) : option exn :=
  match s with
  | [] => None
  | _ :: s' =>
      match skip with
      | S k => markup_fault_from k (position + 1) stack s'
      | O =>
          match tag_at s with
          | None => markup_fault_from 0 (position + 1) stack s'
          | Some tag =>
              match before_equals tag with
              | slash :: style_name =>
                  if (slash =? 47)%N then
                    match style_name with
                    | [] =>
                        match stack with
                        | [] =>
                            Some (MarkupError
                                    (lit "closing tag '[/]' at position "
                                     ++ str_of_int position
                                     ++ lit " has nothing to close"))
                        | _ :: below =>
                            markup_fault_from (length tag + 1) (position + 1) below s'
                        end
                    | _ =>
                        match pop_style style_name stack with
                        | None =>
                            Some (MarkupError
                                    (lit "closing tag '[" ++ tag ++ lit "]' at position "
                                     ++ str_of_int position
                                     ++ lit " doesn't match any open tag"))
                        | Some below =>
                            markup_fault_from (length tag + 1) (position + 1) below s'
                        end
                    end
                  else
                    markup_fault_from (length tag + 1) (position + 1)
                      (before_equals tag :: stack) s'
              | [] => markup_fault_from (length tag + 1) (position + 1) stack s'
              end
          end
      end
  end.

Definition markup_fault (text : pystr) : option exn :=
  markup_fault_from 0 0 [] text.

(** The console with a disk that takes the log, and with one that does
    not. *)
Definition tagged : host unit := {|
  render := markup_fault;
  dump_log _ _ w := (Ret (lit "logs/debate_20250101_120000.json"), w);
|}.


(** A query that quotes a chat template. *)
Definition q_inst : pystr := lit "[/INST] why?".

(** A server with two models installed, and one that cannot be reached. *)
Definition two_installed : registry unit := {|
  ollama_list w := (Ret [lit "qwen2.5:7b"; lit "llama3.2:latest"], w);
  ollama_pull _ w := (Ret tt, w);
|}.

Definition unreachable : registry unit := {|
  ollama_list w := (Raise (Exc "ConnectionError" (lit "connection refused")), w);
  ollama_pull _ w := (Raise (Exc "ConnectionError" (lit "connection refused")), w);
|}.

(** A user who replaces every missing model by the first of the list, and
    one who asks for every missing model to be pulled. *)
Definition replacing : console unit := {|
  ask_fix _ w := (Replace, w);
  ask_number _ w := (1, w);
|}.

Definition pulling : console unit := {|
  ask_fix _ w := (Pull, w);
  ask_number _ w := (1, w);
|}.

(** A session left behind by an earlier run. *)
Definition used : state unit :=
  {| world := tt;
     engine := {| transcript := [ {| model := lit "mistral"; round_num := 7;
                                     content := Some (lit "old") |} ];
                  user_query := lit "before" |};
     calls := [] |}.

Definition sample_config : ConfigManager := {|
  instances := 2;
  rounds := 1;
  models := [lit "llama3.2"; lit "qwen2.5"];
  context_limit := 4096;
  context_strategy := lit "sliding_window";
  summary_model := None;
  stream_output := false;
  save_logs := false;
  skeptic_agent := false;
  system_prompts := {[ "initial_round"%string := lit "Argue.";
                       "final_synthesis"%string := lit "Merge." ]};
|}.

(** Four agents with the skeptic switched on or off, each variant with a
    prompt of its own. *)
Definition four_agents_config (enabled : bool) : ConfigManager := {|
  instances := 4;
  rounds := 3;
  models := [lit "llama3.2"; lit "qwen2.5"; lit "mistral"; lit "phi3"];
  context_limit := 4096;
  context_strategy := lit "sliding_window";
  summary_model := None;
  stream_output := true;
  save_logs := false;
  skeptic_agent := enabled;
  system_prompts := {[ "initial_round"%string := lit "Open.";
                       "debate_round"%string := lit "Reply.";
                       "skeptic_round"%string := lit "Doubt.";
                       "skeptic_initial_round"%string := lit "Doubt the question." ]};
|}.



(** A streaming configuration without prompts and without a log, with the
    skeptic switched on, by its numbers of agents and rounds and its
    models. *)
Definition streamed_config (n_instances n_rounds : Z) (names : list pystr)
    : ConfigManager := {|
  instances := n_instances;
  rounds := n_rounds;
  models := names;
  context_limit := 4096;
  context_strategy := lit "sliding_window";
  summary_model := None;
  stream_output := true;
  save_logs := false;
  skeptic_agent := true;
  system_prompts := ∅;
|}.


(** * Properties *)

(** ** Token estimation *)

Lemma estimate_foldl_shift (messages : list message) (acc : Z) :
  foldl (fun total msg => total + (4 + estimate_tokens (content_of msg))) acc messages
  = acc + estimate_messages_tokens messages.
Proof.
  unfold estimate_messages_tokens.
  revert acc. induction messages as [|msg messages IH]; intros acc; simpl.
  - lia.
  - rewrite IH. rewrite (IH (0 + _)). lia.
Qed.

Lemma estimate_cons (msg : message) (messages : list message) :
  estimate_messages_tokens (msg :: messages)
  = fragment_cost msg + estimate_messages_tokens messages.
Proof.
  unfold estimate_messages_tokens at 1. simpl.
  rewrite estimate_foldl_shift. unfold fragment_cost. lia.
Qed.

Lemma estimate_nil : estimate_messages_tokens [] = 0.
Proof. reflexivity. Qed.

Lemma estimate_single (msg : message) :
  estimate_messages_tokens [msg] = fragment_cost msg.
Proof. rewrite estimate_cons, estimate_nil. lia. Qed.

Lemma estimate_app (l1 l2 : list message) :
  estimate_messages_tokens (l1 ++ l2)
  = estimate_messages_tokens l1 + estimate_messages_tokens l2.
Proof.
  induction l1 as [|msg l1 IH]; simpl.
  - rewrite estimate_nil. lia.
  - rewrite !estimate_cons, IH. lia.
Qed.

Lemma estimate_sum (messages : list message) :
  estimate_messages_tokens messages = foldr Z.add 0 (fragment_cost <$> messages).
Proof.
  induction messages as [|msg messages IH]; [reflexivity|].
  rewrite estimate_cons, IH. reflexivity.
Qed.

Lemma estimate_tokens_floor (text : pystr) : 1 <= estimate_tokens text.
Proof. unfold estimate_tokens. lia. Qed.

Lemma fragment_cost_floor (msg : message) : 5 <= fragment_cost msg.
Proof. unfold fragment_cost. pose proof (estimate_tokens_floor (content_of msg)). lia. Qed.

Lemma estimate_lower (messages : list message) :
  5 * Z.of_nat (length messages) <= estimate_messages_tokens messages.
Proof.
  induction messages as [|msg messages IH]; [rewrite estimate_nil; simpl; lia|].
  rewrite estimate_cons. pose proof (fragment_cost_floor msg).
  simpl length. lia.
Qed.

(** C3, as the code has it: the cost of a fragment is
    [max(1, floor(character_length / 4)) + 4] (floor, not ceiling, with a
    floor of one token for the content), and the cost of a message list is
    the sum of the costs of its fragments. *)
Theorem C3_estimate_floor_plus_overhead :
  (forall msg : message,
     estimate_messages_tokens [msg]
     = Z.max 1 (Z.of_nat (length (content_of msg)) / 4) + 4)
  /\ (forall messages : list message,
        estimate_messages_tokens messages
        = foldr Z.add 0 ((fun msg => estimate_messages_tokens [msg]) <$> messages)).
Proof.
  split.
  - intros msg. rewrite estimate_single. unfold fragment_cost, estimate_tokens,
      CHARS_PER_TOKEN. lia.
  - intros messages. rewrite estimate_sum. reflexivity.
Qed.

(** C3, as the specification words it, fails: a fragment of five characters
    costs 5, where [ceil(5 / 4) + 4] is 6; an empty fragment costs 5, where
    [ceil(0 / 4) + 4] is 4. *)
Lemma C3_ceiling_counterexample :
  estimate_messages_tokens [mk_message (lit "user") (lit "hello")] = 5
  /\ spec_fragment_cost (mk_message (lit "user") (lit "hello")) = 6
  /\ estimate_messages_tokens [mk_message (lit "user") []] = 5
  /\ spec_fragment_cost (mk_message (lit "user") []) = 4.
Proof. vm_compute. repeat split. Qed.

(** ** The recency window *)

Lemma window_walk_cons (msg : message) (older included : list message) (budget : Z) :
  window_walk (msg :: older) budget included
  = if budget - fragment_cost msg <? 0 then included
    else window_walk older (budget - fragment_cost msg) (msg :: included).
Proof. reflexivity. Qed.

Lemma window_walk_spec (rev_rest : list message) :
  forall (budget : Z) (included : list message),
  exists j : nat,
    (j <= length rev_rest)%nat
    /\ window_walk rev_rest budget included = reverse (take j rev_rest) ++ included
    /\ (0 <= budget -> estimate_messages_tokens (take j rev_rest) <= budget)
    /\ (forall msg, rev_rest !! j = Some msg ->
          budget - estimate_messages_tokens (take j rev_rest) < fragment_cost msg).
Proof.
  induction rev_rest as [|msg older IH]; intros budget included.
  - exists 0%nat. simpl. repeat split; [lia | | discriminate].
    intros. rewrite estimate_nil. lia.
  - rewrite window_walk_cons.
    destruct (budget - fragment_cost msg <? 0) eqn:Hover.
    + apply Z.ltb_lt in Hover.
      exists 0%nat. simpl. repeat split; [lia | |].
      * intros. rewrite estimate_nil. lia.
      * intros msg' [= <-]. rewrite estimate_nil. lia.
    + apply Z.ltb_ge in Hover.
      destruct (IH (budget - fragment_cost msg) (msg :: included))
        as (j & Hj & Hres & Hfit & Hstop).
      exists (S j). simpl. repeat split.
      * lia.
      * rewrite Hres, reverse_cons, <- app_assoc. reflexivity.
      * intros _. rewrite estimate_cons. specialize (Hfit Hover). lia.
      * intros msg' Hmsg'. rewrite estimate_cons.
        specialize (Hstop msg' Hmsg'). lia.
Qed.

Lemma window_walk_suffix (rest : list message) (budget : Z) :
  exists k : nat,
    (k <= length rest)%nat
    /\ window_walk (reverse rest) budget [] = drop k rest
    /\ (0 <= budget -> estimate_messages_tokens (drop k rest) <= budget)
    /\ (forall msg, (0 < k)%nat -> rest !! (k - 1)%nat = Some msg ->
          budget - estimate_messages_tokens (drop k rest) < fragment_cost msg).
Proof.
  destruct (window_walk_spec (reverse rest) budget [])
    as (j & Hj & Hres & Hfit & Hstop).
  rewrite length_reverse in Hj.
  assert (Hest : forall l : list message,
             estimate_messages_tokens (reverse l) = estimate_messages_tokens l).
  { induction l as [|x l IHl]; [reflexivity|].
    rewrite reverse_cons, estimate_app, estimate_single, estimate_cons, IHl. lia. }
  assert (Htake : reverse (take j (reverse rest)) = drop (length rest - j) rest).
  { rewrite take_reverse, reverse_involutive. reflexivity. }
  exists (length rest - j)%nat. repeat split.
  - lia.
  - rewrite Hres, app_nil_r. exact Htake.
  - intros Hb. rewrite <- Htake, Hest. auto.
  - intros msg Hk Hmsg. rewrite <- Htake, Hest. apply Hstop.
    rewrite reverse_lookup by lia.
    rewrite <- Hmsg. f_equal. lia.
Qed.

Lemma sliding_window_unfold (messages : list message) (limit : Z) :
  sliding_window messages limit =
  if limit - estimate_messages_tokens (take 2 messages) - 64 <=? 0
  then take 2 messages
  else take 2 messages
       ++ window_walk (reverse (drop 2 messages))
            (limit - estimate_messages_tokens (take 2 messages) - 64) [].
Proof.
  destruct messages as [|m messages]; [|reflexivity].
  simpl. destruct (_ <=? _); reflexivity.
Qed.

Lemma sliding_window_reserved (messages : list message) (limit : Z) :
  exists included, sliding_window messages limit = take 2 messages ++ included.
Proof.
  rewrite sliding_window_unfold. destruct (_ <=? _).
  - exists []. rewrite app_nil_r. reflexivity.
  - eexists. reflexivity.
Qed.

Lemma sliding_window_take (messages : list message) (limit : Z) :
  (2 <= length messages)%nat ->
  take 2 (sliding_window messages limit) = take 2 messages.
Proof.
  intros Hlen.
  destruct (sliding_window_reserved messages limit) as [included ->].
  rewrite take_app_le by (rewrite length_take; lia).
  apply take_take.
Qed.

(** C4: the first two fragments of the input are the first two elements of
    the output of [sliding_window], unchanged, for every limit (zero and
    negative ones included); and when the reserved fragments exhaust the
    budget the output is exactly those two fragments.  [sliding_window] is a
    total function: it has no failing case. *)
Theorem C4_window_keeps_first_two (messages : list message) (limit : Z) :
  (2 <= length messages)%nat ->
  take 2 (sliding_window messages limit) = take 2 messages
  /\ sliding_window messages limit !! 0%nat = messages !! 0%nat
  /\ sliding_window messages limit !! 1%nat = messages !! 1%nat
  /\ (limit - estimate_messages_tokens (take 2 messages) - 64 <= 0 ->
      sliding_window messages limit = take 2 messages)
  /\ (limit <= estimate_messages_tokens (take 2 messages) ->
      sliding_window messages limit = take 2 messages).
Proof.
  intros Hlen.
  assert (Hlen2 : length (take 2 messages) = 2%nat) by (rewrite length_take; lia).
  destruct (sliding_window_reserved messages limit) as [included Hform].
  assert (Hexhaust : limit - estimate_messages_tokens (take 2 messages) - 64 <= 0 ->
                     sliding_window messages limit = take 2 messages).
  { intros Hb. rewrite sliding_window_unfold.
    destruct (_ <=? _) eqn:E; [reflexivity|]. apply Z.leb_gt in E. lia. }
  repeat split.
  - apply sliding_window_take. exact Hlen.
  - rewrite Hform. rewrite lookup_app_l by lia. apply lookup_take_lt. lia.
  - rewrite Hform. rewrite lookup_app_l by lia. apply lookup_take_lt. lia.
  - exact Hexhaust.
  - intros Hb. apply Hexhaust. lia.
Qed.

Lemma C4_window_keeps_first_two_witness :
  take 2 (sliding_window sample_messages (-3)) = take 2 sample_messages
  /\ sliding_window sample_messages (-3) !! 0%nat = sample_messages !! 0%nat
  /\ sliding_window sample_messages (-3) !! 1%nat = sample_messages !! 1%nat
  /\ (-3 - estimate_messages_tokens (take 2 sample_messages) - 64 <= 0 ->
      sliding_window sample_messages (-3) = take 2 sample_messages)
  /\ (-3 <= estimate_messages_tokens (take 2 sample_messages) ->
      sliding_window sample_messages (-3) = take 2 sample_messages).
Proof.
  apply (C4_window_keeps_first_two sample_messages (-3)).
  simpl. lia.
Defined.


(** C5: beyond the first two, the output of [sliding_window] is a contiguous
    suffix [drop k] of the remaining input fragments, in the input's order
    and unchanged; it is the suffix at which the walk from the most recent
    fragment stops.  For every limit, the included fragments cost no more
    than the budget left after the reserved fragments and the margin of 64
    (so none is included when that budget is zero or less), and the fragment
    just before them (if any) costs more than what is then left: the walk
    stopped there, whatever the older fragments cost. *)
Theorem C5_window_recent_suffix (messages : list message) (limit : Z) :
  (2 <= length messages)%nat ->
  let rest := drop 2 messages in
  let budget := limit - estimate_messages_tokens (take 2 messages) - 64 in
  exists k : nat,
    (k <= length rest)%nat
    /\ drop 2 (sliding_window messages limit) = drop k rest
    /\ sliding_window messages limit = take 2 messages ++ drop k rest
    /\ estimate_messages_tokens (drop k rest) <= Z.max 0 budget
    /\ (budget <= 0 -> drop k rest = [])
    /\ (forall msg, (0 < k)%nat -> rest !! (k - 1)%nat = Some msg ->
          budget - estimate_messages_tokens (drop k rest)
          < estimate_messages_tokens [msg]).
Proof.
  intros Hlen rest budget.
  assert (Hlen2 : length (take 2 messages) = 2%nat) by (rewrite length_take; lia).
  assert (Hdrop : forall l : list message, drop 2 (take 2 messages ++ l) = l).
  { intros l. rewrite drop_app_length'; [reflexivity | symmetry; exact Hlen2]. }
  rewrite sliding_window_unfold. fold rest. fold budget.
  destruct (budget <=? 0) eqn:Hb.
  - apply Z.leb_le in Hb.
    exists (length rest). rewrite drop_all, app_nil_r.
    split; [lia|]. split; [rewrite <- (app_nil_r (take 2 messages)); apply Hdrop|].
    split; [reflexivity|]. split; [rewrite estimate_nil; lia|].
    split; [reflexivity|].
    intros msg _ _. rewrite estimate_nil, estimate_single.
    pose proof (fragment_cost_floor msg). lia.
  - apply Z.leb_gt in Hb.
    destruct (window_walk_suffix rest budget) as (k & Hk & Hres & Hfit & Hstop).
    exists k. rewrite Hres.
    split; [exact Hk|]. split; [apply Hdrop|]. split; [reflexivity|].
    split; [specialize (Hfit ltac:(lia)); lia|]. split; [lia|].
    intros msg Hpos Hmsg. rewrite estimate_single. apply Hstop; assumption.
Qed.

Lemma C5_window_recent_suffix_witness :
  exists k : nat,
    (k <= length (drop 2 sample_messages))%nat
    /\ drop 2 (sliding_window sample_messages 85) = drop k (drop 2 sample_messages)
    /\ sliding_window sample_messages 85
       = take 2 sample_messages ++ drop k (drop 2 sample_messages)
    /\ estimate_messages_tokens (drop k (drop 2 sample_messages))
       <= Z.max 0 (85 - estimate_messages_tokens (take 2 sample_messages) - 64)
    /\ (85 - estimate_messages_tokens (take 2 sample_messages) - 64 <= 0 ->
        drop k (drop 2 sample_messages) = [])
    /\ (forall msg, (0 < k)%nat -> drop 2 sample_messages !! (k - 1)%nat = Some msg ->
          85 - estimate_messages_tokens (take 2 sample_messages) - 64
          - estimate_messages_tokens (drop k (drop 2 sample_messages))
          < estimate_messages_tokens [msg]).
Proof.
  apply (C5_window_recent_suffix sample_messages 85).
  simpl. lia.
Defined.


(** The fragments of [sample_messages] cost 5, 8, 16 and 5.  With a limit of
    85 the budget after the reserve is 8: the most recent fragment is taken,
    the one before it does not fit. With 77 nothing is left; with 100
    everything fits. *)
Example window_blocks :
  content_of <$> sliding_window sample_messages 85
  = [lit "Argue."; lit "User Query: why?"; lit "recent"]
  /\ content_of <$> sliding_window sample_messages 77
     = [lit "Argue."; lit "User Query: why?"]
  /\ content_of <$> sliding_window sample_messages 100
     = content_of <$> sample_messages.
Proof. split; [|split]; vm_compute; reflexivity. Qed.

(** C10: every fragment, an empty one too, costs at least 5; a message list
    costs at least 5 per message, and costs 0 only when it is empty; a walk
    with fewer than 5 tokens of budget admits no fragment, so with fewer
    than 5 tokens left after the reserve, or a limit below 5,
    [sliding_window] returns the reserved fragments alone. *)
Theorem C10_cost_floor :
  (forall msg : message, 5 <= estimate_messages_tokens [msg])
  /\ (forall messages : list message,
        5 * Z.of_nat (length messages) <= estimate_messages_tokens messages)
  /\ (forall messages : list message,
        estimate_messages_tokens messages = 0 <-> messages = [])
  /\ (forall (rev_rest included : list message) (budget : Z),
        budget < 5 -> window_walk rev_rest budget included = included)
  /\ (forall (messages : list message) (limit : Z),
        limit - estimate_messages_tokens (take 2 messages) - 64 < 5 ->
        sliding_window messages limit = take 2 messages)
  /\ (forall (messages : list message) (limit : Z),
        limit < 5 -> sliding_window messages limit = take 2 messages).
Proof.
  assert (Hwalk : forall (rev_rest included : list message) (budget : Z),
             budget < 5 -> window_walk rev_rest budget included = included).
  { intros [|msg older] included budget Hb; [reflexivity|].
    rewrite window_walk_cons. pose proof (fragment_cost_floor msg).
    destruct (_ <? _) eqn:E; [reflexivity|]. apply Z.ltb_ge in E. lia. }
  assert (Hsw : forall (messages : list message) (limit : Z),
             limit - estimate_messages_tokens (take 2 messages) - 64 < 5 ->
             sliding_window messages limit = take 2 messages).
  { intros messages limit Hb. rewrite sliding_window_unfold.
    destruct (_ <=? _); [reflexivity|].
    rewrite Hwalk by exact Hb. apply app_nil_r. }
  split; [|split; [|split; [|split; [|split]]]].
  - intros msg. rewrite estimate_single. apply fragment_cost_floor.
  - apply estimate_lower.
  - intros messages. split.
    + intros H0. pose proof (estimate_lower messages).
      destruct messages; [reflexivity | simpl length in *; lia].
    + intros ->. reflexivity.
  - exact Hwalk.
  - exact Hsw.
  - intros messages limit Hb. apply Hsw.
    pose proof (estimate_lower (take 2 messages)). lia.
Qed.

Lemma C10_cost_floor_witness :
  sliding_window sample_messages 4 = take 2 sample_messages.
Proof.
  apply C10_cost_floor. lia.
Defined.


(** ** Composition of a turn *)

Lemma naive_composition_nil (system_prompt user_query : pystr) :
  naive_composition system_prompt user_query []
  = [ mk_message (lit "system") system_prompt;
      mk_message (lit "user") (lit "User Query: " ++ user_query) ].
Proof. reflexivity. Qed.

Lemma naive_composition_cons (system_prompt user_query : pystr)
    (e : entry_dict) (entries : list entry_dict) :
  naive_composition system_prompt user_query (e :: entries)
  = [ mk_message (lit "system") system_prompt;
      mk_message (lit "user") (lit "User Query: " ++ user_query);
      mk_message (lit "user")
        (lit "Debate transcript so far:" ++ [10%N; 10%N]
         ++ build_transcript (e :: entries)) ].
Proof. reflexivity. Qed.

(** C6: when the naive composition fits the limit, [prepare_messages]
    returns it as it is and leaves the whole program state as it was: no
    call to the summarizer or to the window is recorded, and the summarizer,
    whatever it would do (change the state, fail), has not run. *)
Theorem C6_happy_path_untouched {W : Type} (system_prompt user_query : pystr)
    (transcript_entries : list entry_dict) (context_limit : Z) (strategy : pystr)
    (summary_func : option (list message -> M W optional_str)) (s : state W) :
  estimate_messages_tokens
    (naive_composition system_prompt user_query transcript_entries) <= context_limit ->
  prepare_messages system_prompt user_query transcript_entries context_limit
    strategy summary_func s
  = (Ret (naive_composition system_prompt user_query transcript_entries), s).
Proof.
  intros Hfit. apply Z.leb_le in Hfit. unfold prepare_messages.
  destruct transcript_entries as [|e entries].
  - change (estimate_messages_tokens
              [ mk_message (lit "system") system_prompt;
                mk_message (lit "user") (lit "User Query: " ++ user_query) ])
      with (estimate_messages_tokens (naive_composition system_prompt user_query [])).
    rewrite Hfit. reflexivity.
  - change (estimate_messages_tokens (_ ++ [_]))
      with (estimate_messages_tokens
              (naive_composition system_prompt user_query (e :: entries))).
    rewrite Hfit. reflexivity.
Qed.

Lemma C6_happy_path_witness :
  prepare_messages (lit "Argue.") (lit "why?") [sample_entry] 4096 (lit "summary")
    (Some failing_summary) fresh
  = (Ret (naive_composition (lit "Argue.") (lit "why?") [sample_entry]), fresh).
Proof.
  apply (C6_happy_path_untouched (lit "Argue.") (lit "why?") [sample_entry] 4096
           (lit "summary") (Some failing_summary) fresh).
  vm_compute. discriminate.
Defined.

(** Past the limit the budgeter does run, and the record shows it (for a
    summarizer that does not touch the record itself). *)
Lemma prepare_messages_overflow_calls {W : Type} (system_prompt user_query : pystr)
    (transcript_entries : list entry_dict) (context_limit : Z) (strategy : pystr)
    (summary_func : option (list message -> M W optional_str)) (s : state W) :
  (forall f, summary_func = Some f ->
     forall msgs s0, calls (snd (f msgs s0)) = calls s0) ->
  context_limit <
    estimate_messages_tokens
      (naive_composition system_prompt user_query transcript_entries) ->
  exists c rest,
    calls (snd (prepare_messages system_prompt user_query transcript_entries
                  context_limit strategy summary_func s))
    = calls s ++ c :: rest.
Proof.
  intros Hkeep Hover. apply Z.leb_gt in Hover. unfold prepare_messages.
  assert (Hover' :
    (estimate_messages_tokens
       (match transcript_entries with
        | [] => [ mk_message (lit "system") system_prompt;
                  mk_message (lit "user") (lit "User Query: " ++ user_query) ]
        | _ :: _ =>
            [ mk_message (lit "system") system_prompt;
              mk_message (lit "user") (lit "User Query: " ++ user_query) ]
            ++ [ mk_message (lit "user")
                   (lit "Debate transcript so far:" ++ [10%N; 10%N]
                    ++ build_transcript transcript_entries) ]
        end) <=? context_limit) = false).
  { destruct transcript_entries; exact Hover. }
  rewrite Hover'. clear Hover' Hover.
  destruct (if bool_decide (strategy = lit "summary") then summary_func else None)
    as [f|] eqn:Hsel.
  - assert (Hf : summary_func = Some f).
    { destruct (bool_decide _); [exact Hsel | discriminate]. }
    specialize (Hkeep f Hf).
    unfold summarize_transcript, bind, try_except, log_call, ret. cbn [world engine calls].
    match goal with
    | |- context [f ?pm ?s0] =>
        pose proof (Hkeep pm s0) as Hcalls; destruct (f pm s0) as [[summary|e] s1]
    end; cbn [snd calls] in Hcalls |- *.
    + destruct (_ <=? _); cbn [snd calls].
      * rewrite Hcalls, <- app_assoc. eexists _, _. reflexivity.
      * rewrite Hcalls, <- !app_assoc. eexists _, _. reflexivity.
    + destruct (_ >? _); destruct (_ <=? _); cbn [snd calls];
        rewrite Hcalls, <- ?app_assoc; eexists _, _; reflexivity.
  - unfold bind, log_call, ret. cbn [snd calls].
    eexists _, _. reflexivity.
Qed.

Lemma returned_inj {A S : Type} (a b : A) (x y : S) :
  (Ret a, x) = (Ret b, y) -> a = b.
Proof. congruence. Qed.

(** Whatever path the composition takes, what it hands out begins with the
    system fragment of the given prompt and the fragment framing the query. *)
Lemma prepare_messages_begins {W : Type} (system_prompt user_query : pystr)
    (transcript_entries : list entry_dict) (context_limit : Z) (strategy : pystr)
    (summary_func : option (list message -> M W optional_str)) (s s' : state W)
    (messages : list message) :
  prepare_messages system_prompt user_query transcript_entries context_limit
    strategy summary_func s = (Ret messages, s') ->
  take 2 messages
  = [ mk_message (lit "system") system_prompt;
      mk_message (lit "user") (lit "User Query: " ++ user_query) ].
Proof.
  unfold prepare_messages.
  set (two := [ mk_message (lit "system") system_prompt;
                mk_message (lit "user") (lit "User Query: " ++ user_query) ]).
  destruct (_ <=? _).
  - intros H. apply returned_inj in H. subst messages.
    destruct transcript_entries; reflexivity.
  - destruct (if bool_decide _ then _ else _) as [f|].
    + unfold bind, log_call, ret.
      destruct (summarize_transcript _ _ _ _) as [[summary|e] s1]; [|discriminate].
      destruct (_ <=? _); intros H; apply returned_inj in H; subst messages.
      * reflexivity.
      * rewrite sliding_window_take by (subst two; cbn [length]; lia). reflexivity.
    + unfold bind, log_call, ret. intros H. apply returned_inj in H. subst messages.
      rewrite sliding_window_take
        by (subst two; destruct transcript_entries; cbn [length app]; lia).
      destruct transcript_entries; reflexivity.
Qed.

(** ** The fallback of the summarizer *)

Lemma slice_from_tail {A} (l : list A) (n : Z) :
  0 < n -> slice_from l (- n) = drop (length l - Z.to_nat n) l.
Proof.
  intros Hn. unfold slice_from.
  destruct (- n <? 0) eqn:E; [|apply Z.ltb_ge in E; lia].
  f_equal. lia.
Qed.

(** C7, as the code has it: when the call of the summarizer raises (in the
    state in which it is made, after the call is recorded),
    [summarize_transcript] raises nothing and returns, for a rendered
    transcript longer than [limit * 4] characters, its last [limit * 4]
    characters prefixed with the marker, and otherwise the rendered
    transcript as it is, with no marker; in both cases at most
    [limit * 4] characters plus the length of the marker. *)
Theorem C7_summary_fallback {W : Type} (entries : list entry_dict)
    (summary_func : list message -> M W optional_str) (limit : Z) (s : state W) :
  1 <= limit ->
  (exists e s1,
     summary_func (summary_prompt_messages (build_transcript entries))
       (snd (log_call
               (CallSummaryFunc (summary_prompt_messages (build_transcript entries)))
               s))
     = (Raise e, s1)) ->
  let full := build_transcript entries in
  exists text : pystr,
    fst (summarize_transcript entries summary_func limit s) = Ret (Some text)
    /\ (limit * 4 < Z.of_nat (length full) -> text = spec_fallback full limit)
    /\ (Z.of_nat (length full) <= limit * 4 -> text = full)
    /\ Z.of_nat (length text) <= limit * 4 + Z.of_nat (length TRUNCATION_MARKER).
Proof.
  intros Hlimit (e & s1 & Hfail). cbv zeta.
  unfold log_call in Hfail. cbn [snd] in Hfail.
  unfold summarize_transcript, try_except, bind, log_call. rewrite Hfail.
  set (full := build_transcript entries).
  unfold CHARS_PER_TOKEN.
  destruct (Z.of_nat (length full) >? limit * 4) eqn:Hlong.
  - apply Z.gtb_lt in Hlong.
    exists (TRUNCATION_MARKER ++ slice_from full (- (limit * 4))).
    rewrite slice_from_tail by lia.
    split; [reflexivity|]. split; [reflexivity|]. split; [lia|].
    rewrite length_app, length_drop. lia.
  - assert (Hshort : Z.of_nat (length full) <= limit * 4).
    { destruct (Z.gtb_spec (Z.of_nat (length full)) (limit * 4)); [discriminate | lia]. }
    exists full. split; [reflexivity|]. split; [lia|]. split; [reflexivity|]. lia.
Qed.

Lemma C7_summary_fallback_witness :
  exists text : pystr,
    fst (summarize_transcript [sample_entry] failing_summary 1 fresh) = Ret (Some text)
    /\ (1 * 4 < Z.of_nat (length (build_transcript [sample_entry])) ->
        text = spec_fallback (build_transcript [sample_entry]) 1)
    /\ (Z.of_nat (length (build_transcript [sample_entry])) <= 1 * 4 ->
        text = build_transcript [sample_entry])
    /\ Z.of_nat (length text) <= 1 * 4 + Z.of_nat (length TRUNCATION_MARKER).
Proof.
  apply (C7_summary_fallback [sample_entry] failing_summary 1 fresh).
  - lia.
  - eexists _, _. reflexivity.
Defined.

(** C7, as the specification words it, fails on a transcript that fits:
    with room for 400 characters, the rendered transcript of 25 characters
    comes back as it is, not prefixed with the marker. *)
Lemma C7_marker_counterexample :
  fst (summarize_transcript [sample_entry] failing_summary 100 fresh)
  = Ret (Some (build_transcript [sample_entry]))
  /\ Ret (Some (build_transcript [sample_entry]))
     <> Ret (Some (spec_fallback (build_transcript [sample_entry]) 100)).
Proof. split; [vm_compute; reflexivity | vm_compute; discriminate]. Qed.

(** ** Computations that keep the session and computations that return *)

Section Effects.
Context {W : Type}.

Lemma keeps_ret {A} (a : A) : keeps_session (ret (W:=W) a).
Proof. intros s. reflexivity. Qed.

Lemma keeps_raise {A} (e : exn) : keeps_session (raise (W:=W) (A:=A) e).
Proof. intros s. reflexivity. Qed.

Lemma keeps_log_call (c : call) : keeps_session (log_call (W:=W) c).
Proof. intros s. reflexivity. Qed.

Lemma keeps_bind {A B} (m : M W A) (k : A -> M W B) :
  keeps_session m -> (forall a, keeps_session (k a)) -> keeps_session (bind m k).
Proof.
  intros Hm Hk s. unfold bind. specialize (Hm s).
  destruct (m s) as [[a|e] s']; simpl in *.
  - rewrite Hk. exact Hm.
  - exact Hm.
Qed.

Lemma keeps_try_except {A} (body : M W A) (handler : exn -> M W A) :
  keeps_session body -> (forall e, keeps_session (handler e)) ->
  keeps_session (try_except body handler).
Proof.
  intros Hb Hh s. unfold try_except. specialize (Hb s).
  destruct (body s) as [[a|e] s']; simpl in *.
  - exact Hb.
  - rewrite Hh. exact Hb.
Qed.

Lemma keeps_with_world {A} (f : W -> result A * W) :
  keeps_session (with_world f).
Proof. intros s. unfold with_world. destruct (f (world s)). reflexivity. Qed.

Lemma never_ret {A} (a : A) : never_raises (ret (W:=W) a).
Proof. intros s. exists a. reflexivity. Qed.

Lemma never_log_call (c : call) : never_raises (log_call (W:=W) c).
Proof. intros s. exists tt. reflexivity. Qed.

Lemma never_bind {A B} (m : M W A) (k : A -> M W B) :
  never_raises m -> (forall a, never_raises (k a)) -> never_raises (bind m k).
Proof.
  intros Hm Hk s. unfold bind. destruct (Hm s) as [a Ha].
  destruct (m s) as [[a'|e] s']; simpl in Ha; [|discriminate].
  apply Hk.
Qed.

(** A handler that returns makes the whole [try] return, whatever its body
    does. *)
Lemma never_try_except {A} (body : M W A) (handler : exn -> M W A) :
  (forall e, never_raises (handler e)) -> never_raises (try_except body handler).
Proof.
  intros Hh s. unfold try_except.
  destruct (body s) as [[a|e] s']; [exists a; reflexivity | apply Hh].
Qed.

(** Both together: the computation returns a value in a state with the
    same session. *)
Lemma quiet_run {A} (m : M W A) :
  keeps_session m -> never_raises m ->
  forall s, exists a s', m s = (Ret a, s') /\ engine s' = engine s.
Proof.
  intros Hk Hn s. destruct (Hn s) as [a Ha]. specialize (Hk s).
  destruct (m s) as [r s']; simpl in *. subst r. eauto.
Qed.

End Effects.

Create HintDb quiet.
#[export] Hint Resolve keeps_ret keeps_raise keeps_log_call keeps_bind
  keeps_try_except keeps_with_world : quiet.
#[export] Hint Resolve never_ret never_log_call never_bind never_try_except : quiet.

(** One step of a sequence of binds whose first computation is known to
    return: [H] is the equation of its run. *)
Ltac step_with H := unfold bind at 1; rewrite H.

(** ** The model invocation port *)

Section Port.
Context {W : Type} (ollama : backend W).

Lemma chat_sync_keeps (model : pystr) (messages : list message) (ctx : Z) :
  keeps_session (chat_sync ollama model messages ctx).
Proof. unfold chat_sync, ollama_chat. auto with quiet. Qed.

Lemma chat_sync_never_raises (model : pystr) (messages : list message) (ctx : Z) :
  never_raises (chat_sync ollama model messages ctx).
Proof. unfold chat_sync. auto with quiet. Qed.

Lemma chat_sync_failure (model : pystr) (messages : list message) (ctx : Z)
    (s : state W) (e : exn) (w : W) :
  chat ollama model messages ctx (world s) = (Raise e, w) ->
  fst (chat_sync ollama model messages ctx s) = Ret (Some (sync_error model e)).
Proof.
  intros Hfail. unfold chat_sync, try_except, bind, ollama_chat, with_world.
  rewrite Hfail. reflexivity.
Qed.

Lemma chat_sync_success (model : pystr) (messages : list message) (ctx : Z)
    (s : state W) (resp : response) (w : W) :
  chat ollama model messages ctx (world s) = (Ret resp, w) ->
  fst (chat_sync ollama model messages ctx s) = Ret (response_content resp).
Proof.
  intros Hok. unfold chat_sync, try_except, bind, ollama_chat, with_world.
  rewrite Hok. reflexivity.
Qed.

(** What [chat_stream] yields, by the behaviour of the server. *)
Lemma chat_stream_cases (model : pystr) (messages : list message) (ctx : Z)
    (s : state W) :
  match chat_iter ollama model messages ctx (world s) with
  | (Ret (chunks, None), _) =>
      fst (chat_stream ollama model messages ctx s)
      = {| yielded := stream_tokens chunks; propagated := None |}
  | (Ret (chunks, Some e), _) =>
      fst (chat_stream ollama model messages ctx s)
      = {| yielded := stream_tokens chunks ++ [stream_error model e];
           propagated := None |}
  | (Raise e, _) =>
      fst (chat_stream ollama model messages ctx s)
      = {| yielded := [stream_error model e]; propagated := None |}
  end
  /\ engine (snd (chat_stream ollama model messages ctx s)) = engine s.
Proof.
  unfold chat_stream, gen_try_except, chat_stream_body, with_world, gen_yield.
  destruct (chat_iter ollama model messages ctx (world s))
    as [[[chunks [e|]]|e] w]; split; reflexivity.
Qed.

Lemma chat_stream_never_propagates (model : pystr) (messages : list message)
    (ctx : Z) (s : state W) :
  propagated (fst (chat_stream ollama model messages ctx s)) = None.
Proof.
  destruct (chat_stream_cases model messages ctx s) as [H _].
  destruct (chat_iter ollama model messages ctx (world s))
    as [[[chunks [e|]]|e] w]; rewrite H; reflexivity.
Qed.

Lemma collect_chat_stream_keeps (model : pystr) (messages : list message) (ctx : Z) :
  keeps_session (collect (chat_stream ollama model messages ctx)).
Proof.
  intros s. unfold collect.
  destruct (chat_stream_cases model messages ctx s) as [_ H].
  destruct (chat_stream ollama model messages ctx s) as [[ys [e|]] s']; exact H.
Qed.

Lemma collect_chat_stream_never_raises (model : pystr) (messages : list message)
    (ctx : Z) :
  never_raises (collect (chat_stream ollama model messages ctx)).
Proof.
  intros s. unfold collect.
  pose proof (chat_stream_never_propagates model messages ctx s) as H.
  destruct (chat_stream ollama model messages ctx s) as [[ys [e|]] s'];
    simpl in H; [discriminate|]. exists ys. reflexivity.
Qed.

End Port.

(** ** Turns *)

Section Turns.
Context (db : unicode_db) {W : Type} (ollama : backend W) (term : host W).
Context (config : ConfigManager).

Lemma console_print_ok (text : pystr) (s : state W) :
  render term text = None -> console_print term text s = (Ret tt, s).
Proof. intros H. unfold console_print. rewrite H. reflexivity. Qed.

Lemma console_print_fault (text : pystr) (e : exn) (s : state W) :
  render term text = Some e -> console_print term text s = (Raise e, s).
Proof. intros H. unfold console_print. rewrite H. reflexivity. Qed.

Lemma keeps_console_print (text : pystr) : keeps_session (console_print term text).
Proof. intros s. unfold console_print. destruct (render term text); reflexivity. Qed.

Lemma for_each_prints {A} (xs : list A) (line : A -> pystr) (s : state W) :
  (forall x, x ∈ xs -> render term (line x) = None) ->
  for_each xs (fun x => console_print term (line x)) s = (Ret tt, s).
Proof.
  induction xs as [|x xs IH]; intros Hxs; [reflexivity|].
  cbn [for_each]. unfold bind.
  rewrite console_print_ok by (apply Hxs; left).
  apply IH. intros y Hy. apply Hxs. right. exact Hy.
Qed.

Lemma generate_keeps (model : pystr) (messages : list message) (rnd : Z)
    (stream : bool) (agent_idx : Z) (is_synthesis is_skeptic : bool) :
  keeps_session
    (_generate ollama term config model messages rnd stream agent_idx
       is_synthesis is_skeptic).
Proof.
  unfold _generate. apply keeps_bind; [apply keeps_console_print | intros _].
  destruct stream.
  - unfold _stream_generate. auto using collect_chat_stream_keeps with quiet.
  - apply keeps_bind; [apply chat_sync_keeps | intros content].
    apply keeps_bind; [|intros; apply keeps_ret].
    destruct content; [apply keeps_console_print | apply keeps_ret].
Qed.

(** In streaming mode the content is the concatenation of what
    [chat_stream] yielded. *)
Lemma stream_generate_joins (model : pystr) (messages : list message) (s : state W) :
  fst (_stream_generate ollama config model messages s)
  = Ret (concat (yielded (fst (chat_stream ollama model messages
                                 (context_limit config) s)))).
Proof.
  unfold _stream_generate, bind, collect.
  pose proof (chat_stream_never_propagates ollama model messages
                (context_limit config) s) as H.
  destruct (chat_stream ollama model messages (context_limit config) s)
    as [[ys [e|]] s']; simpl in H; [discriminate|]. reflexivity.
Qed.

Lemma stream_generate_returns (model : pystr) (messages : list message) (s : state W) :
  exists text s',
    _stream_generate ollama config model messages s = (Ret text, s')
    /\ engine s' = engine s.
Proof.
  apply quiet_run; unfold _stream_generate.
  - auto using collect_chat_stream_keeps with quiet.
  - auto using collect_chat_stream_never_raises with quiet.
Qed.

(** [_generate] returns when the console renders the title of the panel
    and, if the answer is not streamed, the answer. *)
Lemma generate_returns (model : pystr) (messages : list message) (rnd : Z)
    (agent_idx : Z) (is_synthesis is_skeptic : bool) (s : state W) :
  render term (panel_title model rnd agent_idx is_synthesis is_skeptic) = None ->
  (stream_output config = false ->
   forall text,
     fst (chat_sync ollama model messages (context_limit config) s) = Ret (Some text) ->
     render term text = None) ->
  exists content s',
    _generate ollama term config model messages rnd (stream_output config)
      agent_idx is_synthesis is_skeptic s
    = (Ret content, s')
    /\ engine s' = engine s.
Proof.
  intros Htitle Hanswer. unfold _generate.
  unfold bind at 1. rewrite console_print_ok by exact Htitle.
  destruct (stream_output config) eqn:Hstream.
  - destruct (stream_generate_returns model messages s) as (text & s' & Hgen & He).
    exists (Some text), s'. unfold bind. rewrite Hgen. auto.
  - destruct (quiet_run _ (chat_sync_keeps ollama model messages (context_limit config))
                (chat_sync_never_raises ollama model messages (context_limit config)) s)
      as (content & s' & Hsync & He).
    exists content, s'. unfold bind at 1. rewrite Hsync.
    split; [|exact He]. unfold bind.
    destruct content as [text|]; [|reflexivity].
    rewrite console_print_ok; [reflexivity|].
    apply Hanswer; [reflexivity|]. rewrite Hsync. reflexivity.
Qed.

Lemma summarize_transcript_never_raises (entries : list entry_dict)
    (summary_func : list message -> M W optional_str) (limit : Z) :
  never_raises (summarize_transcript entries summary_func limit).
Proof.
  apply never_try_except. intros e. cbv beta zeta.
  destruct (_ >? _); apply never_ret.
Qed.

Lemma summarize_transcript_keeps (entries : list entry_dict)
    (summary_func : list message -> M W optional_str) (limit : Z) :
  (forall msgs, keeps_session (summary_func msgs)) ->
  keeps_session (summarize_transcript entries summary_func limit).
Proof.
  intros Hf. apply keeps_try_except.
  - apply keeps_bind; [apply keeps_log_call | intros _].
    apply keeps_bind; [apply Hf | intros; apply keeps_ret].
  - intros e. cbv beta zeta. destruct (_ >? _); apply keeps_ret.
Qed.

Lemma prepare_messages_never_raises (system_prompt user_query : pystr)
    (entries : list entry_dict) (limit : Z) (strategy : pystr)
    (summary_func : option (list message -> M W optional_str)) :
  never_raises
    (prepare_messages system_prompt user_query entries limit strategy summary_func).
Proof.
  unfold prepare_messages.
  destruct (_ <=? _); [apply never_ret|].
  destruct (if bool_decide _ then _ else _) as [f|].
  - apply never_bind; [apply never_log_call | intros _].
    apply never_bind; [apply summarize_transcript_never_raises | intros summary].
    destruct (_ <=? _); [apply never_ret|].
    apply never_bind; [apply never_log_call | intros; apply never_ret].
  - apply never_bind; [apply never_log_call | intros; apply never_ret].
Qed.

Lemma prepare_messages_keeps (system_prompt user_query : pystr)
    (entries : list entry_dict) (limit : Z) (strategy : pystr)
    (summary_func : option (list message -> M W optional_str)) :
  (forall f, summary_func = Some f -> forall msgs, keeps_session (f msgs)) ->
  keeps_session
    (prepare_messages system_prompt user_query entries limit strategy summary_func).
Proof.
  intros Hf. unfold prepare_messages.
  destruct (_ <=? _); [apply keeps_ret|].
  destruct (if bool_decide _ then _ else _) as [f|] eqn:Hsel.
  - assert (Hsome : summary_func = Some f).
    { destruct (bool_decide _); [exact Hsel | discriminate]. }
    apply keeps_bind; [apply keeps_log_call | intros _].
    apply keeps_bind; [apply summarize_transcript_keeps, (Hf f Hsome) | intros summary].
    destruct (_ <=? _); [apply keeps_ret|].
    apply keeps_bind; [apply keeps_log_call | intros; apply keeps_ret].
  - apply keeps_bind; [apply keeps_log_call | intros; apply keeps_ret].
Qed.

Lemma make_summary_func_keeps (f : list message -> M W optional_str) :
  _make_summary_func ollama config = Some f ->
  forall msgs, keeps_session (f msgs).
Proof.
  unfold _make_summary_func. intros Hf msgs.
  destruct (match summary_model config with
            | Some (c :: m) => Some (c :: m)
            | _ => head (models config)
            end) as [sm|]; [|discriminate].
  injection Hf as <-. apply chat_sync_keeps.
Qed.

(** The messages of a turn are composed without touching the session and
    without raising, whatever the limit, the strategy and the server. *)
Lemma compose_quiet (system_prompt user_query : pystr) (entries : list entry_dict)
    (s : state W) :
  exists messages s',
    prepare_messages system_prompt user_query entries (context_limit config)
      (context_strategy config) (_make_summary_func ollama config) s
    = (Ret messages, s')
    /\ engine s' = engine s.
Proof.
  apply quiet_run.
  - apply prepare_messages_keeps. apply make_summary_func_keeps.
  - apply prepare_messages_never_raises.
Qed.

Lemma py_index_valid {A} (l : list A) (i : Z) (x : A) (s : state W) :
  0 <= i -> l !! Z.to_nat i = Some x -> py_index l i s = (Ret x, s).
Proof.
  intros Hi Hx. unfold py_index.
  destruct (i <? 0) eqn:E; [apply Z.ltb_lt in E; lia|].
  rewrite E, Hx. reflexivity.
Qed.

(** A turn, whatever the console does: the model of the agent is looked up,
    the messages are composed from the transcript so far, and the rest of
    the turn is [_generate] on them followed by the new entry. *)
Lemma debate_turn_steps (query lang_note : pystr) (rnd idx : Z) (m : pystr)
    (s : state W) :
  0 <= idx -> models config !! Z.to_nat idx = Some m ->
  exists messages s1,
    prepare_messages (turn_prompt config rnd idx ++ lang_note) query
      (as_dict <$> transcript (engine s)) (context_limit config)
      (context_strategy config) (_make_summary_func ollama config) s
    = (Ret messages, s1)
    /\ engine s1 = engine s
    /\ debate_turn ollama term config query lang_note rnd idx s
       = bind (_generate ollama term config m messages rnd (stream_output config)
                 idx false (is_this_skeptic config idx))
           (fun content =>
              append_entry {| model := m; round_num := rnd; content := content |})
           s1.
Proof.
  intros Hidx Hm.
  destruct (compose_quiet (turn_prompt config rnd idx ++ lang_note) query
              (as_dict <$> transcript (engine s)) s) as (messages & s1 & Hprep & He1).
  exists messages, s1. split; [exact Hprep|]. split; [exact He1|].
  unfold debate_turn. step_with (py_index_valid (models config) idx m s Hidx Hm).
  unfold bind at 1, get_transcript. step_with Hprep. reflexivity.
Qed.

(** One turn of the debate at a valid agent index, when the console renders
    the title of its panel and its answer: it returns, and the transcript
    has one more entry, of that agent's model and of the round, whose
    content is what [_generate] returned for the composed messages. *)
Lemma debate_turn_appends (query lang_note : pystr) (rnd idx : Z) (m : pystr)
    (s : state W) :
  0 <= idx -> models config !! Z.to_nat idx = Some m ->
  render term (turn_title config rnd idx m) = None ->
  answers_render ollama term config ->
  exists messages s1 c s2,
    prepare_messages (turn_prompt config rnd idx ++ lang_note) query
      (as_dict <$> transcript (engine s)) (context_limit config)
      (context_strategy config) (_make_summary_func ollama config) s
    = (Ret messages, s1)
    /\ _generate ollama term config m messages rnd (stream_output config)
         idx false (is_this_skeptic config idx) s1
       = (Ret c, s2)
    /\ debate_turn ollama term config query lang_note rnd idx s
       = (Ret tt,
          {| world := world s2;
             engine := {| transcript := transcript (engine s)
                            ++ [{| model := m; round_num := rnd; content := c |}];
                          user_query := user_query (engine s) |};
             calls := calls s2 |}).
Proof.
  intros Hidx Hm Htitle Hanswers.
  destruct (debate_turn_steps query lang_note rnd idx m s Hidx Hm)
    as (messages & s1 & Hprep & He1 & Hturn).
  destruct (generate_returns m messages rnd idx false (is_this_skeptic config idx) s1
              Htitle) as (c & s2 & Hgen & He2).
  { intros Hstream text Hsync.
    apply (Hanswers Hstream m messages s1 text); [|exact Hsync].
    eapply list_elem_of_lookup_2. exact Hm. }
  exists messages, s1, c, s2. split; [exact Hprep|]. split; [exact Hgen|].
  rewrite Hturn. unfold bind. rewrite Hgen.
  unfold append_entry, update_engine. rewrite He2, He1. reflexivity.
Qed.


(** The prompt of the role is the one the model receives: the messages of
    the turn begin with the system fragment of [turn_prompt] followed by the
    language note. *)
Lemma debate_turn_sends_prompt (query lang_note : pystr) (rnd idx : Z) (m : pystr)
    (s : state W) :
  0 <= idx -> models config !! Z.to_nat idx = Some m ->
  exists messages s1,
    messages !! 0%nat
    = Some (mk_message (lit "system") (turn_prompt config rnd idx ++ lang_note))
    /\ debate_turn ollama term config query lang_note rnd idx s
       = bind (_generate ollama term config m messages rnd (stream_output config)
                 idx false (is_this_skeptic config idx))
           (fun content =>
              append_entry {| model := m; round_num := rnd; content := content |})
           s1.
Proof.
  intros Hidx Hm.
  destruct (debate_turn_steps query lang_note rnd idx m s Hidx Hm)
    as (messages & s1 & Hprep & _ & Hturn).
  exists messages, s1. split; [|exact Hturn].
  apply prepare_messages_begins in Hprep.
  destruct messages as [|m0 [|m1 messages]]; try discriminate.
  injection Hprep as -> _. reflexivity.
Qed.

End Turns.

(** ** What the console has to render *)

Section Ready.
Context {W : Type} (ollama : backend W) (term : host W).
Context (config : ConfigManager) (query : pystr).
Hypothesis ready : console_ready ollama term config query.

Lemma ready_query : render term (query_line query) = None.
Proof.
  destruct ready as [Hlines _]. unfold run_lines in Hlines.
  apply Forall_cons in Hlines as [H _]. exact H.
Qed.

Lemma ready_agents (x : Z * pystr) :
  x ∈ imap (fun i m => (Z.of_nat i, m)) (slice_to (models config) (instances config)) ->
  render term (agent_line config (fst x) (snd x)) = None.
Proof.
  intros Hx. destruct ready as [Hlines _]. unfold run_lines in Hlines.
  apply Forall_cons in Hlines as [_ Hlines].
  apply Forall_app in Hlines as [Hagents _].
  rewrite Forall_forall in Hagents. apply Hagents.
  apply list_elem_of_lookup in Hx as [i Hi].
  rewrite list_lookup_imap in Hi.
  destruct (slice_to (models config) (instances config) !! i) as [m|] eqn:Em;
    [|discriminate].
  cbn in Hi. apply (inj Some) in Hi. subst x. cbn [fst snd].
  apply (list_elem_of_lookup_2 _ i). rewrite list_lookup_imap, Em. reflexivity.
Qed.





End Ready.

(** ** Loops and the whole run *)

Section Run.
Context (db : unicode_db) {W : Type} (config : ConfigManager).





Context (ollama : backend W) (term : host W).

(** The header of the run, when the console renders it. *)
Lemma header_shown (query : pystr) (s : state W) :
  console_ready ollama term config query ->
  bind (console_print term (query_line query))
    (fun _ => show_agents term config) s
  = (Ret tt, s).
Proof.
  intros Hready. unfold bind.
  rewrite console_print_ok by (eapply ready_query; exact Hready).
  unfold show_agents.
  rewrite (for_each_prints term _
             (fun x : Z * pystr => agent_line config (fst x) (snd x))).
  - reflexivity.
  - intros x Hx. eapply ready_agents; eassumption.
Qed.






End Run.

(** ** The structure of the transcript *)




Section Shape.
Variable config : ConfigManager.
Hypothesis enough_models : instances config <= Z.of_nat (length (models config)).





End Shape.









(** ** Roles and prompt variants *)

Lemma role_test (config : ConfigManager) (idx : Z) :
  is_this_skeptic config idx = true
  <-> skeptic_agent config = true /\ instances config > 1 /\ idx = instances config - 1.
Proof.
  unfold is_this_skeptic. cbv zeta.
  rewrite !andb_true_iff, Z.gtb_gt, Z.eqb_eq. tauto.
Qed.

Lemma role_spec (config : ConfigManager) (idx : Z) :
  spec_role config idx = if is_this_skeptic config idx then Skeptic else Debater.
Proof.
  unfold spec_role. pose proof (role_test config idx) as H.
  destruct (is_this_skeptic config idx).
  - rewrite bool_decide_eq_true_2 by (apply H; reflexivity). reflexivity.
  - rewrite bool_decide_eq_false_2; [reflexivity|].
    intros Hs. apply H in Hs. discriminate.
Qed.

Lemma turn_prompt_variant (config : ConfigManager) (rnd idx : Z) :
  turn_prompt config rnd idx
  = variant_text (system_prompts config)
      (spec_variant (spec_role config idx) (bool_decide (rnd = 1))).
Proof.
  rewrite role_spec. unfold turn_prompt, select_prompt, prompts_get.
  assert (Hfirst : (rnd =? 1) = bool_decide (rnd = 1)).
  { destruct (Z.eqb_spec rnd 1).
    - rewrite bool_decide_eq_true_2 by assumption. reflexivity.
    - rewrite bool_decide_eq_false_2 by assumption. reflexivity. }
  rewrite Hfirst.
  destruct (is_this_skeptic config idx); destruct (bool_decide (rnd = 1));
    cbn [andb spec_variant variant_text];
    repeat match goal with
           | |- context [system_prompts config !! ?k] =>
               destruct (system_prompts config !! k); cbn [default]
           end; reflexivity.
Qed.

(** C2: the agent of index [idx] is the skeptic exactly when the skeptic
    setting is on, there is more than one agent, and [idx] is the last
    index; with the setting off no agent is; every other agent is a debater,
    in every round.  The prompt of the turn is the text the configuration
    holds for the variant given by the role and by whether the round is the
    first, and it is what the turn of [run] sends: the messages composed for
    the turn of agent [idx] in round [rnd] begin with the system fragment
    made of that text and the language note, and the agent's model is
    called on these messages. *)
Theorem C2_role_assignment {W : Type} (ollama : backend W) (term : host W)
    (config : ConfigManager) (query lang_note : pystr) (rnd idx : Z) (s : state W) :
  (is_this_skeptic config idx = true
   <-> skeptic_agent config = true
       /\ instances config > 1
       /\ idx = instances config - 1)
  /\ (skeptic_agent config = false -> is_this_skeptic config idx = false)
  /\ spec_role config idx = (if is_this_skeptic config idx then Skeptic else Debater)
  /\ turn_prompt config rnd idx
     = variant_text (system_prompts config)
         (spec_variant (spec_role config idx) (bool_decide (rnd = 1)))
  /\ (forall m : pystr,
        0 <= idx -> models config !! Z.to_nat idx = Some m ->
        exists messages s1,
          messages !! 0%nat
          = Some (mk_message (lit "system")
                    (variant_text (system_prompts config)
                       (spec_variant (spec_role config idx) (bool_decide (rnd = 1)))
                     ++ lang_note))
          /\ debate_turn ollama term config query lang_note rnd idx s
             = bind (_generate ollama term config m messages rnd (stream_output config)
                       idx false (is_this_skeptic config idx))
                 (fun content =>
                    append_entry {| model := m; round_num := rnd; content := content |})
                 s1).
Proof.
  split; [apply role_test|]. split.
  { intros Hoff. unfold is_this_skeptic. cbv zeta. rewrite Hoff. reflexivity. }
  split; [apply role_spec|]. split; [apply turn_prompt_variant|].
  intros m Hidx Hm. rewrite <- turn_prompt_variant.
  apply debate_turn_sends_prompt; assumption.
Qed.

Lemma C2_role_assignment_witness :
  is_this_skeptic (four_agents_config true) 3 = true
  /\ is_this_skeptic (four_agents_config false) 3 = false
  /\ exists messages s1,
       messages !! 0%nat
       = Some (mk_message (lit "system") (lit "Doubt the question." ++ lit " Be brief."))
       /\ debate_turn parrot tagged (four_agents_config true) (lit "why?")
            (lit " Be brief.") 1 3 fresh
          = bind (_generate parrot tagged (four_agents_config true) (lit "phi3")
                    messages 1 true 3 false true)
              (fun content =>
                 append_entry {| model := lit "phi3"; round_num := 1;
                                 content := content |})
              s1.
Proof.
  split; [|split].
  - apply (C2_role_assignment parrot tagged (four_agents_config true)
             (lit "why?") (lit " Be brief.") 1 3 fresh).
    split; [reflexivity | split; reflexivity].
  - apply (C2_role_assignment parrot tagged (four_agents_config false)
             (lit "why?") (lit " Be brief.") 1 3 fresh).
    reflexivity.
  - destruct (C2_role_assignment parrot tagged (four_agents_config true)
                (lit "why?") (lit " Be brief.") 1 3 fresh)
      as (_ & _ & _ & _ & Hturn).
    apply (Hturn (lit "phi3")); [lia | reflexivity].
Defined.

(** The example of the specification: four agents.  With the setting on the
    last one is the skeptic, and its prompts are the skeptic's, the initial
    one in round 1; the others get the debater's. *)
Example four_agents (enabled : bool) :
  is_this_skeptic (four_agents_config enabled) <$> [0; 1; 2; 3]
  = [false; false; false; enabled]
  /\ turn_prompt (four_agents_config true) 1 <$> [0; 3]
     = [lit "Open."; lit "Doubt the question."]
  /\ turn_prompt (four_agents_config true) 2 <$> [0; 3]
     = [lit "Reply."; lit "Doubt."]
  /\ turn_prompt (four_agents_config false) 2 <$> [0; 3]
     = [lit "Reply."; lit "Reply."].
Proof. destruct enabled; repeat split; vm_compute; reflexivity. Qed.

(** ** Failures of the server *)

Lemma chat_sync_none (W : Type) (ollama : backend W) (model : pystr)
    (messages : list message) (ctx : Z) (s : state W) (resp : response) (w : W) :
  chat ollama model messages ctx (world s) = (Ret resp, w) ->
  default ∅ (resp !! "message"%string) !! "content"%string = Some None ->
  fst (chat_sync ollama model messages ctx s) = Ret None.
Proof.
  intros Hok Hnone. rewrite (chat_sync_success ollama model messages ctx s resp w Hok).
  unfold response_content. rewrite Hnone. reflexivity.
Qed.

(** C8, on the code.  Whatever the server does, [chat_sync] raises nothing
    and [chat_stream] lets no exception out.  When the call raises,
    [chat_sync] returns the diagnostic text, which names the model;
    [chat_stream] yields the diagnostic fragment, after the tokens it had
    yielded when the stream broke.  A turn whose title and answer the
    console renders appends its entry all the same: with a server that
    refuses the call, the content of the entry is the diagnostic text.
    But what [chat_sync] returns for an answered call is the content field
    of the answer, and it is [None], not a string, when the answer carries
    the field set to [None]: so it is for the server of the samples that
    answers without a content. *)
Theorem C8_port_never_faults {W : Type} (ollama : backend W) (term : host W)
    (config : ConfigManager) (model : pystr) (messages : list message)
    (ctx rnd : Z) (s : state W) :
  (exists value, fst (chat_sync ollama model messages ctx s) = Ret value)
  /\ (forall resp w,
        chat ollama model messages ctx (world s) = (Ret resp, w) ->
        fst (chat_sync ollama model messages ctx s) = Ret (response_content resp)
        /\ (default ∅ (resp !! "message"%string) !! "content"%string = Some None ->
            fst (chat_sync ollama model messages ctx s) = Ret None))
  /\ fst (chat_sync mute (lit "llama3.2") [] 4096 fresh) = Ret None
  /\ (forall e w, chat ollama model messages ctx (world s) = (Raise e, w) ->
        fst (chat_sync ollama model messages ctx s) = Ret (Some (sync_error model e))
        /\ exists pre post, sync_error model e = pre ++ model ++ post)
  /\ propagated (fst (chat_stream ollama model messages ctx s)) = None
  /\ (forall e w, chat_iter ollama model messages ctx (world s) = (Raise e, w) ->
        yielded (fst (chat_stream ollama model messages ctx s))
        = [stream_error model e])
  /\ (forall chunks e w,
        chat_iter ollama model messages ctx (world s) = (Ret (chunks, Some e), w) ->
        yielded (fst (chat_stream ollama model messages ctx s))
        = stream_tokens chunks ++ [stream_error model e])
  /\ (forall query lang_note idx,
        0 <= idx -> models config !! Z.to_nat idx = Some model ->
        render term (turn_title config rnd idx model) = None ->
        answers_render ollama term config ->
        exists c s',
          debate_turn ollama term config query lang_note rnd idx s = (Ret tt, s')
          /\ transcript (engine s')
             = transcript (engine s)
               ++ [{| model := model; round_num := rnd; content := c |}]
          /\ (stream_output config = false ->
              forall e,
                (forall msgs w, exists w',
                   chat ollama model msgs (context_limit config) w = (Raise e, w')) ->
                c = Some (sync_error model e))
          /\ (stream_output config = true ->
              forall e,
                (forall msgs w, exists w',
                   chat_iter ollama model msgs (context_limit config) w = (Raise e, w')) ->
                c = Some (stream_error model e))).
Proof.
  split; [apply chat_sync_never_raises|].
  split.
  { intros resp w Hok.
    split; [eapply chat_sync_success; exact Hok | eapply chat_sync_none; exact Hok]. }
  split; [reflexivity|].
  split.
  { intros e w Hfail. split; [eapply chat_sync_failure; exact Hfail|].
    exists (lit "[ERROR] Model "), (lit " failed: " ++ exn_str e). reflexivity. }
  split; [apply chat_stream_never_propagates|].
  pose proof (chat_stream_cases ollama model messages ctx s) as [Hcases _].
  split.
  { intros e w Hfail. rewrite Hfail in Hcases. rewrite Hcases. reflexivity. }
  split.
  { intros chunks e w Hfail. rewrite Hfail in Hcases. rewrite Hcases. reflexivity. }
  intros query lang_note idx Hidx Hmodel Htitle Hanswers.
  destruct (debate_turn_appends ollama term config query lang_note rnd idx model s
              Hidx Hmodel Htitle Hanswers)
    as (msgs & s1 & c & s2 & _ & Hgen & Hturn).
  exists c. eexists. split; [exact Hturn|]. split; [reflexivity|].
  unfold turn_title in Htitle. unfold _generate, bind at 1 in Hgen.
  rewrite (console_print_ok term _ s1 Htitle) in Hgen.
  split.
  - intros Hsync e Hrefuse.
    rewrite Hsync in Hgen.
    destruct (Hrefuse msgs (world s1)) as [w' Hfail].
    pose proof (chat_sync_failure ollama model msgs (context_limit config) s1 e w' Hfail)
      as Herr.
    unfold bind at 1 in Hgen.
    destruct (chat_sync ollama model msgs (context_limit config) s1) as [[text|e'] s1'];
      simpl in Herr; [|discriminate].
    assert (Htext : text = Some (sync_error model e)) by congruence.
    subst text. unfold bind in Hgen.
    destruct (console_print term (sync_error model e) s1') as [[[]|e'] s1''];
      [|discriminate].
    unfold ret in Hgen. congruence.
  - intros Hstream e Hrefuse.
    rewrite Hstream in Hgen. unfold bind in Hgen.
    pose proof (stream_generate_joins ollama config model msgs s1) as Hjoin.
    destruct (_stream_generate ollama config model msgs s1) as [[text|e'] s1'];
      [|discriminate].
    cbn [fst] in Hjoin.
    assert (Htext : text = concat (yielded (fst (chat_stream ollama model msgs
                                                   (context_limit config) s1))))
      by congruence.
    subst text.
    destruct (Hrefuse msgs (world s1)) as [w' Hfail].
    pose proof (chat_stream_cases ollama model msgs (context_limit config) s1)
      as [Hcase _].
    rewrite Hfail in Hcase. rewrite Hcase in Hgen.
    cbn [yielded concat] in Hgen. rewrite app_nil_r in Hgen.
    unfold ret in Hgen. congruence.
Qed.

Lemma C8_port_never_faults_witness :
  exists c s',
    debate_turn refusing tagged sample_config (lit "why?") [] 1 0 fresh = (Ret tt, s')
    /\ transcript (engine s')
       = transcript (engine fresh)
         ++ [{| model := lit "llama3.2"; round_num := 1; content := c |}]
    /\ (stream_output sample_config = false ->
        forall e,
          (forall msgs w, exists w',
             chat refusing (lit "llama3.2") msgs (context_limit sample_config) w
             = (Raise e, w')) ->
          c = Some (sync_error (lit "llama3.2") e))
    /\ (stream_output sample_config = true ->
        forall e,
          (forall msgs w, exists w',
             chat_iter refusing (lit "llama3.2") msgs (context_limit sample_config) w
             = (Raise e, w')) ->
          c = Some (stream_error (lit "llama3.2") e)).
Proof.
  destruct (C8_port_never_faults refusing tagged sample_config (lit "llama3.2") []
              4096 1 fresh) as (_ & _ & _ & _ & _ & _ & _ & Hturn).
  apply (Hturn (lit "why?") [] 0).
  - lia.
  - reflexivity.
  - vm_compute. reflexivity.
  - intros _ m messages s text Hm Hsync.
    assert (Htext : text = sync_error m (Exc "ConnectionError" (lit "connection refused"))).
    { rewrite (chat_sync_failure refusing m messages _ s
                 (Exc "ConnectionError" (lit "connection refused")) (world s) eq_refl)
        in Hsync.
      congruence. }
    subst text.
    apply elem_of_cons in Hm as [->|Hm]; [vm_compute; reflexivity|].
    apply list_elem_of_singleton in Hm as ->. vm_compute. reflexivity.
Defined.

(** ** Language detection *)

Section SameDatabase.
Variables db db' : unicode_db.

Lemma in_class_same (t : N) :
  same_on db db' t -> Re.in_class db t = Re.in_class db' t.
Proof. intros [_ Hlow]. unfold Re.in_class. rewrite Hlow. reflexivity. Qed.

Lemma literal_ignore_same (c t : N) :
  same_on db db' t -> Re.literal_ignore db c t = Re.literal_ignore db' c t.
Proof. intros [_ Hlow]. unfold Re.literal_ignore. rewrite Hlow. reflexivity. Qed.

Lemma is_word_same (o : option N) :
  (forall c, o = Some c -> same_on db db' c) ->
  Re.is_word db o = Re.is_word db' o.
Proof.
  intros Ho. destruct o as [c|]; [|reflexivity].
  destruct (Ho c eq_refl) as [Halnum _]. simpl. rewrite Halnum. reflexivity.
Qed.

Lemma at_boundary_same (prev next : option N) :
  (forall c, prev = Some c -> same_on db db' c) ->
  (forall c, next = Some c -> same_on db db' c) ->
  Re.at_boundary db prev next = Re.at_boundary db' prev next.
Proof.
  intros Hp Hn. unfold Re.at_boundary.
  rewrite (is_word_same prev Hp), (is_word_same next Hn). reflexivity.
Qed.

Lemma match_word_same (w s : pystr) :
  Forall (same_on db db') s -> Re.match_word db w s = Re.match_word db' w s.
Proof.
  revert s. induction w as [|c w IH]; intros s Hs; [reflexivity|].
  destruct s as [|t s]; [reflexivity|].
  apply Forall_cons in Hs as [Ht Hs]. simpl.
  rewrite (literal_ignore_same c t Ht), (IH s Hs). reflexivity.
Qed.

Lemma match_word_split (w s m r : pystr) :
  Re.match_word db w s = Some (m, r) -> s = m ++ r.
Proof.
  revert s m r. induction w as [|c w IH]; intros s m r H.
  - simpl in H. injection H as <- <-. reflexivity.
  - destruct s as [|t s]; [discriminate|]. simpl in H.
    destruct (Re.literal_ignore db c t); [|discriminate].
    destruct (Re.match_word db w s) as [[m' r']|] eqn:E; [|discriminate].
    injection H as <- <-. rewrite (IH s m' r' E). reflexivity.
Qed.

Lemma match_alternative_same (w : pystr) (prev : option N) (s : pystr) :
  Forall (same_on db db') s ->
  (forall c, prev = Some c -> same_on db db' c) ->
  Re.match_alternative db w prev s = Re.match_alternative db' w prev s.
Proof.
  intros Hs Hp. unfold Re.match_alternative.
  rewrite <- (match_word_same w s Hs).
  destruct (Re.match_word db w s) as [[m r]|] eqn:E; [|reflexivity].
  apply match_word_split in E. subst s.
  apply Forall_app in Hs as [Hm Hr].
  rewrite at_boundary_same; [reflexivity | |].
  - intros c Hc. destruct (last m) as [c'|] eqn:El.
    + injection Hc as <-. apply last_Some_elem_of in El.
      rewrite Forall_forall in Hm. auto.
    + auto.
  - intros c Hc. destruct r as [|c' r]; [discriminate|].
    injection Hc as <-. apply Forall_cons in Hr as [Hr _]. exact Hr.
Qed.

Lemma match_words_same (ws : list pystr) (prev : option N) (s : pystr) :
  Forall (same_on db db') s ->
  (forall c, prev = Some c -> same_on db db' c) ->
  Re.match_words db ws prev s = Re.match_words db' ws prev s.
Proof.
  intros Hs Hp. induction ws as [|w ws IH]; [reflexivity|].
  change (Re.match_words db (w :: ws) prev s)
    with (match Re.match_alternative db w prev s with
          | Some found => Some found
          | None => Re.match_words db ws prev s
          end).
  rewrite (match_alternative_same w prev s Hs Hp), IH. reflexivity.
Qed.

Lemma match_at_same (prev : option N) (s : pystr) :
  Forall (same_on db db') s ->
  (forall c, prev = Some c -> same_on db db' c) ->
  Re.match_at db prev s = Re.match_at db' prev s.
Proof.
  intros Hs Hp. destruct s as [|t s]; [reflexivity|].
  pose proof Hs as Hts. apply Forall_cons in Hts as [Ht _].
  unfold Re.match_at.
  rewrite (in_class_same t Ht), (match_words_same _ prev _ Hs Hp).
  rewrite (at_boundary_same prev (head (t :: s)) Hp); [reflexivity|].
  intros c [= <-]. exact Ht.
Qed.

Lemma scan_same (s : pystr) :
  forall (skip : nat) (prev : option N),
  Forall (same_on db db') s ->
  (forall c, prev = Some c -> same_on db db' c) ->
  Re.scan db skip prev s = Re.scan db' skip prev s.
Proof.
  induction s as [|t s IH]; intros skip prev Hs Hp; [reflexivity|].
  pose proof Hs as Hts. apply Forall_cons in Hts as [Ht Hs'].
  assert (Ht' : forall c, Some t = Some c -> same_on db db' c)
    by (intros c [= <-]; exact Ht).
  cbn [Re.scan]. destruct skip as [|k].
  - rewrite (match_at_same prev (t :: s) Hs Hp).
    destruct (Re.match_at db' prev (t :: s)) as [[g n]|];
      rewrite (IH _ _ Hs' Ht'); reflexivity.
  - apply IH; assumption.
Qed.

Lemma findall_same (text : pystr) :
  Forall (same_on db db') text -> Re.findall db text = Re.findall db' text.
Proof. intros H. unfold Re.findall. apply scan_same; [exact H | discriminate]. Qed.

End SameDatabase.

(** *** The pattern and the count of the specification *)

Section Matches.
Variable db : unicode_db.

Lemma in_class_spec (t : N) : Re.in_class db t = spec_diacritic db t.
Proof.
  unfold Re.in_class, spec_diacritic, Re.inb, Re.SPANISH_CLASS, SPEC_DIACRITICS.
  generalize (tolower db t). intros c.
  destruct (bool_decide _) eqn:E.
  - apply bool_decide_eq_true in E. apply existsb_exists.
    exists c. split; [apply list_elem_of_In; exact E | apply N.eqb_refl].
  - apply bool_decide_eq_false in E.
    destruct (existsb _ _) eqn:Ex; [|reflexivity].
    apply existsb_exists in Ex as (x & Hx & Heq). apply N.eqb_eq in Heq. subst x.
    exfalso. apply E. apply list_elem_of_In. exact Hx.
Qed.

Lemma literal_ignore_spec (c t : N) :
  Re.literal_ignore db c t = spec_same_letter db c t.
Proof.
  unfold Re.literal_ignore, spec_same_letter, Re.inb, Re.ignorecase_fixes.
  generalize (tolower db t). intros l.
  destruct (c =? 105)%N eqn:Ei.
  - apply N.eqb_eq in Ei. subst c. change (105 =? 115)%N with false.
    cbn [existsb andb orb].
    destruct (l =? 105)%N, (l =? 305)%N; reflexivity.
  - destruct (c =? 115)%N eqn:Es; cbn [existsb andb orb];
      destruct (l =? c)%N, (l =? 383)%N; reflexivity.
Qed.

Lemma match_word_spec (w : pystr) :
  forall s : pystr,
  Re.match_word db w s
  = if spec_occurs db w s then Some (take (length w) s, drop (length w) s) else None.
Proof.
  induction w as [|c w IH]; intros s; [reflexivity|].
  destruct s as [|t s]; [reflexivity|].
  cbn [Re.match_word spec_occurs length take drop].
  rewrite literal_ignore_spec, IH.
  destruct (spec_same_letter db c t); [|reflexivity].
  destruct (spec_occurs db w s); reflexivity.
Qed.

Lemma match_alternative_spec (w : pystr) (prev : option N) (s : pystr) :
  xorb (spec_word_char db prev) (spec_word_char db (head s)) = true ->
  Re.match_alternative db w prev s
  = if spec_whole_word db prev w s
    then Some (take (length w) s, drop (length w) s) else None.
Proof.
  intros Hstart. unfold Re.match_alternative, spec_whole_word.
  rewrite match_word_spec, Hstart.
  destruct (spec_occurs db w s); [|reflexivity].
  cbn [andb]. reflexivity.
Qed.

Lemma match_words_spec (ws : list pystr) (prev : option N) (s : pystr) :
  xorb (spec_word_char db prev) (spec_word_char db (head s)) = true ->
  Re.match_words db ws prev s
  = match List.find (fun w => spec_whole_word db prev w s) ws with
    | Some w => Some (take (length w) s, drop (length w) s)
    | None => None
    end.
Proof.
  intros Hstart. induction ws as [|w ws IH]; [reflexivity|].
  change (Re.match_words db (w :: ws) prev s)
    with (match Re.match_alternative db w prev s with
          | Some found => Some found
          | None => Re.match_words db ws prev s
          end).
  rewrite (match_alternative_spec w prev s Hstart). cbn [List.find].
  destruct (spec_whole_word db prev w s); [reflexivity | exact IH].
Qed.

Lemma word_here_starts (prev : option N) (s : pystr) (w : pystr) :
  spec_word_here db prev s = Some w ->
  xorb (spec_word_char db prev) (spec_word_char db (head s)) = true
  /\ (length w <= length s)%nat.
Proof.
  intros Hfind. unfold spec_word_here in Hfind.
  apply find_some in Hfind as [_ Hw]. unfold spec_whole_word in Hw.
  apply andb_true_iff in Hw as [Hw _]. apply andb_true_iff in Hw as [Hocc Hstart].
  split; [exact Hstart|].
  clear Hstart. revert s Hocc. induction w as [|c w IH]; intros s Hocc; [simpl; lia|].
  destruct s as [|t s]; [discriminate|]. cbn [spec_occurs] in Hocc.
  apply andb_true_iff in Hocc as [_ Hocc]. specialize (IH s Hocc). simpl. lia.
Qed.

(** One attempt of the pattern, in the words of the specification. *)
Lemma match_at_spec (prev : option N) (t : N) (s : pystr) :
  Re.match_at db prev (t :: s)
  = if spec_diacritic db t then Some ([], 1%nat)
    else match spec_word_here db prev (t :: s) with
         | Some w => Some (take (length w) (t :: s), length w)
         | None => None
         end.
Proof.
  unfold Re.match_at. rewrite in_class_spec.
  destruct (spec_diacritic db t); [reflexivity|].
  change (Re.at_boundary db prev (head (t :: s)))
    with (xorb (spec_word_char db prev) (spec_word_char db (head (t :: s)))).
  destruct (xorb _ _) eqn:Hstart.
  - rewrite (match_words_spec _ prev _ Hstart).
    change (List.find _ Re.SPANISH_WORDS) with (spec_word_here db prev (t :: s)).
    destruct (spec_word_here db prev (t :: s)) as [w|] eqn:Hw; [|reflexivity].
    apply word_here_starts in Hw as [_ Hlen].
    rewrite length_take. f_equal. f_equal. lia.
  - destruct (spec_word_here db prev (t :: s)) as [w|] eqn:Hw; [|reflexivity].
    apply word_here_starts in Hw as [Hw _]. congruence.
Qed.

Lemma scan_counts (s : pystr) :
  forall (skip : nat) (prev : option N),
  length (Re.scan db skip prev s) = spec_match_count db skip prev s.
Proof.
  induction s as [|t s IH]; intros skip prev; [reflexivity|].
  cbn [Re.scan spec_match_count]. destruct skip as [|k]; [|apply IH].
  rewrite match_at_spec.
  destruct (spec_diacritic db t).
  - cbn [length]. rewrite IH. reflexivity.
  - destruct (spec_word_here db prev (t :: s)) as [w|].
    + cbn [length]. rewrite IH. reflexivity.
    + apply IH.
Qed.

Lemma match_count_within (s : pystr) :
  forall (skip : nat) (prev : option N),
  (spec_match_count db skip prev s
   <= spec_diacritics db s + spec_whole_words db prev s)%nat.
Proof.
  unfold spec_diacritics.
  induction s as [|t s IH]; intros skip prev; [simpl; lia|].
  assert (Hfilter :
    (length (filter (fun t => Re.in_class db t = true) s)
     <= length (filter (fun t => Re.in_class db t = true) (t :: s)))%nat).
  { rewrite filter_cons. destruct (decide _); simpl; lia. }
  cbn [spec_match_count spec_whole_words]. destruct skip as [|k].
  - destruct (spec_diacritic db t) eqn:Hd.
    + rewrite filter_cons_True by (rewrite in_class_spec; exact Hd).
      specialize (IH 0%nat (Some t)). cbn [length]. lia.
    + destruct (spec_word_here db prev (t :: s)) as [w|].
      * rewrite bool_decide_eq_true_2 by eauto.
        specialize (IH (length w - 1)%nat (Some t)). lia.
      * specialize (IH 0%nat (Some t)). lia.
  - specialize (IH k (Some t)). lia.
Qed.

End Matches.

(** C9, as the code has it: [detect_language] answers Spanish or English,
    and Spanish exactly when the text has at least two matches, counted from
    left to right without overlap: a Spanish diacritic character is a match,
    and so is a function word of the list that stands as a whole word,
    without regard to case; a diacritic inside a matched function word is
    part of that match and not a match of its own.  So the count is at most
    the number of diacritic characters plus the number of whole-word
    occurrences of function words, and can be smaller.  Every function word
    of the list, standing alone, is one match.  With the character tables of
    the code points below 256, the Spanish question of the specification is
    classified Spanish and the English one English. *)
Theorem C9_detect_language (db : unicode_db) (text : pystr) :
  (detect_language db text = lit "Spanish" \/ detect_language db text = lit "English")
  /\ length (Re.findall db text) = spec_matches db text
  /\ (detect_language db text = lit "Spanish" <-> (2 <= spec_matches db text)%nat)
  /\ (detect_language db text = lit "English" <-> (spec_matches db text < 2)%nat)
  /\ (spec_matches db text <= spec_signal_count db text)%nat
  /\ Forall (fun w => Re.findall latin1 w = [w] /\ spec_matches latin1 w = 1%nat)
       SPEC_FUNCTION_WORDS
  /\ ((forall c, (c < 256)%N -> same_on db latin1 c) ->
      detect_language db q_es = lit "Spanish"
      /\ detect_language db q_en = lit "English").
Proof.
  assert (Hcount : length (Re.findall db text) = spec_matches db text)
    by apply scan_counts.
  assert (Hiff : detect_language db text = lit "Spanish"
                 <-> (2 <= spec_matches db text)%nat).
  { unfold detect_language. rewrite Hcount.
    destruct (2 <=? spec_matches db text)%nat eqn:E.
    - apply Nat.leb_le in E. tauto.
    - apply Nat.leb_gt in E. split; [discriminate | lia]. }
  split; [|split; [exact Hcount|split; [exact Hiff|split; [|split; [|split]]]]].
  - unfold detect_language. destruct (_ <=? _)%nat; [left | right]; reflexivity.
  - unfold detect_language. rewrite Hcount.
    destruct (2 <=? spec_matches db text)%nat eqn:E.
    + apply Nat.leb_le in E. split; [discriminate | lia].
    + apply Nat.leb_gt in E. tauto.
  - apply match_count_within.
  - unfold SPEC_FUNCTION_WORDS.
    repeat (apply Forall_cons; split; [split; vm_compute; reflexivity|]).
    apply Forall_nil_2.
  - intros Hsame.
    assert (Hall : forall s : pystr, forallb (fun c => c <? 256)%N s = true ->
                                     Forall (same_on db latin1) s).
    { intros s Hs. apply Forall_forall. intros c Hc.
      apply Hsame. rewrite forallb_forall in Hs.
      apply N.ltb_lt, Hs, list_elem_of_In, Hc. }
    unfold detect_language.
    rewrite (findall_same db latin1 q_es), (findall_same db latin1 q_en)
      by (apply Hall; vm_compute; reflexivity).
    split; vm_compute; reflexivity.
Qed.

Lemma C9_detect_language_witness :
  detect_language latin1 q_es = lit "Spanish"
  /\ detect_language latin1 q_en = lit "English".
Proof.
  apply (C9_detect_language latin1 []).
  intros c _. split; reflexivity.
Defined.

(** C9, as the specification words it, fails: in [más] there is one
    diacritic character and one whole-word function word, which makes two,
    but [findall] returns the one match [más], and the text is classified
    English. *)
Lemma C9_count_counterexample :
  spec_diacritics latin1 q_mas = 1%nat
  /\ spec_whole_words latin1 None q_mas = 1%nat
  /\ (2 <= spec_signal_count latin1 q_mas)%nat
  /\ Re.findall latin1 q_mas = [q_mas]
  /\ detect_language latin1 q_mas = lit "English".
Proof. vm_compute. repeat split; lia. Qed.

(** * Further properties of the code *)

(** ** The recency window, continued *)

Lemma sliding_window_shape (messages : list message) (limit : Z) :
  exists k : nat,
    sliding_window messages limit = take 2 messages ++ drop k (drop 2 messages)
    /\ (0 < limit - estimate_messages_tokens (take 2 messages) - 64 ->
        estimate_messages_tokens (drop k (drop 2 messages))
        <= limit - estimate_messages_tokens (take 2 messages) - 64).
Proof.
  rewrite sliding_window_unfold.
  destruct (_ <=? _) eqn:Hb.
  - apply Z.leb_le in Hb. exists (length (drop 2 messages)).
    rewrite drop_all, app_nil_r. split; [reflexivity | lia].
  - apply Z.leb_gt in Hb.
    destruct (window_walk_suffix (drop 2 messages)
                (limit - estimate_messages_tokens (take 2 messages) - 64))
      as (k & _ & -> & Hfit & _).
    exists k. split; [reflexivity|]. intros _. apply Hfit. lia.
Qed.

Lemma sliding_window_cost (messages : list message) (limit : Z) :
  0 < limit - estimate_messages_tokens (take 2 messages) - 64 ->
  estimate_messages_tokens (sliding_window messages limit) <= limit - 64.
Proof.
  intros Hb. destruct (sliding_window_shape messages limit) as (k & -> & Hfit).
  rewrite estimate_app. specialize (Hfit Hb). lia.
Qed.

Lemma window_walk_all (rev_rest : list message) :
  forall (budget : Z) (included : list message),
  estimate_messages_tokens rev_rest <= budget ->
  window_walk rev_rest budget included = reverse rev_rest ++ included.
Proof.
  induction rev_rest as [|msg older IH]; intros budget included Hfit; [reflexivity|].
  rewrite window_walk_cons. rewrite estimate_cons in Hfit.
  pose proof (estimate_lower older) as Hpos.
  destruct (budget - fragment_cost msg <? 0) eqn:E; [apply Z.ltb_lt in E; lia|].
  rewrite IH by lia. rewrite reverse_cons, <- app_assoc. reflexivity.
Qed.

Lemma estimate_reverse (l : list message) :
  estimate_messages_tokens (reverse l) = estimate_messages_tokens l.
Proof.
  induction l as [|x l IH]; [reflexivity|].
  rewrite reverse_cons, estimate_app, estimate_single, estimate_cons, IH. lia.
Qed.

Lemma sliding_window_all (messages : list message) (limit : Z) :
  estimate_messages_tokens messages + 64 <= limit ->
  sliding_window messages limit = messages.
Proof.
  intros Hfit. rewrite sliding_window_unfold.
  rewrite <- (take_drop 2 messages) in Hfit at 1. rewrite estimate_app in Hfit.
  pose proof (estimate_lower (drop 2 messages)) as Hrest.
  destruct (_ <=? _) eqn:Hb.
  - apply Z.leb_le in Hb.
    assert (Hnil : drop 2 messages = []).
    { destruct (drop 2 messages); [reflexivity | simpl length in Hrest; lia]. }
    rewrite <- (take_drop 2 messages) at 2. rewrite Hnil, app_nil_r. reflexivity.
  - rewrite window_walk_all by (rewrite estimate_reverse; lia).
    rewrite reverse_involutive, app_nil_r. apply take_drop.
Qed.

(** X1: what [sliding_window] returns costs at most [limit - 64], unless the
    two reserved fragments alone already cost more than that, in which case
    it costs what they cost. *)
Theorem X1_window_cost_bound (messages : list message) (limit : Z) :
  estimate_messages_tokens (sliding_window messages limit)
  <= Z.max (limit - 64) (estimate_messages_tokens (take 2 messages)).
Proof.
  destruct (Z.lt_ge_cases 0 (limit - estimate_messages_tokens (take 2 messages) - 64))
    as [Hb|Hb].
  - pose proof (sliding_window_cost messages limit Hb). lia.
  - rewrite sliding_window_unfold.
    destruct (_ <=? _) eqn:E; [lia | apply Z.leb_gt in E; lia].
Qed.

(** X2: a message list that fits the limit with the margin of 64 to spare
    comes back from [sliding_window] unchanged. *)
Theorem X2_window_keeps_what_fits (messages : list message) (limit : Z) :
  estimate_messages_tokens messages + 64 <= limit ->
  sliding_window messages limit = messages.
Proof. apply sliding_window_all. Qed.

Lemma X2_window_keeps_what_fits_witness :
  sliding_window sample_messages 98 = sample_messages.
Proof.
  apply (X2_window_keeps_what_fits sample_messages 98).
  vm_compute. discriminate.
Defined.

(** X3: [sliding_window] is idempotent: trimming a trimmed list again, with
    the same limit, changes nothing. *)
Theorem X3_window_idempotent (messages : list message) (limit : Z) :
  sliding_window (sliding_window messages limit) limit
  = sliding_window messages limit.
Proof.
  destruct (Z.lt_ge_cases 0 (limit - estimate_messages_tokens (take 2 messages) - 64))
    as [Hb|Hb].
  - apply sliding_window_all.
    pose proof (sliding_window_cost messages limit Hb). lia.
  - assert (Hres : sliding_window messages limit = take 2 messages).
    { rewrite sliding_window_unfold.
      destruct (_ <=? _) eqn:E; [reflexivity | apply Z.leb_gt in E; lia]. }
    rewrite Hres, sliding_window_unfold, take_take.
    change (2 `min` 2)%nat with 2%nat.
    destruct (_ <=? _) eqn:E; [reflexivity | apply Z.leb_gt in E; lia].
Qed.

Lemma window_walk_monotone (rev_rest : list message) :
  forall (b1 b2 : Z) (included : list message),
  b1 <= b2 ->
  window_walk rev_rest b1 included `suffix_of` window_walk rev_rest b2 included.
Proof.
  induction rev_rest as [|msg older IH]; intros b1 b2 included Hle; [reflexivity|].
  rewrite !window_walk_cons.
  destruct (b1 - fragment_cost msg <? 0) eqn:E1.
  - destruct (b2 - fragment_cost msg <? 0); [reflexivity|].
    destruct (window_walk_spec older (b2 - fragment_cost msg) (msg :: included))
      as (j & _ & -> & _).
    exists (reverse (take j older) ++ [msg]). rewrite <- app_assoc. reflexivity.
  - apply Z.ltb_ge in E1.
    destruct (b2 - fragment_cost msg <? 0) eqn:E2; [apply Z.ltb_lt in E2; lia|].
    apply IH. lia.
Qed.

Lemma sliding_window_included (messages : list message) (limit : Z) :
  drop 2 (sliding_window messages limit)
  = if limit - estimate_messages_tokens (take 2 messages) - 64 <=? 0 then []
    else window_walk (reverse (drop 2 messages))
           (limit - estimate_messages_tokens (take 2 messages) - 64) [].
Proof.
  rewrite sliding_window_unfold.
  destruct (_ <=? _).
  - apply drop_ge. rewrite length_take. lia.
  - destruct (decide (2 <= length messages)%nat) as [Hlen|Hlen].
    + apply drop_app_length'. rewrite length_take. lia.
    + rewrite (drop_ge messages 2) by lia. cbn [reverse window_walk].
      rewrite app_nil_r. apply drop_ge. rewrite length_take. lia.
Qed.

(** X4: a larger limit never loses a fragment: what [sliding_window] keeps
    beyond the reserved two under a limit is a suffix of what it keeps under
    any larger limit. *)
Theorem X4_window_monotone (messages : list message) (limit1 limit2 : Z) :
  limit1 <= limit2 ->
  drop 2 (sliding_window messages limit1)
  `suffix_of` drop 2 (sliding_window messages limit2).
Proof.
  intros Hle. rewrite !sliding_window_included.
  destruct (limit1 - _ - 64 <=? 0) eqn:E1; [apply suffix_nil|].
  apply Z.leb_gt in E1.
  destruct (limit2 - _ - 64 <=? 0) eqn:E2; [apply Z.leb_le in E2; lia|].
  apply window_walk_monotone. lia.
Qed.

Lemma X4_window_monotone_witness :
  drop 2 (sliding_window sample_messages 85)
  `suffix_of` drop 2 (sliding_window sample_messages 100).
Proof. apply (X4_window_monotone sample_messages 85 100). lia. Defined.

(** X5: [sliding_window] only drops fragments: its output is a sublist of
    its input (same fragments, same order), and an input of at most two
    fragments comes back unchanged whatever the limit. *)
Theorem X5_window_sublist (messages : list message) (limit : Z) :
  sliding_window messages limit `sublist_of` messages
  /\ ((length messages <= 2)%nat -> sliding_window messages limit = messages).
Proof.
  destruct (sliding_window_shape messages limit) as (k & Hshape & _).
  split.
  - rewrite Hshape. rewrite <- (take_drop 2 messages) at 3.
    apply sublist_app; [reflexivity | apply sublist_drop].
  - intros Hlen. rewrite Hshape.
    rewrite (drop_ge messages 2) by lia. rewrite drop_nil, app_nil_r.
    apply take_ge. lia.
Qed.

Lemma X5_window_sublist_witness :
  sliding_window (take 2 sample_messages) (-1000) = take 2 sample_messages.
Proof.
  apply (X5_window_sublist (take 2 sample_messages) (-1000)).
  simpl. lia.
Defined.

(** ** Composition of a turn, continued *)

Lemma sliding_window_overflow (messages : list message) (limit : Z) :
  (length messages <= 3)%nat ->
  limit < estimate_messages_tokens messages ->
  sliding_window messages limit = take 2 messages.
Proof.
  intros Hlen Hover. rewrite sliding_window_unfold.
  destruct (_ <=? _); [reflexivity|].
  destruct messages as [|a [|b [|c [|d messages]]]];
    try (cbn [take drop reverse window_walk]; apply app_nil_r).
  - change (drop 2 [a; b; c]) with [c]. change (reverse [c]) with [c].
    change (take 2 [a; b; c]) with [a; b] in *.
    rewrite window_walk_cons.
    rewrite !estimate_cons, estimate_nil in Hover.
    rewrite !estimate_cons, estimate_nil.
    destruct (_ <? _) eqn:E; [apply app_nil_r|]. apply Z.ltb_ge in E. lia.
  - simpl length in Hlen. lia.
Qed.

Lemma prepare_messages_unfold {W : Type} (system_prompt user_query : pystr)
    (transcript_entries : list entry_dict) (context_limit : Z) (strategy : pystr)
    (summary_func : option (list message -> M W optional_str)) :
  prepare_messages system_prompt user_query transcript_entries context_limit
    strategy summary_func
  = let naive := naive_composition system_prompt user_query transcript_entries in
    if estimate_messages_tokens naive <=? context_limit then ret naive
    else
      match (if bool_decide (strategy = lit "summary") then summary_func else None) with
      | Some f =>
          log_call CallSummarizeTranscript ;;;
          summary <- summarize_transcript transcript_entries f (context_limit / 2) ;;
          let messages :=
            [ mk_message (lit "system") system_prompt;
              mk_message (lit "user") (lit "User Query: " ++ user_query);
              mk_message (lit "user")
                (lit "Condensed debate summary:" ++ [10%N; 10%N] ++ format_value summary) ] in
          if estimate_messages_tokens messages <=? context_limit then ret messages
          else
            log_call (CallSlidingWindow messages context_limit) ;;;
            ret (sliding_window messages context_limit)
      | None =>
          log_call (CallSlidingWindow naive context_limit) ;;;
          ret (sliding_window naive context_limit)
      end.
Proof. destruct transcript_entries; reflexivity. Qed.

Lemma naive_composition_length (system_prompt user_query : pystr)
    (transcript_entries : list entry_dict) :
  (length (naive_composition system_prompt user_query transcript_entries) <= 3)%nat
  /\ take 2 (naive_composition system_prompt user_query transcript_entries)
     = [ mk_message (lit "system") system_prompt;
         mk_message (lit "user") (lit "User Query: " ++ user_query) ].
Proof.
  destruct transcript_entries as [|e entries].
  - rewrite naive_composition_nil. split; [cbn [length]; lia | reflexivity].
  - rewrite naive_composition_cons. split; [cbn [length]; lia | reflexivity].
Qed.

(** X6: past the limit, and with no summarizer in play (the strategy is not
    [summary], or no summarizer was given), [prepare_messages] returns
    exactly the system fragment and the query fragment: the transcript
    fragment is dropped whole.  The server and the session are not touched;
    one call of the window is recorded. *)
Theorem X6_overflow_drops_transcript {W : Type} (system_prompt user_query : pystr)
    (transcript_entries : list entry_dict) (context_limit : Z) (strategy : pystr)
    (summary_func : option (list message -> M W optional_str)) (s : state W) :
  context_limit
  < estimate_messages_tokens
      (naive_composition system_prompt user_query transcript_entries) ->
  strategy <> lit "summary" \/ summary_func = None ->
  prepare_messages system_prompt user_query transcript_entries context_limit
    strategy summary_func s
  = (Ret [ mk_message (lit "system") system_prompt;
           mk_message (lit "user") (lit "User Query: " ++ user_query) ],
     {| world := world s; engine := engine s;
        calls := calls s
                 ++ [CallSlidingWindow
                       (naive_composition system_prompt user_query transcript_entries)
                       context_limit] |}).
Proof.
  intros Hover Hnone. rewrite prepare_messages_unfold. cbv zeta.
  apply Z.leb_gt in Hover. rewrite Hover. apply Z.leb_gt in Hover.
  assert (Hsel : (if bool_decide (strategy = lit "summary") then summary_func else None)
                 = None).
  { destruct Hnone as [Hs| ->].
    - rewrite bool_decide_eq_false_2 by exact Hs. reflexivity.
    - destruct (bool_decide _); reflexivity. }
  rewrite Hsel.
  destruct (naive_composition_length system_prompt user_query transcript_entries)
    as [Hlen Htake].
  unfold bind, log_call, ret.
  rewrite (sliding_window_overflow _ _ Hlen Hover), Htake. reflexivity.
Qed.

Lemma X6_overflow_drops_transcript_witness :
  prepare_messages (lit "Argue.") (lit "why?") [sample_entry] 20 (lit "sliding_window")
    (Some failing_summary) fresh
  = (Ret [ mk_message (lit "system") (lit "Argue.");
           mk_message (lit "user") (lit "User Query: " ++ lit "why?") ],
     {| world := world fresh; engine := engine fresh;
        calls := calls fresh
                 ++ [CallSlidingWindow
                       (naive_composition (lit "Argue.") (lit "why?") [sample_entry])
                       20] |}).
Proof.
  apply (X6_overflow_drops_transcript (lit "Argue.") (lit "why?") [sample_entry] 20
           (lit "sliding_window") (Some failing_summary) fresh).
  - vm_compute. reflexivity.
  - left. vm_compute. discriminate.
Defined.

(** X7: [prepare_messages] always returns, whatever the summarizer does, and
    what it returns is one of three things: the naive composition, when that
    fits the limit; the system and query fragments followed by one fragment
    with a condensed summary, when the strategy is [summary], a summarizer
    was given and these three fit the limit; or the system and query
    fragments alone.  So the result costs at most the limit unless it is the
    bare two fragments, and the raw transcript is only ever sent whole. *)
Theorem X7_composition_cases {W : Type} (system_prompt user_query : pystr)
    (transcript_entries : list entry_dict) (context_limit : Z) (strategy : pystr)
    (summary_func : option (list message -> M W optional_str)) (s : state W) :
  let two := [ mk_message (lit "system") system_prompt;
               mk_message (lit "user") (lit "User Query: " ++ user_query) ] in
  let naive := naive_composition system_prompt user_query transcript_entries in
  exists messages s',
    prepare_messages system_prompt user_query transcript_entries context_limit
      strategy summary_func s = (Ret messages, s')
    /\ (   (messages = naive /\ estimate_messages_tokens naive <= context_limit)
        \/ (exists summary,
              messages
              = two ++ [ mk_message (lit "user")
                           (lit "Condensed debate summary:" ++ [10%N; 10%N] ++ format_value summary) ]
              /\ estimate_messages_tokens messages <= context_limit
              /\ context_limit < estimate_messages_tokens naive
              /\ strategy = lit "summary" /\ is_Some summary_func)
        \/ (messages = two /\ context_limit < estimate_messages_tokens naive)).
Proof.
  intros two naive. rewrite prepare_messages_unfold. cbv zeta. fold naive.
  destruct (naive_composition_length system_prompt user_query transcript_entries)
    as [Hlen Htake]. fold naive in Hlen, Htake. fold two in Htake.
  destruct (estimate_messages_tokens naive <=? context_limit) eqn:Hfit.
  { apply Z.leb_le in Hfit. exists naive, s. split; [reflexivity|]. left. auto. }
  apply Z.leb_gt in Hfit.
  destruct (if bool_decide (strategy = lit "summary") then summary_func else None)
    as [f|] eqn:Hsel.
  - assert (Hs : strategy = lit "summary" /\ summary_func = Some f).
    { destruct (bool_decide (strategy = lit "summary")) eqn:Hd; [|discriminate].
      apply bool_decide_eq_true in Hd. auto. }
    destruct Hs as [Hstrategy Hfunc].
    unfold bind at 1, log_call.
    match goal with
    | |- context [bind (summarize_transcript ?es ?g ?l) ?k ?s1] =>
        destruct (summarize_transcript_never_raises es g l s1) as [summary Hsum];
        unfold bind at 1;
        destruct (summarize_transcript es g l s1) as [r s2]
    end.
    simpl in Hsum. subst r.
    fold two.
    change (two ++ [mk_message (lit "user")
                      (lit "Condensed debate summary:" ++ [10%N; 10%N] ++ format_value summary)])
      with [ mk_message (lit "system") system_prompt;
             mk_message (lit "user") (lit "User Query: " ++ user_query);
             mk_message (lit "user")
               (lit "Condensed debate summary:" ++ [10%N; 10%N] ++ format_value summary) ].
    set (condensed := [ mk_message (lit "system") system_prompt;
                        mk_message (lit "user") (lit "User Query: " ++ user_query);
                        mk_message (lit "user")
                          (lit "Condensed debate summary:" ++ [10%N; 10%N] ++ format_value summary) ]).
    destruct (estimate_messages_tokens condensed <=? context_limit) eqn:Hc.
    + apply Z.leb_le in Hc. exists condensed, s2. split; [reflexivity|].
      right. left. exists summary. rewrite Hfunc. eauto 10.
    + apply Z.leb_gt in Hc. eexists _, _. split; [reflexivity|].
      right. right. split; [|exact Hfit].
      apply sliding_window_overflow; [subst condensed; cbn [length]; lia | exact Hc].
  - eexists _, _. split; [reflexivity|]. right. right. split; [|exact Hfit].
    rewrite (sliding_window_overflow naive context_limit Hlen Hfit). exact Htake.
Qed.

(** ** The rendered transcript *)

Lemma join_snoc (sep : pystr) (parts : list pystr) (p : pystr) :
  join sep (parts ++ [p])
  = match parts with
    | [] => p
    | _ => join sep parts ++ sep ++ p
    end.
Proof.
  induction parts as [|x parts IH]; [reflexivity|].
  destruct parts as [|y parts]; [reflexivity|].
  change (join sep ((x :: y :: parts) ++ [p]))
    with (x ++ sep ++ join sep ((y :: parts) ++ [p])).
  rewrite IH.
  change (join sep (x :: y :: parts)) with (x ++ sep ++ join sep (y :: parts)).
  rewrite <- !app_assoc. reflexivity.
Qed.

Lemma estimate_tokens_monotone (a b : pystr) :
  (length a <= length b)%nat -> estimate_tokens a <= estimate_tokens b.
Proof.
  intros Hle. unfold estimate_tokens, CHARS_PER_TOKEN.
  assert (Z.of_nat (length a) / 4 <= Z.of_nat (length b) / 4)
    by (apply Z.div_le_mono; lia).
  lia.
Qed.

Lemma content_of_mk_message (role text : pystr) :
  content_of (mk_message role text) = text.
Proof.
  unfold content_of, mk_message.
  rewrite lookup_insert_ne by discriminate.
  rewrite lookup_singleton_eq. reflexivity.
Qed.

(** X8: the debate only ever adds to the rendered transcript: the rendering
    of a transcript is a prefix of the rendering of the transcript with one
    more entry (a newline and the new entry come after it), and the
    estimated cost of the naive composition never goes down when an entry is
    added. *)
Theorem X8_transcript_grows (system_prompt user_query : pystr)
    (entries : list entry_dict) (e : entry_dict) :
  build_transcript (entries ++ [e])
  = match entries with
    | [] => render_entry e
    | _ => build_transcript entries ++ [10%N] ++ render_entry e
    end
  /\ build_transcript entries `prefix_of` build_transcript (entries ++ [e])
  /\ estimate_messages_tokens (naive_composition system_prompt user_query entries)
     <= estimate_messages_tokens
          (naive_composition system_prompt user_query (entries ++ [e])).
Proof.
  assert (Hsnoc : build_transcript (entries ++ [e])
                  = match entries with
                    | [] => render_entry e
                    | _ => build_transcript entries ++ [10%N] ++ render_entry e
                    end).
  { unfold build_transcript. rewrite fmap_app. cbn [fmap list_fmap].
    rewrite join_snoc. destruct entries; reflexivity. }
  split; [exact Hsnoc|]. split.
  - rewrite Hsnoc. destruct entries as [|e0 entries].
    + apply prefix_nil.
    + apply prefix_app_r. reflexivity.
  - destruct entries as [|e0 entries].
    + rewrite naive_composition_nil.
      change ([] ++ [e]) with [e]. rewrite naive_composition_cons.
      rewrite !estimate_cons, estimate_nil.
      pose proof (fragment_cost_floor
                    (mk_message (lit "user")
                       (lit "Debate transcript so far:" ++ [10%N; 10%N]
                        ++ build_transcript [e]))).
      lia.
    + change ((e0 :: entries) ++ [e]) with (e0 :: (entries ++ [e])).
      rewrite !naive_composition_cons, !estimate_cons, estimate_nil.
      unfold fragment_cost at 3 6. rewrite !content_of_mk_message.
      assert (estimate_tokens
                (lit "Debate transcript so far:" ++ [10%N; 10%N]
                 ++ build_transcript (e0 :: entries))
              <= estimate_tokens
                   (lit "Debate transcript so far:" ++ [10%N; 10%N]
                    ++ build_transcript (e0 :: entries ++ [e]))).
      { apply estimate_tokens_monotone. rewrite !length_app.
        change (e0 :: entries ++ [e]) with ((e0 :: entries) ++ [e]).
        rewrite Hsnoc, !length_app. lia. }
      lia.
Qed.

(** ** The fallback of the summarizer, continued *)

(** X9: when the call of the summarizer raises and the limit is zero or
    less, the fallback does not keep a tail: it returns the marker followed by the rendered transcript without its first
    [-4 * limit] characters: for a limit of zero and a transcript that is
    not empty, the marker and the whole transcript. *)
Theorem X9_fallback_without_room {W : Type} (entries : list entry_dict)
    (summary_func : list message -> M W optional_str) (limit : Z) (s : state W) :
  limit <= 0 ->
  limit < 0 \/ build_transcript entries <> [] ->
  (exists e s1,
     summary_func (summary_prompt_messages (build_transcript entries))
       (snd (log_call
               (CallSummaryFunc (summary_prompt_messages (build_transcript entries)))
               s))
     = (Raise e, s1)) ->
  fst (summarize_transcript entries summary_func limit s)
  = Ret (Some (TRUNCATION_MARKER
               ++ drop (Z.to_nat (- (limit * 4))) (build_transcript entries))).
Proof.
  intros Hlimit Hsome (e & s1 & Hfail).
  unfold log_call in Hfail. cbn [snd] in Hfail.
  unfold summarize_transcript, try_except, bind, log_call. rewrite Hfail.
  set (full := build_transcript entries) in *.
  unfold CHARS_PER_TOKEN.
  assert (Hlong : (Z.of_nat (length full) >? limit * 4) = true).
  { apply Z.gtb_lt. destruct Hsome as [Hneg|Hne]; [lia|].
    destruct full; [congruence | simpl length; lia]. }
  assert (Hslice : slice_from full (- (limit * 4))
                   = drop (Z.to_nat (- (limit * 4))) full).
  { unfold slice_from.
    destruct (- (limit * 4) <? 0) eqn:E; [apply Z.ltb_lt in E; lia|].
    destruct (Z.le_ge_cases (- (limit * 4)) (Z.of_nat (length full))) as [Hle|Hge].
    - rewrite Z.min_l by lia. reflexivity.
    - rewrite Z.min_r by lia. rewrite Nat2Z.id.
      rewrite drop_all. symmetry. apply drop_ge. lia. }
  rewrite Hlong, Hslice. reflexivity.
Qed.

Lemma X9_fallback_without_room_witness :
  fst (summarize_transcript [sample_entry] failing_summary 0 fresh)
  = Ret (Some (TRUNCATION_MARKER
               ++ drop (Z.to_nat (- (0 * 4))) (build_transcript [sample_entry]))).
Proof.
  apply (X9_fallback_without_room [sample_entry] failing_summary 0 fresh).
  - lia.
  - right. vm_compute. discriminate.
  - eexists _, _. reflexivity.
Defined.

(** ** Turns and runs, continued *)

Section RunEdges.
Context (db : unicode_db) {W : Type} (ollama : backend W) (term : host W).
Context (config : ConfigManager).



Lemma py_index_invalid {A} (l : list A) (i : Z) (s : state W) :
  0 <= i -> l !! Z.to_nat i = None -> py_index l i s = (Raise IndexError, s).
Proof.
  intros Hi Hnone. unfold py_index.
  destruct (i <? 0) eqn:E; [apply Z.ltb_lt in E; lia|].
  rewrite E, Hnone. reflexivity.
Qed.

(** The turn of an agent without a model stops at the look-up of the model,
    before anything is composed or printed. *)
Lemma debate_turn_out_of_range (query lang_note : pystr) (rnd idx : Z) (s : state W) :
  0 <= idx -> models config !! Z.to_nat idx = None ->
  debate_turn ollama term config query lang_note rnd idx s = (Raise IndexError, s).
Proof.
  intros Hidx Hnone. unfold debate_turn, bind at 1, py_index.
  destruct (idx <? 0) eqn:E; [apply Z.ltb_lt in E; lia|].
  rewrite E, Hnone. reflexivity.
Qed.




(** The two loops of [run], when there is no round or no agent to run:
    nothing is done. *)
Lemma idle_loops_return (query lang_note : pystr) (s : state W) :
  rounds config <= 0 \/ instances config <= 0 ->
  for_each (seqZ 1 (rounds config)) (fun rnd =>
    for_each (seqZ 0 (instances config))
      (fun idx => debate_turn ollama term config query lang_note rnd idx)) s
  = (Ret tt, s).
Proof.
  intros [Hr|Hn].
  - rewrite seqZ_nil by exact Hr. reflexivity.
  - rewrite (seqZ_nil 0 (instances config)) by exact Hn.
    induction (seqZ 1 (rounds config)) as [|rnd rnds IH]; [reflexivity|].
    cbn [for_each]. unfold bind. exact IH.
Qed.


(** With no model, the first turn of the first round stops the loops. *)
Lemma first_turn_out_of_range (query lang_note : pystr) (s : state W) :
  models config = [] -> 1 <= rounds config -> 1 <= instances config ->
  for_each (seqZ 1 (rounds config)) (fun rnd =>
    for_each (seqZ 0 (instances config))
      (fun idx => debate_turn ollama term config query lang_note rnd idx)) s
  = (Raise IndexError, s).
Proof.
  intros Hnone Hr Hn.
  rewrite (seqZ_cons 1 (rounds config)) by lia.
  rewrite (seqZ_cons 0 (instances config)) by lia.
  cbn [for_each]. unfold bind.
  rewrite debate_turn_out_of_range; [reflexivity | lia |].
  rewrite Hnone. reflexivity.
Qed.

Lemma run_empty_models (query : pystr) (s : state W) :
  models config = [] ->
  exists s',
    run db ollama term config query s
    = (Raise (default IndexError (render term (query_line query))), s')
    /\ user_query (engine s') = query
    /\ transcript (engine s') = [].
Proof.
  intros Hnone.
  set (s0 := {| world := world s;
                engine := {| transcript := []; user_query := query |};
                calls := calls s |}).
  exists s0. split; [|split; reflexivity].
  unfold run. cbv zeta. unfold bind at 1, update_engine. fold s0.
  unfold bind at 1.
  destruct (render term (query_line query)) as [e|] eqn:Hquery.
  { rewrite (console_print_fault term _ e s0 Hquery). reflexivity. }
  rewrite console_print_ok by exact Hquery.
  unfold bind at 1. unfold show_agents, slice_to. cbv zeta.
  rewrite Hnone, take_nil. cbn [imap for_each ret].
  unfold bind at 1.
  destruct (Z.le_gt_cases (rounds config) 0) as [Hr|Hr];
    [|destruct (Z.le_gt_cases (instances config) 0) as [Hn|Hn]].
  3: { rewrite first_turn_out_of_range by (exact Hnone || lia). reflexivity. }
  all: rewrite idle_loops_return by auto;
       unfold bind at 1;
       rewrite (py_index_invalid [] 0 s0) by (lia || reflexivity);
       reflexivity.
Qed.

(** X13: with no model configured [run] never returns, whatever the numbers
    of rounds and agents: it raises what the console raises on the line of
    the query, if it does, and [IndexError] otherwise, and leaves the
    transcript empty. *)
Theorem X13_run_without_models (query : pystr) (s : state W) :
  models config = [] ->
  exists s',
    run db ollama term config query s
    = (Raise (default IndexError (render term (query_line query))), s')
    /\ user_query (engine s') = query
    /\ transcript (engine s') = [].
Proof. apply run_empty_models. Qed.

End RunEdges.




Lemma X13_run_without_models_witness :
  exists s',
    run latin1 parrot tagged (streamed_config 2 0 []) (lit "why?") used
    = (Raise (default IndexError (render tagged (query_line (lit "why?")))), s')
    /\ user_query (engine s') = lit "why?"
    /\ transcript (engine s') = [].
Proof.
  apply (X13_run_without_models latin1 parrot tagged (streamed_config 2 0 [])
           (lit "why?") used).
  reflexivity.
Defined.

(** With no model the run of the samples raises [IndexError] on a plain
    query, and the fault of the console on a query that holds a closing tag
    with nothing to close. *)
Example run_without_models_plain :
  fst (run latin1 parrot tagged (streamed_config 2 1 []) (lit "why?") used)
  = Raise IndexError.
Proof. vm_compute. reflexivity. Qed.

Example run_without_models_tag :
  fst (run latin1 parrot tagged (streamed_config 2 1 []) q_inst used)
  = Raise (MarkupError
             (lit "closing tag '[/INST]' at position 13 doesn't match any open tag")).
Proof. vm_compute. reflexivity. Qed.

(** ** Language detection, continued *)

Lemma class_literal (db : unicode_db) (c t : N) :
  Re.in_class db t = true -> Re.literal_ignore db c t = true ->
  Re.inb c Re.SPANISH_CLASS = true.
Proof.
  unfold Re.in_class, Re.literal_ignore.
  generalize (tolower db t). intros x Hclass Hlit.
  assert (Hx : x ∈ Re.SPANISH_CLASS).
  { unfold Re.inb in Hclass. apply existsb_exists in Hclass as (y & Hy & Heq).
    apply N.eqb_eq in Heq. subst y. apply list_elem_of_In. exact Hy. }
  assert (Hfix : Re.inb x (Re.ignorecase_fixes c) = false).
  { unfold Re.ignorecase_fixes, Re.SPANISH_CLASS in *.
    destruct (c =? 105)%N; [|destruct (c =? 115)%N];
      repeat (apply elem_of_cons in Hx as [->|Hx]; [reflexivity|]);
      try (apply elem_of_nil in Hx; contradiction); reflexivity. }
  unfold Re.inb in Hlit. cbn [existsb] in Hlit.
  fold (Re.inb x (Re.ignorecase_fixes c)) in Hlit. rewrite Hfix, orb_false_r in Hlit.
  apply N.eqb_eq in Hlit. subst c.
  unfold Re.inb. apply existsb_exists. exists x.
  split; [apply list_elem_of_In, Hx | apply N.eqb_refl].
Qed.

Lemma words_one_diacritic :
  Forall (fun w : pystr =>
            (length (filter (fun c => Re.inb c Re.SPANISH_CLASS = true) w) <= 1)%nat)
    Re.SPANISH_WORDS.
Proof.
  apply Forall_forall. intros w Hw.
  assert (H : forallb
                (fun w : pystr =>
                   (length (filter (fun c => Re.inb c Re.SPANISH_CLASS = true) w) <=? 1)%nat)
                Re.SPANISH_WORDS = true) by (vm_compute; reflexivity).
  rewrite forallb_forall in H. apply Nat.leb_le, H, list_elem_of_In, Hw.
Qed.

Lemma match_word_diacritics (db : unicode_db) (w : pystr) :
  forall s m r,
  Re.match_word db w s = Some (m, r) ->
  (spec_diacritics db m
   <= length (filter (fun c => Re.inb c Re.SPANISH_CLASS = true) w))%nat.
Proof.
  unfold spec_diacritics.
  induction w as [|c w IH]; intros s m r H.
  - simpl in H. injection H as <- <-. simpl. lia.
  - destruct s as [|t s]; [discriminate|]. simpl in H.
    destruct (Re.literal_ignore db c t) eqn:Hlit; [|discriminate].
    destruct (Re.match_word db w s) as [[m' r']|] eqn:E; [|discriminate].
    injection H as <- <-. specialize (IH s m' r' E).
    rewrite !filter_cons.
    destruct (decide (Re.in_class db t = true)) as [Hc|Hc].
    + rewrite decide_True by (eapply class_literal; eassumption).
      cbn [length]. lia.
    + destruct (decide _); cbn [length]; lia.
Qed.

Lemma match_words_diacritics (db : unicode_db) (ws : list pystr) (prev : option N)
    (s m r : pystr) :
  Forall (fun w : pystr =>
            (length (filter (fun c => Re.inb c Re.SPANISH_CLASS = true) w) <= 1)%nat) ws ->
  Re.match_words db ws prev s = Some (m, r) ->
  s = m ++ r /\ (spec_diacritics db m <= 1)%nat.
Proof.
  intros Hws. induction Hws as [|w ws Hw Hws IH]; [discriminate|].
  change (Re.match_words db (w :: ws) prev s)
    with (match Re.match_alternative db w prev s with
          | Some found => Some found
          | None => Re.match_words db ws prev s
          end).
  unfold Re.match_alternative.
  destruct (Re.match_word db w s) as [[m' r']|] eqn:E; [|exact IH].
  destruct (Re.at_boundary db _ _); [|exact IH].
  intros [= <- <-]. split.
  - eapply match_word_split. exact E.
  - pose proof (match_word_diacritics db w s m' r' E). lia.
Qed.

Lemma scan_covers_diacritics (db : unicode_db) (s : pystr) :
  forall (skip : nat) (prev : option N),
  (spec_diacritics db s
   <= length (Re.scan db skip prev s) + spec_diacritics db (take skip s))%nat.
Proof.
  unfold spec_diacritics.
  induction s as [|t s IH]; intros skip prev; [simpl; lia|].
  assert (Hnow : forall k,
            (length (filter (fun t => Re.in_class db t = true) s)
             <= length (Re.scan db k (Some t) s) + 1)%nat ->
            Re.in_class db t = false ->
            (length (filter (fun t => Re.in_class db t = true) (t :: s))
             <= S (length (Re.scan db k (Some t) s)))%nat).
  { intros k Hk Hclass. rewrite filter_cons, decide_False by congruence. lia. }
  assert (Hnext : (length (filter (fun t => Re.in_class db t = true) s)
                   <= length (Re.scan db 0 (Some t) s))%nat).
  { specialize (IH 0%nat (Some t)). rewrite take_0, filter_nil in IH.
    cbn [length] in IH. lia. }
  cbn [Re.scan]. destruct skip as [|k].
  - rewrite take_0, filter_nil. cbn [length]. rewrite Nat.add_0_r.
    unfold Re.match_at.
    destruct (Re.in_class db t) eqn:Hclass.
    + rewrite filter_cons, decide_True by exact Hclass.
      change (1 - 1)%nat with 0%nat. cbn [length]. lia.
    + destruct (Re.at_boundary db prev (head (t :: s)));
        [|rewrite filter_cons, decide_False by congruence; exact Hnext].
      destruct (Re.match_words db Re.SPANISH_WORDS prev (t :: s)) as [[m r]|] eqn:Hw;
        [|rewrite filter_cons, decide_False by congruence; exact Hnext].
      destruct (match_words_diacritics db _ prev _ m r words_one_diacritic Hw)
        as [Hsplit Hone].
      cbn [length]. apply Hnow; [|reflexivity].
      specialize (IH (length m - 1)%nat (Some t)).
      assert (Hcovered :
        (length (filter (fun t => Re.in_class db t = true) (take (length m - 1) s))
         <= 1)%nat).
      { destruct m as [|t' m'].
        - change (length [] - 1)%nat with 0%nat. rewrite take_0, filter_nil.
          cbn [length]. lia.
        - cbn [app] in Hsplit. injection Hsplit as <- ->.
          replace (length (t :: m') - 1)%nat with (length m')
            by (cbn [length]; lia).
          rewrite take_app_length.
          unfold spec_diacritics in Hone. rewrite filter_cons in Hone.
          destruct (decide _); cbn [length] in Hone; lia. }
      lia.
  - specialize (IH k (Some t)). rewrite firstn_cons, !filter_cons.
    destruct (decide _); cbn [length]; lia.
Qed.

(** X14: every Spanish diacritic character of a text (a character whose
    lower case is one of á é í ó ú ü ñ ¿ ¡) is found by [findall], by itself
    or inside the one function word that holds it, and no match holds two:
    there are at least as many matches as diacritic characters.  So a text
    with two diacritic characters or more is always classified Spanish. *)
Theorem X14_two_diacritics_spanish (db : unicode_db) (text : pystr) :
  (spec_diacritics db text <= length (Re.findall db text))%nat
  /\ ((2 <= spec_diacritics db text)%nat -> detect_language db text = lit "Spanish").
Proof.
  assert (Hbound : (spec_diacritics db text <= length (Re.findall db text))%nat).
  { unfold Re.findall.
    pose proof (scan_covers_diacritics db text 0 None) as H.
    rewrite take_0 in H. unfold spec_diacritics in H at 2.
    rewrite filter_nil in H. cbn [length] in H. lia. }
  split; [exact Hbound|].
  intros Htwo. unfold detect_language.
  destruct (2 <=? length (Re.findall db text))%nat eqn:E; [reflexivity|].
  apply Nat.leb_gt in E. lia.
Qed.

Lemma X14_two_diacritics_spanish_witness :
  detect_language latin1 ([241%N] ++ lit "and" ++ [250%N]) = lit "Spanish".
Proof.
  apply (X14_two_diacritics_spanish latin1 ([241%N] ++ lit "and" ++ [250%N])).
  vm_compute. lia.
Defined.

(** ** Model discovery *)

#[global] Instance pystr_le_total : Total pystr_le.
Proof.
  intros a. induction a as [|x a IH]; intros b; [left; reflexivity|].
  destruct b as [|y b]; [right; reflexivity|].
  unfold pystr_le in *. cbn [pystr_leb].
  destruct (N.lt_trichotomy x y) as [Hlt|[->|Hgt]].
  - left. apply N.ltb_lt in Hlt. rewrite Hlt. reflexivity.
  - rewrite N.ltb_irrefl, N.eqb_refl. cbn [orb andb]. apply IH.
  - right. apply N.ltb_lt in Hgt. rewrite Hgt. reflexivity.
Qed.

Section DiscoveryFacts.
Context {W : Type} (server : registry W).

Lemma list_local_models_cases (s : state W) :
  match ollama_list server (world s) with
  | (Ret names, w) =>
      list_local_models server s
      = (Ret (sorted names), {| world := w; engine := engine s; calls := calls s |})
  | (Raise e, w) =>
      list_local_models server s
      = (Ret [], {| world := w; engine := engine s; calls := calls s |})
  end.
Proof.
  unfold list_local_models, try_except, bind, with_world.
  destruct (ollama_list server (world s)) as [[names|e] w]; reflexivity.
Qed.

(** X15: [list_local_models] never raises.  When the server answers, it
    returns the names the server listed, each as often as listed, in
    ascending order of [str]; when the call raises, it returns the empty
    list. *)
Theorem X15_local_models_sorted (s : state W) :
  exists local,
    fst (list_local_models server s) = Ret local
    /\ Sorted pystr_le local
    /\ match fst (ollama_list server (world s)) with
       | Ret names => local ≡ₚ names
       | Raise _ => local = []
       end.
Proof.
  pose proof (list_local_models_cases s) as H.
  destruct (ollama_list server (world s)) as [[names|e] w]; rewrite H; cbn [fst].
  - exists (sorted names). split; [reflexivity|]. split.
    + apply Sorted_merge_sort. apply _.
    + apply merge_sort_Permutation.
  - exists []. split; [reflexivity|]. split; [constructor | reflexivity].
Qed.

Lemma local_base_lookup (local : list pystr) (base : pystr) :
  forall d : gmap pystr pystr,
  is_Some (foldl (fun d m => <[base_name m := m]> d) d local !! base)
  <-> is_Some (d !! base) \/ exists l, l ∈ local /\ base_name l = base.
Proof.
  induction local as [|m local IH]; intros d; cbn [foldl].
  - split; [auto|]. intros [H|(l & Hl & _)]; [exact H|]. inversion Hl.
  - rewrite IH. rewrite lookup_insert_is_Some. split.
    + intros [[Heq|[_ Hd]]|(l & Hl & Hb)].
      * right. exists m. split; [left | exact Heq].
      * left. exact Hd.
      * right. exists l. split; [right; exact Hl | exact Hb].
    + intros [Hd|(l & Hl & Hb)].
      * destruct (decide (base_name m = base)) as [Heq|Hne]; [left; left; exact Heq|].
        left. right. auto.
      * apply elem_of_cons in Hl as [->|Hl].
        -- left. left. exact Hb.
        -- right. exists l. auto.
Qed.

Lemma known_test (local : list pystr) (model : pystr) :
  bool_decide (model ∈ local)
  || bool_decide (is_Some (local_base_of local !! base_name model)) = true
  <-> known local model.
Proof.
  unfold known, local_base_of.
  rewrite orb_true_iff, !bool_decide_eq_true, local_base_lookup.
  rewrite lookup_empty. split.
  - intros [H|[H|H]]; [left; exact H | destruct H as [? H]; discriminate | right; exact H].
  - intros [H|H]; [left; exact H | right; right; exact H].
Qed.

Lemma sort_out_snoc (local : list pystr) (required : list pystr) (model : pystr) :
  sort_out local (local_base_of local) (required ++ [model])
  = let '(available, missing) := sort_out local (local_base_of local) required in
    if bool_decide (model ∈ local)
       || bool_decide (is_Some (local_base_of local !! base_name model))
    then (available ++ [model], missing)
    else (available, missing ++ [model]).
Proof.
  unfold sort_out. rewrite foldl_app. cbn [foldl].
  destruct (foldl _ ([], []) required) as [av mi]. reflexivity.
Qed.

Lemma sort_out_spec (local : list pystr) (required : list pystr) :
  forall available missing,
  sort_out local (local_base_of local) required = (available, missing) ->
  (forall m, m ∈ available <-> m ∈ required /\ known local m)
  /\ (forall m, m ∈ missing <-> m ∈ required /\ ~ known local m)
  /\ available ++ missing ≡ₚ required
  /\ available `sublist_of` required
  /\ missing `sublist_of` required.
Proof.
  induction required as [|model required IH] using rev_ind; intros available missing H.
  - injection H as <- <-.
    split; [|split; [|split; [|split]]]; try reflexivity.
    + intros m. split; [intros Hm | intros [Hm _]]; inversion Hm.
    + intros m. split; [intros Hm | intros [Hm _]]; inversion Hm.
  - rewrite sort_out_snoc in H.
    destruct (sort_out local (local_base_of local) required) as [av mi].
    destruct (IH av mi eq_refl) as (Hav & Hmi & Hperm & Hsa & Hsm).
    pose proof (known_test local model) as Htest.
    destruct (bool_decide (model ∈ local)
              || bool_decide (is_Some (local_base_of local !! base_name model)));
      injection H as <- <-.
    + assert (Hk : known local model) by (apply Htest; reflexivity).
      split; [|split; [|split; [|split]]].
      * intros m. rewrite !elem_of_app, Hav, !list_elem_of_singleton.
        split; [intros [[? ?]| ->]; auto | intros [[?| ->] ?]; auto].
      * intros m. rewrite Hmi, elem_of_app, list_elem_of_singleton.
        split; [intros [? ?]; auto | intros [[?| ->] ?]; [auto | contradiction]].
      * rewrite <- Hperm, <- !app_assoc. apply Permutation_app_head, Permutation_app_comm.
      * apply sublist_app; [exact Hsa | reflexivity].
      * apply sublist_inserts_r. exact Hsm.
    + assert (Hk : ~ known local model).
      { intros Hk. apply Htest in Hk. discriminate. }
      split; [|split; [|split; [|split]]].
      * intros m. rewrite Hav, elem_of_app, list_elem_of_singleton.
        split; [intros [? ?]; auto | intros [[?| ->] ?]; [auto | contradiction]].
      * intros m. rewrite !elem_of_app, Hmi, !list_elem_of_singleton.
        split; [intros [[? ?]| ->]; auto | intros [[?| ->] ?]; auto].
      * rewrite <- Hperm, app_assoc. reflexivity.
      * apply sublist_inserts_r. exact Hsa.
      * apply sublist_app; [exact Hsm | reflexivity].
Qed.

Lemma validate_models_sorts (required : list pystr) (s : state W) :
  exists local available missing s',
    fst (list_local_models server s) = Ret local
    /\ validate_models server required s = (Ret (available, missing), s')
    /\ (forall m, m ∈ available <-> m ∈ required /\ known local m)
    /\ (forall m, m ∈ missing <-> m ∈ required /\ ~ known local m)
    /\ available ++ missing ≡ₚ required
    /\ available `sublist_of` required
    /\ missing `sublist_of` required.
Proof.
  unfold validate_models, bind.
  pose proof (list_local_models_cases s) as H.
  destruct (ollama_list server (world s)) as [[names|e] w]; rewrite H; cbn [fst].
  - destruct (sort_out (sorted names) (local_base_of (sorted names)) required)
      as [available missing] eqn:E.
    exists (sorted names), available, missing. eexists.
    split; [reflexivity|]. split; [reflexivity|].
    apply sort_out_spec. exact E.
  - destruct (sort_out [] (local_base_of []) required) as [available missing] eqn:E.
    exists [], available, missing. eexists.
    split; [reflexivity|]. split; [reflexivity|].
    apply sort_out_spec. exact E.
Qed.

(** X16: [validate_models] never raises, and sorts the required models into
    two lists, each in the order required: a model is in [available] exactly
    when the local list has it or has a model with the same name before the
    colon (so a required tag that is not installed passes when another tag
    of the model is), and in [missing] otherwise; together the two lists are
    the required ones. *)
Theorem X16_validate_models_partition (required : list pystr) (s : state W) :
  exists local available missing s',
    fst (list_local_models server s) = Ret local
    /\ validate_models server required s = (Ret (available, missing), s')
    /\ (forall m, m ∈ available <-> m ∈ required /\ known local m)
    /\ (forall m, m ∈ missing <-> m ∈ required /\ ~ known local m)
    /\ available ++ missing ≡ₚ required
    /\ available `sublist_of` required
    /\ missing `sublist_of` required.
Proof. apply validate_models_sorts. Qed.



Lemma sort_out_nothing_local (required : list pystr) :
  sort_out [] (local_base_of []) required = ([], required).
Proof.
  induction required as [|model required IH] using rev_ind; [reflexivity|].
  rewrite sort_out_snoc, IH. cbn [local_base_of foldl].
  rewrite bool_decide_eq_false_2 by (intros H; inversion H).
  rewrite bool_decide_eq_false_2; [reflexivity|].
  rewrite lookup_empty. intros [? H]. discriminate.
Qed.

(** X17: when the server cannot be reached ([ollama.list] raises),
    [validate_models] does not fail: it reports every required model as
    missing and none as available. *)
Theorem X17_validate_models_unreachable (required : list pystr) (s : state W)
    (e : exn) (w : W) :
  ollama_list server (world s) = (Raise e, w) ->
  fst (validate_models server required s) = Ret ([], required).
Proof.
  intros Hdown. unfold validate_models, bind.
  pose proof (list_local_models_cases s) as H. rewrite Hdown in H.
  rewrite H. cbn [fst ret]. rewrite sort_out_nothing_local. reflexivity.
Qed.

End DiscoveryFacts.

Lemma X17_validate_models_unreachable_witness :
  fst (validate_models unreachable [lit "llama3.2"; lit "mistral"] fresh)
  = Ret ([], [lit "llama3.2"; lit "mistral"]).
Proof.
  apply (X17_validate_models_unreachable unreachable [lit "llama3.2"; lit "mistral"]
           fresh (Exc "ConnectionError" (lit "connection refused")) tt).
  reflexivity.
Defined.

(** A tag that is not installed passes on the name of the model. *)
Example validate_models_other_tag :
  fst (validate_models two_installed
         [lit "llama3.2"; lit "llama3.2:70b"; lit "mistral"; lit "qwen2.5:7b"] fresh)
  = Ret ([lit "llama3.2"; lit "llama3.2:70b"; lit "qwen2.5:7b"], [lit "mistral"]).
Proof. vm_compute. reflexivity. Qed.


(** ** The model list of the configuration *)

Lemma filler_of_padded (models : list pystr) (k : nat) :
  filler_of (models ++ replicate k (filler_of models)) = filler_of models.
Proof.
  destruct k as [|k]; [rewrite app_nil_r; reflexivity|].
  rewrite replicate_S_end, app_assoc. unfold filler_of at 1.
  rewrite last_snoc. reflexivity.
Qed.

Lemma slice_to_take {A} (l : list A) (stop : Z) :
  0 <= stop -> slice_to l stop = take (Z.to_nat stop) l.
Proof.
  intros Hstop. unfold slice_to.
  destruct (stop <? 0) eqn:E; [apply Z.ltb_lt in E; lia|].
  destruct (Z.le_gt_cases stop (Z.of_nat (length l))) as [Hle|Hgt].
  - rewrite Z.min_l by exact Hle. reflexivity.
  - rewrite Z.min_r, Nat2Z.id by lia. rewrite !take_ge by lia. reflexivity.
Qed.

(** The list [ensure_models_match_instances] leaves, in one expression. *)
Lemma ensure_models_closed (config : ConfigManager) :
  0 <= instances config ->
  models (ensure_models_match_instances config)
  = take (Z.to_nat (instances config))
      (models config
       ++ replicate (Z.to_nat (instances config) - length (models config))
            (filler_of (models config))).
Proof.
  intros Hn. unfold ensure_models_match_instances. cbv zeta. cbn [models with_models].
  destruct (Z.of_nat (length (models config)) <? instances config) eqn:Elt.
  - apply Z.ltb_lt in Elt. rewrite take_ge.
    + f_equal. f_equal. lia.
    + rewrite length_app, length_replicate. lia.
  - apply Z.ltb_ge in Elt.
    replace (Z.to_nat (instances config) - length (models config))%nat with 0%nat by lia.
    cbn [replicate]. rewrite app_nil_r.
    destruct (Z.of_nat (length (models config)) >? instances config) eqn:Egt.
    + apply slice_to_take. exact Hn.
    + rewrite take_ge; [reflexivity|].
      pose proof (Zgt_cases (Z.of_nat (length (models config))) (instances config)) as H.
      rewrite Egt in H. lia.
Qed.

Lemma ensure_models_length (config : ConfigManager) :
  0 <= instances config ->
  Z.of_nat (length (models (ensure_models_match_instances config))) = instances config.
Proof.
  intros Hn. rewrite ensure_models_closed by exact Hn.
  rewrite length_take, length_app, length_replicate. lia.
Qed.

Lemma ensure_models_lookup (config : ConfigManager) (k : nat) :
  0 <= instances config ->
  (k < Z.to_nat (instances config))%nat ->
  models (ensure_models_match_instances config) !! k
  = Some (default (filler_of (models config)) (models config !! k)).
Proof.
  intros Hn Hk. rewrite ensure_models_closed by exact Hn.
  rewrite lookup_take_lt by exact Hk.
  destruct (models config !! k) as [m|] eqn:E.
  - rewrite (lookup_app_l_Some _ _ _ _ E). reflexivity.
  - apply lookup_ge_None in E. rewrite lookup_app_r by exact E.
    rewrite lookup_replicate_2 by lia. reflexivity.
Qed.

(** X18: for a number of instances that is not negative,
    [ensure_models_match_instances] leaves exactly one model per instance:
    the models configured so far keep their places, the places beyond them
    hold the last model configured (["llama3.2"] when none was), and the
    models beyond the number of instances are dropped. *)
Theorem X18_ensure_models_match (config : ConfigManager) :
  0 <= instances config ->
  Z.of_nat (length (models (ensure_models_match_instances config))) = instances config
  /\ instances (ensure_models_match_instances config) = instances config
  /\ forall k : nat,
       (k < Z.to_nat (instances config))%nat ->
       models (ensure_models_match_instances config) !! k
       = Some (match models config !! k with
               | Some m => m
               | None => match last (models config) with
                         | Some m => m
                         | None => lit "llama3.2"
                         end
               end).
Proof.
  intros Hn. split; [apply ensure_models_length; exact Hn|].
  split; [reflexivity|].
  intros k Hk. rewrite ensure_models_lookup by assumption.
  destruct (models config !! k); reflexivity.
Qed.

Lemma X18_ensure_models_match_witness :
  Z.of_nat (length (models (ensure_models_match_instances
                              (with_instances sample_config 4)))) = 4
  /\ instances (ensure_models_match_instances (with_instances sample_config 4)) = 4
  /\ forall k : nat,
       (k < Z.to_nat 4)%nat ->
       models (ensure_models_match_instances (with_instances sample_config 4)) !! k
       = Some (match models sample_config !! k with
               | Some m => m
               | None => match last (models sample_config) with
                         | Some m => m
                         | None => lit "llama3.2"
                         end
               end).
Proof.
  apply (X18_ensure_models_match (with_instances sample_config 4)).
  simpl. lia.
Defined.

Lemma ensure_settled (config : ConfigManager) :
  Z.of_nat (length (models config)) = instances config ->
  ensure_models_match_instances config = with_models config (models config).
Proof.
  intros Heq. unfold ensure_models_match_instances. cbv zeta.
  destruct (Z.of_nat (length (models config)) <? instances config) eqn:Elt;
    [apply Z.ltb_lt in Elt; lia|].
  destruct (Z.of_nat (length (models config)) >? instances config) eqn:Egt;
    [|reflexivity].
  pose proof (Zgt_cases (Z.of_nat (length (models config))) (instances config)) as H.
  rewrite Egt in H. lia.
Qed.

(** X19: for a number of instances that is not negative, a second call of
    [ensure_models_match_instances] changes nothing. *)
Theorem X19_ensure_idempotent (config : ConfigManager) :
  0 <= instances config ->
  ensure_models_match_instances (ensure_models_match_instances config)
  = ensure_models_match_instances config.
Proof.
  intros Hn.
  rewrite (ensure_settled (ensure_models_match_instances config)).
  - destruct (ensure_models_match_instances config). reflexivity.
  - exact (ensure_models_length config Hn).
Qed.

Lemma X19_ensure_idempotent_witness :
  ensure_models_match_instances
    (ensure_models_match_instances (with_instances sample_config 1))
  = ensure_models_match_instances (with_instances sample_config 1).
Proof.
  apply (X19_ensure_idempotent (with_instances sample_config 1)).
  simpl. lia.
Defined.

(** With a negative number of instances each call cuts the list again. *)
Example ensure_negative_instances :
  let config := with_instances
                  (with_models sample_config [lit "a"; lit "b"; lit "c"]) (-1) in
  models (ensure_models_match_instances config) = [lit "a"; lit "b"]
  /\ models (ensure_models_match_instances (ensure_models_match_instances config))
     = [lit "a"].
Proof. split; reflexivity. Qed.

(** ** From the configuration to the run *)

Section ReadyToRun.
Context (db : unicode_db) {W : Type} (ollama : backend W) (term : host W).





Lemma ensure_empties (config : ConfigManager) :
  instances config = 0
  \/ Z.of_nat (length (models config)) + instances config <= 0 ->
  models (ensure_models_match_instances config) = [].
Proof.
  intros Hno.
  destruct (Z.lt_ge_cases (instances config) 0) as [Hneg|Hpos].
  - unfold ensure_models_match_instances. cbv zeta. cbn [models with_models].
    destruct (Z.of_nat (length (models config)) <? instances config) eqn:Elt;
      [apply Z.ltb_lt in Elt; lia|].
    destruct (Z.of_nat (length (models config)) >? instances config) eqn:Egt.
    + unfold slice_to. apply Z.ltb_lt in Hneg. rewrite Hneg.
      rewrite Z.max_l by lia. reflexivity.
    + pose proof (Zgt_cases (Z.of_nat (length (models config))) (instances config)) as H.
      rewrite Egt in H. lia.
  - assert (Hzero : instances config = 0) by lia.
    rewrite ensure_models_closed, Hzero by lia. reflexivity.
Qed.

(** X22: with no instance configured, or with a negative number that
    reaches past the start of the model list,
    [ensure_models_match_instances] leaves no model at all, and the [run]
    that follows does not return: it raises what the console raises on the
    line of the query, if it does, and [IndexError] otherwise, with an empty
    transcript. *)
Theorem X22_run_after_ensure_fails (config : ConfigManager) (query : pystr)
    (s : state W) :
  instances config = 0
  \/ Z.of_nat (length (models config)) + instances config <= 0 ->
  models (ensure_models_match_instances config) = []
  /\ exists s',
       run db ollama term (ensure_models_match_instances config) query s
       = (Raise (default IndexError (render term (query_line query))), s')
       /\ transcript (engine s') = [].
Proof.
  intros Hno. pose proof (ensure_empties config Hno) as Hempty.
  split; [exact Hempty|].
  destruct (run_empty_models db ollama term (ensure_models_match_instances config)
              query s Hempty) as (s' & Hrun & _ & Ht).
  exists s'. split; [exact Hrun | exact Ht].
Qed.

End ReadyToRun.



Lemma X22_run_after_ensure_fails_witness :
  models (ensure_models_match_instances (with_instances sample_config 0)) = []
  /\ exists s',
       run latin1 parrot tagged
         (ensure_models_match_instances (with_instances sample_config 0))
         (lit "why?") used
       = (Raise (default IndexError (render tagged (query_line (lit "why?")))), s')
       /\ transcript (engine s') = [].
Proof.
  apply (X22_run_after_ensure_fails latin1 parrot tagged
           (with_instances sample_config 0) (lit "why?") used).
  left. reflexivity.
Defined.

(** After the alignment to no instance, the run of the samples raises
    [IndexError] on a plain query. *)
Example run_after_ensure_plain :
  fst (run latin1 parrot tagged
         (ensure_models_match_instances (with_instances sample_config 0))
         (lit "why?") used)
  = Raise IndexError.
Proof. vm_compute. reflexivity. Qed.

(** ** Setting one model *)

Lemma filler_of_snoc (models : list pystr) (m : pystr) :
  filler_of (models ++ [m]) = m.
Proof. unfold filler_of. rewrite last_snoc. reflexivity. Qed.

(** The loop of [set_model_at] ends after [index + 1 - len(models)]
    iterations, each of which appends the same filler. *)
Lemma pad_models_closed (fuel : nat) (index : Z) :
  forall models : list pystr,
  (Z.to_nat (index + 1 - Z.of_nat (length models)) <= fuel)%nat ->
  pad_models fuel models index
  = Some (models
          ++ replicate (Z.to_nat (index + 1 - Z.of_nat (length models)))
               (filler_of models)).
Proof.
  induction fuel as [|fuel IH]; intros models Hfuel; cbn [pad_models];
    destruct (Z.of_nat (length models) <=? index) eqn:E.
  - apply Z.leb_le in E. lia.
  - apply Z.leb_gt in E.
    replace (Z.to_nat (index + 1 - Z.of_nat (length models))) with 0%nat by lia.
    cbn [replicate]. rewrite app_nil_r. reflexivity.
  - apply Z.leb_le in E.
    rewrite IH by (rewrite length_app; cbn [length]; lia).
    rewrite filler_of_snoc, length_app. cbn [length].
    replace (Z.to_nat (index + 1 - Z.of_nat (length models)))
      with (S (Z.to_nat (index + 1 - Z.of_nat (length models + 1)))) by lia.
    cbn [replicate]. rewrite <- app_assoc. reflexivity.
  - apply Z.leb_gt in E.
    replace (Z.to_nat (index + 1 - Z.of_nat (length models))) with 0%nat by lia.
    cbn [replicate]. rewrite app_nil_r. reflexivity.
Qed.

(** With fewer iterations allowed the loop has not ended. *)
Lemma pad_models_short (fuel : nat) (index : Z) :
  forall models : list pystr,
  (fuel < Z.to_nat (index + 1 - Z.of_nat (length models)))%nat ->
  pad_models fuel models index = None.
Proof.
  induction fuel as [|fuel IH]; intros models Hfuel; cbn [pad_models];
    destruct (Z.of_nat (length models) <=? index) eqn:E;
    try (apply Z.leb_gt in E; lia); [reflexivity|].
  apply IH. rewrite length_app. cbn [length]. lia.
Qed.

(** X23: [set_model_at] at an index that is not negative.  The loop ends
    after [index + 1 - len(models)] iterations (none when the index is
    within the list) and the assignment never raises; afterwards the list
    has [max(len(models), index + 1)] models, the one at [index] is the new
    one, and every other place holds what it held before, or, beyond the old
    end, the last model of the old list (["llama3.2"] if it was empty). *)
Theorem X23_set_model_at (fuel : nat) (config : ConfigManager) (index : Z)
    (model_name : pystr) :
  0 <= index ->
  (Z.to_nat (index + 1 - Z.of_nat (length (models config))) <= fuel)%nat ->
  exists config',
    set_model_at fuel config index model_name = Some (Ret config')
    /\ length (models config')
       = Nat.max (length (models config)) (Z.to_nat index + 1)
    /\ models config' !! Z.to_nat index = Some model_name
    /\ (forall k : nat,
          k <> Z.to_nat index ->
          (k < Nat.max (length (models config)) (Z.to_nat index + 1))%nat ->
          models config' !! k
          = Some (default (filler_of (models config)) (models config !! k)))
    /\ instances config' = instances config.
Proof.
  intros Hindex Hfuel. unfold set_model_at.
  rewrite pad_models_closed by exact Hfuel.
  set (padded := models config
                 ++ replicate (Z.to_nat (index + 1 - Z.of_nat (length (models config))))
                      (filler_of (models config))).
  assert (Hlen : length padded
                 = Nat.max (length (models config)) (Z.to_nat index + 1)).
  { subst padded. rewrite length_app, length_replicate. lia. }
  unfold py_set_index.
  destruct (index <? 0) eqn:Eneg; [apply Z.ltb_lt in Eneg; lia|].
  rewrite Eneg. cbn [orb].
  destruct (Z.of_nat (length padded) <=? index) eqn:Eout;
    [apply Z.leb_le in Eout; lia|].
  eexists. split; [reflexivity|]. cbn [models with_models instances].
  split; [rewrite length_insert; exact Hlen|].
  split; [apply list_lookup_insert_eq; lia|].
  split; [|reflexivity].
  intros k Hne Hk. rewrite list_lookup_insert_ne by congruence.
  subst padded. destruct (models config !! k) as [m|] eqn:E.
  - rewrite (lookup_app_l_Some _ _ _ _ E). reflexivity.
  - apply lookup_ge_None in E. rewrite lookup_app_r by exact E.
    rewrite lookup_replicate_2 by lia. reflexivity.
Qed.

Lemma X23_set_model_at_witness :
  exists config',
    set_model_at 2 sample_config 3 (lit "mistral") = Some (Ret config')
    /\ length (models config') = Nat.max (length (models sample_config)) (Z.to_nat 3 + 1)
    /\ models config' !! Z.to_nat 3 = Some (lit "mistral")
    /\ (forall k : nat,
          k <> Z.to_nat 3 ->
          (k < Nat.max (length (models sample_config)) (Z.to_nat 3 + 1))%nat ->
          models config' !! k
          = Some (default (filler_of (models sample_config))
                    (models sample_config !! k)))
    /\ instances config' = instances sample_config.
Proof.
  apply (X23_set_model_at 2 sample_config 3 (lit "mistral")).
  - lia.
  - simpl. lia.
Defined.

(** X24: [set_model_at] at a negative index never pads the list, whatever
    its length: the index counts from the end, and the assignment raises
    the [IndexError] of list assignment, [list assignment index out of
    range], when it reaches past the start, in particular on an empty
    list. *)
Theorem X24_set_model_at_negative (fuel : nat) (config : ConfigManager) (index : Z)
    (model_name : pystr) :
  index < 0 ->
  set_model_at fuel config index model_name
  = Some (if index <? - Z.of_nat (length (models config))
          then Raise IndexError_assignment
          else Ret (with_models config
                      (<[Z.to_nat (Z.of_nat (length (models config)) + index)
                         := model_name]> (models config)))).
Proof.
  intros Hneg. unfold set_model_at.
  assert (Hpad : pad_models fuel (models config) index = Some (models config)).
  { destruct fuel; cbn [pad_models];
      (destruct (Z.of_nat (length (models config)) <=? index) eqn:E;
       [apply Z.leb_le in E; lia | reflexivity]). }
  rewrite Hpad. unfold py_set_index.
  apply Z.ltb_lt in Hneg. rewrite Hneg. apply Z.ltb_lt in Hneg.
  destruct (index <? - Z.of_nat (length (models config))) eqn:E.
  - apply Z.ltb_lt in E.
    replace (Z.of_nat (length (models config)) + index <? 0) with true
      by (symmetry; apply Z.ltb_lt; lia).
    reflexivity.
  - apply Z.ltb_ge in E.
    replace (Z.of_nat (length (models config)) + index <? 0) with false
      by (symmetry; apply Z.ltb_ge; lia).
    replace (Z.of_nat (length (models config))
             <=? Z.of_nat (length (models config)) + index) with false
      by (symmetry; apply Z.leb_gt; lia).
    reflexivity.
Qed.

Lemma X24_set_model_at_negative_witness :
  set_model_at 0 sample_config (-3) (lit "mistral")
  = Some (Raise (Exc "IndexError" (lit "list assignment index out of range"))).
Proof.
  apply (X24_set_model_at_negative 0 sample_config (-3) (lit "mistral")).
  lia.
Defined.

(** The index [-1] sets the last model. *)
Example set_model_at_last :
  set_model_at 0 sample_config (-1) (lit "mistral")
  = Some (Ret (with_models sample_config [lit "llama3.2"; lit "mistral"])).
Proof. reflexivity. Qed.

(** ** The status table and the roles of the run *)

(** X25: the agent rows of [show_status] agree with [run].  Row [k] (from 0)
    shows agent number [k + 1] with the model [run] uses for the agent of
    index [k], and carries the skeptic mark exactly when [run] gives that
    agent the skeptic's prompt; there are as many rows as agents that have a
    model. *)
Theorem X25_status_rows_roles (config : ConfigManager) :
  (forall (k : nat) (i : Z) (m : pystr) (mark : bool),
     status_rows config !! k = Some (i, m, mark) ->
     i = Z.of_nat k + 1
     /\ models config !! k = Some m
     /\ mark = is_this_skeptic config (Z.of_nat k))
  /\ (0 <= instances config ->
      length (status_rows config)
      = Nat.min (Z.to_nat (instances config)) (length (models config))).
Proof.
  split.
  - intros k i m mark Hrow. unfold status_rows in Hrow. cbv zeta in Hrow.
    rewrite list_lookup_imap in Hrow.
    destruct (slice_to (models config) (instances config) !! k) as [m'|] eqn:E;
      [|discriminate].
    cbn [fmap option_fmap option_map] in Hrow.
    apply (inj Some) in Hrow.
    assert (Hi : i = Z.of_nat k + 1) by congruence.
    assert (Hm : m = m') by congruence.
    assert (Hmark : mark = skeptic_agent config && (instances config >? 1)
                           && (Z.of_nat k + 1 =? instances config)) by congruence.
    subst m'. split; [exact Hi|]. split.
    + unfold slice_to in E. apply lookup_take_Some in E. apply E.
    + rewrite Hmark. unfold is_this_skeptic. cbv zeta. f_equal.
      destruct (Z.of_nat k + 1 =? instances config) eqn:E1;
        destruct (Z.of_nat k =? instances config - 1) eqn:E2; try reflexivity.
      * apply Z.eqb_eq in E1. apply Z.eqb_neq in E2. lia.
      * apply Z.eqb_neq in E1. apply Z.eqb_eq in E2. lia.
  - intros Hn. unfold status_rows. cbv zeta.
    rewrite length_imap, slice_to_take, length_take by exact Hn. reflexivity.
Qed.

Lemma X25_status_rows_roles_witness :
  (forall (k : nat) (i : Z) (m : pystr) (mark : bool),
     status_rows sample_config !! k = Some (i, m, mark) ->
     i = Z.of_nat k + 1
     /\ models sample_config !! k = Some m
     /\ mark = is_this_skeptic sample_config (Z.of_nat k))
  /\ (0 <= instances sample_config ->
      length (status_rows sample_config)
      = Nat.min (Z.to_nat (instances sample_config)) (length (models sample_config))).
Proof. apply (X25_status_rows_roles sample_config). Defined.

(** With the skeptic switched on the last of the agents carries the mark,
    and a model beyond the number of agents has no row. *)
Example status_rows_skeptic :
  status_rows
    {| instances := 2; rounds := 1;
       models := [lit "llama3.2"; lit "qwen2.5"; lit "mistral"];
       context_limit := 4096; context_strategy := lit "summary";
       summary_model := None; stream_output := true; save_logs := true;
       skeptic_agent := true; system_prompts := ∅ |}
  = [(1, lit "llama3.2", false); (2, lit "qwen2.5", true)].
Proof. reflexivity. Qed.

(** ** Merging the configuration file into the defaults *)

(** One iteration of the loop of [_deep_merge]. *)
Lemma deep_merge_cons (base : pydict) (key : string) (value : json) (rest : pydict) :
  _deep_merge base ((key, value) :: rest)
  = _deep_merge
      (dict_set base key
         (match dict_get base key, value with
          | Some (JDict sub), JDict o => JDict (_deep_merge sub o)
          | _, _ => value
          end))
      rest.
Proof.
  unfold _deep_merge. cbn [merge_with foldl]. f_equal.
  destruct (dict_get base key) as [[| | | | | |sub]|]; try reflexivity.
  destruct value; reflexivity.
Qed.

Lemma dict_get_set (d : pydict) (key key' : string) (value : json) :
  dict_get (dict_set d key value) key'
  = if decide (key = key') then Some value else dict_get d key'.
Proof.
  induction d as [|[k v] d IH]; cbn [dict_set dict_get].
  - destruct (String.eqb_spec key key'); destruct (decide (key = key'));
      try reflexivity; contradiction.
  - destruct (String.eqb_spec k key) as [->|Hk]; cbn [dict_get].
    + destruct (String.eqb_spec key key'); destruct (decide (key = key'));
        try reflexivity; contradiction.
    + rewrite IH. destruct (String.eqb_spec k key') as [->|Hk'];
        destruct (decide (key = key')); try reflexivity. congruence.
Qed.

Lemma dict_get_keys (d : pydict) (key : string) :
  is_Some (dict_get d key) <-> key ∈ d.*1.
Proof.
  induction d as [|[k v] d IH]; cbn [dict_get fmap list_fmap fst].
  - split; [intros [? H]; discriminate | intros H; inversion H].
  - rewrite elem_of_cons. destruct (String.eqb_spec k key) as [->|Hk].
    + split; [left; reflexivity | eauto].
    + rewrite IH. split; [auto | intros [?|?]; [congruence | assumption]].
Qed.

Lemma dict_set_keys (d : pydict) (key : string) (value : json) :
  (dict_set d key value).*1
  = d.*1 ++ (if decide (key ∈ d.*1) then [] else [key]).
Proof.
  induction d as [|[k v] d IH]; cbn [dict_set fmap list_fmap fst app].
  - destruct (decide (key ∈ [])) as [H|_]; [inversion H | reflexivity].
  - destruct (String.eqb_spec k key) as [->|Hk]; cbn [fmap list_fmap fst].
    + destruct (decide (key ∈ key :: d.*1)) as [_|H];
        [rewrite app_nil_r; reflexivity | exfalso; apply H; left].
    + change (list_fmap _ _ fst ?l) with (l.*1). rewrite IH. f_equal.
      destruct (decide (key ∈ d.*1)) as [Hin|Hout];
        destruct (decide (key ∈ k :: d.*1)) as [Hin'|Hout']; try reflexivity.
      * exfalso. apply Hout'. right. exact Hin.
      * apply elem_of_cons in Hin' as [->|Hin']; contradiction.
Qed.

Lemma deep_merge_lookup (override : pydict) :
  forall (base : pydict) (key : string),
  NoDup override.*1 ->
  dict_get (_deep_merge base override) key
  = match dict_get override key with
    | None => dict_get base key
    | Some value =>
        match dict_get base key, value with
        | Some (JDict sub), JDict o => Some (JDict (_deep_merge sub o))
        | _, _ => Some value
        end
    end.
Proof.
  induction override as [|[k v] override IH]; intros base key Hkeys.
  - reflexivity.
  - cbn [fmap list_fmap fst] in Hkeys. apply NoDup_cons in Hkeys as [Hfresh Hkeys].
    rewrite deep_merge_cons, IH by exact Hkeys.
    rewrite !dict_get_set. cbn [dict_get].
    destruct (String.eqb_spec k key) as [->|Hk].
    + destruct (decide (key = key)) as [_|]; [|contradiction].
      destruct (dict_get override key) as [v'|] eqn:E.
      * exfalso. apply Hfresh. apply dict_get_keys. eauto.
      * destruct (dict_get base key) as [[| | | | | |sub]|]; try reflexivity.
        destruct v; reflexivity.
    + destruct (decide (k = key)) as [|_]; [contradiction|]. reflexivity.
Qed.

(** X26: the value [_deep_merge] leaves at each key.  A key that [override]
    does not have keeps the value of [base]; a key whose values in [base] and
    in [override] are both dicts gets their merge; any other key of
    [override] gets the value of [override], also when [base] has a dict
    there. *)
Theorem X26_deep_merge_lookup (base override : pydict) (key : string) :
  NoDup override.*1 ->
  dict_get (_deep_merge base override) key
  = match dict_get override key with
    | None => dict_get base key
    | Some value =>
        match dict_get base key, value with
        | Some (JDict sub), JDict o => Some (JDict (_deep_merge sub o))
        | _, _ => Some value
        end
    end.
Proof. apply deep_merge_lookup. Qed.

Lemma deep_merge_keys (override : pydict) :
  forall base : pydict,
  exists added : list string,
    (_deep_merge base override).*1 = base.*1 ++ added
    /\ (forall key, key ∈ added <-> key ∈ override.*1 /\ key ∉ base.*1)
    /\ (NoDup base.*1 -> NoDup (_deep_merge base override).*1).
Proof.
  induction override as [|[k v] override IH]; intros base.
  - exists []. split; [rewrite app_nil_r; reflexivity|]. split; [|auto].
    intros key. split; [intros H; inversion H | intros [H _]; inversion H].
  - rewrite deep_merge_cons.
    match goal with
    | |- context [dict_set base k ?x] =>
        destruct (IH (dict_set base k x)) as (added & Hk & Hadded & Hnodup);
        pose proof (dict_set_keys base k x) as Hset
    end.
    rewrite Hk, Hset, <- app_assoc.
    eexists. split; [reflexivity|]. split.
    + intros key. rewrite elem_of_app, Hadded, Hset. cbn [fmap list_fmap fst].
      rewrite elem_of_cons, elem_of_app.
      destruct (decide (k ∈ base.*1)) as [Hin|Hout].
      * rewrite elem_of_nil. split.
        -- intros [[]|[Hkey Hnot]]. split; [right; exact Hkey | tauto].
        -- intros [[->|Hkey] Hnot]; [contradiction|]. right. tauto.
      * rewrite list_elem_of_singleton. split.
        -- intros [->|[Hkey Hnot]]; [split; [left; reflexivity | exact Hout]|].
           split; [right; exact Hkey | tauto].
        -- intros [[->|Hkey] Hnot]; [left; reflexivity|].
           destruct (decide (key = k)) as [->|Hne]; [left; reflexivity|].
           right. split; [exact Hkey|]. intros [?|?]; [contradiction | congruence].
    + intros Hbase. rewrite app_assoc, <- Hset, <- Hk. apply Hnodup.
      rewrite Hset. destruct (decide (k ∈ base.*1)) as [Hin|Hout].
      * rewrite app_nil_r. exact Hbase.
      * apply NoDup_app. split; [exact Hbase|]. split.
        -- intros x Hx Hx'. apply list_elem_of_singleton in Hx'. congruence.
        -- apply NoDup_singleton.
Qed.

(** X27: [_deep_merge] never drops or moves a key of [base]: the keys of the
    result are those of [base], in their order, followed by the keys that
    only [override] has; and keys that were distinct stay distinct. *)
Theorem X27_deep_merge_keys (base override : pydict) :
  exists added : list string,
    (_deep_merge base override).*1 = base.*1 ++ added
    /\ (forall key, key ∈ added <-> key ∈ override.*1 /\ key ∉ base.*1)
    /\ (NoDup base.*1 -> NoDup (_deep_merge base override).*1).
Proof. apply deep_merge_keys. Qed.

Lemma X26_deep_merge_lookup_witness :
  dict_get
    (_deep_merge DEFAULT_CONFIG
       [("rounds"%string, JInt 5);
        ("system_prompts"%string,
         JDict [("debate_round"%string, JStr (lit "Disagree."))])])
    "system_prompts"
  = match dict_get
            [("rounds"%string, JInt 5);
             ("system_prompts"%string,
              JDict [("debate_round"%string, JStr (lit "Disagree."))])]
            "system_prompts" with
    | None => dict_get DEFAULT_CONFIG "system_prompts"
    | Some value =>
        match dict_get DEFAULT_CONFIG "system_prompts", value with
        | Some (JDict sub), JDict o => Some (JDict (_deep_merge sub o))
        | _, _ => Some value
        end
    end.
Proof.
  apply (X26_deep_merge_lookup DEFAULT_CONFIG
           [("rounds"%string, JInt 5);
            ("system_prompts"%string,
             JDict [("debate_round"%string, JStr (lit "Disagree."))])]
           "system_prompts").
  apply (bool_decide_unpack _). vm_compute. exact I.
Defined.

(** The prompts of [DEFAULT_CONFIG]: none of them is a dict. *)
Lemma default_prompts_flat :
  exists defaults : pydict,
    dict_get DEFAULT_CONFIG "system_prompts" = Some (JDict defaults)
    /\ forall name : string,
         match dict_get defaults name with
         | Some (JDict _) => False
         | _ => True
         end.
Proof.
  eexists. split; [reflexivity|].
  intros name. cbn [dict_get].
  repeat (destruct (String.eqb _ name); [exact I|]). exact I.
Qed.

(** X28: [load] on a configuration file that holds a JSON object falls back
    to the defaults for what the file leaves out, at both levels.  Every key
    of [DEFAULT_CONFIG] is there, in its place; a key the file does not have
    keeps its default; and when the file gives [system_prompts] as an
    object, each prompt is the one of the file if the file has it, and the
    default one otherwise. *)
Theorem X28_load_defaults (user_cfg : pydict) :
  NoDup user_cfg.*1 ->
  exists data : pydict,
    load (Parsed (JDict user_cfg)) = Ret data
    /\ DEFAULT_CONFIG.*1 `prefix_of` data.*1
    /\ (forall key : string,
          dict_get user_cfg key = None ->
          dict_get data key = dict_get DEFAULT_CONFIG key)
    /\ (forall prompts : pydict,
          NoDup prompts.*1 ->
          dict_get user_cfg "system_prompts" = Some (JDict prompts) ->
          exists merged defaults : pydict,
            dict_get data "system_prompts" = Some (JDict merged)
            /\ dict_get DEFAULT_CONFIG "system_prompts" = Some (JDict defaults)
            /\ forall name : string,
                 dict_get merged name
                 = match dict_get prompts name with
                   | Some prompt => Some prompt
                   | None => dict_get defaults name
                   end).
Proof.
  intros Hkeys. eexists. split; [reflexivity|]. split; [|split].
  - destruct (deep_merge_keys user_cfg DEFAULT_CONFIG) as (added & Hk & _).
    exists added. exact Hk.
  - intros key Hnone. rewrite deep_merge_lookup, Hnone by exact Hkeys. reflexivity.
  - intros prompts Hp Hsys.
    destruct default_prompts_flat as (defaults & Hdefaults & Hflat).
    exists (_deep_merge defaults prompts), defaults.
    split; [|split; [exact Hdefaults|]].
    + rewrite deep_merge_lookup, Hsys, Hdefaults by exact Hkeys. reflexivity.
    + intros name. rewrite deep_merge_lookup by exact Hp.
      destruct (dict_get prompts name) as [prompt|]; [|reflexivity].
      specialize (Hflat name).
      destruct (dict_get defaults name) as [[| | | | | |sub]|];
        try reflexivity. contradiction.
Qed.

Lemma X28_load_defaults_witness :
  exists data : pydict,
    load (Parsed (JDict [("rounds"%string, JInt 5);
                         ("system_prompts"%string,
                          JDict [("debate_round"%string, JStr (lit "Disagree."))])]))
    = Ret data
    /\ DEFAULT_CONFIG.*1 `prefix_of` data.*1
    /\ (forall key : string,
          dict_get [("rounds"%string, JInt 5);
                    ("system_prompts"%string,
                     JDict [("debate_round"%string, JStr (lit "Disagree."))])] key
          = None ->
          dict_get data key = dict_get DEFAULT_CONFIG key)
    /\ (forall prompts : pydict,
          NoDup prompts.*1 ->
          dict_get [("rounds"%string, JInt 5);
                    ("system_prompts"%string,
                     JDict [("debate_round"%string, JStr (lit "Disagree."))])]
            "system_prompts"
          = Some (JDict prompts) ->
          exists merged defaults : pydict,
            dict_get data "system_prompts" = Some (JDict merged)
            /\ dict_get DEFAULT_CONFIG "system_prompts" = Some (JDict defaults)
            /\ forall name : string,
                 dict_get merged name
                 = match dict_get prompts name with
                   | Some prompt => Some prompt
                   | None => dict_get defaults name
                   end).
Proof.
  apply (X28_load_defaults
           [("rounds"%string, JInt 5);
            ("system_prompts"%string,
             JDict [("debate_round"%string, JStr (lit "Disagree."))])]).
  apply (bool_decide_unpack _). vm_compute. exact I.
Defined.

(** A file that holds JSON which is no object makes [load] fail: the
    [AttributeError] of [override.items()] is not among the exceptions it
    catches. *)
Example load_not_an_object :
  load (Parsed (JList [JStr (lit "llama3.2")]))
  = Raise (Exc "AttributeError" (lit "'list' object has no attribute 'items'")).
Proof. reflexivity. Qed.

(** A value of the file that is no dict replaces a dict of the defaults
    whole. *)
Example load_prompts_replaced :
  match load (Parsed (JDict [("system_prompts"%string, JStr (lit "Be kind."))])) with
  | Ret data => dict_get data "system_prompts" = Some (JStr (lit "Be kind."))
  | Raise _ => False
  end.
Proof. reflexivity. Qed.

(** ** Checking the models at start-up *)

Lemma known_permutation (local local' : list pystr) (m : pystr) :
  local ≡ₚ local' -> known local m -> known local' m.
Proof.
  intros Hperm [Hin|(l & Hl & Hbase)].
  - left. rewrite <- Hperm. exact Hin.
  - right. exists l. split; [rewrite <- Hperm; exact Hl | exact Hbase].
Qed.




Section CliFacts.
Context {W : Type} (server : registry W) (term : host W) (user : console W).


(** *** Steps that fail only at the console *)












(** X29: when the server lists, for every model the agents need, that model
    or another tag of it, [validate_and_fix_models] returns [True] at once:
    it asks the user nothing, pulls nothing and leaves the configuration as
    it is; the server was asked for its list once. *)
Theorem X29_validate_all_available (fuel : nat) (cfg : ConfigManager) (s : state W)
    (names : list pystr) (w : W) :
  ollama_list server (world s) = (Ret names, w) ->
  (forall m, m ∈ slice_to (models cfg) (instances cfg) -> known names m) ->
  validate_and_fix_models server term user fuel cfg s
  = (Ret (Some (true, cfg)),
     {| world := w; engine := engine s; calls := calls s |}).
Proof.
  intros Hlist Hall. unfold validate_and_fix_models. cbv zeta.
  unfold bind at 1, validate_models, bind at 1.
  pose proof (list_local_models_cases server s) as H. rewrite Hlist in H.
  rewrite H. cbn [ret].
  destruct (sort_out (sorted names) (local_base_of (sorted names))
              (slice_to (models cfg) (instances cfg)))
    as [available missing] eqn:E.
  apply sort_out_spec in E as (_ & Hmissing & _).
  destruct missing as [|m missing]; [reflexivity|].
  exfalso. destruct (Hmissing m) as [[Hneeded Hnot] _]; [left|].
  apply Hnot. apply (known_permutation names); [|auto].
  symmetry. apply merge_sort_Permutation.
Qed.


End CliFacts.

Lemma X29_validate_all_available_witness :
  validate_and_fix_models two_installed tagged pulling 0
    (with_models sample_config [lit "llama3.2"; lit "qwen2.5:14b"]) fresh
  = (Ret (Some (true, with_models sample_config [lit "llama3.2"; lit "qwen2.5:14b"])),
     {| world := tt; engine := engine fresh; calls := calls fresh |}).
Proof.
  apply (X29_validate_all_available two_installed tagged pulling 0
           (with_models sample_config [lit "llama3.2"; lit "qwen2.5:14b"]) fresh
           [lit "qwen2.5:7b"; lit "llama3.2:latest"] tt).
  - reflexivity.
  - intros m Hm. right.
    apply elem_of_cons in Hm as [->|Hm];
      [exists (lit "llama3.2:latest") | exists (lit "qwen2.5:7b")].
    + split; [right; left | reflexivity].
    + apply list_elem_of_singleton in Hm as ->. split; [left | reflexivity].
Defined.


(** The user replaces a model that is configured twice and installed
    nowhere: both places get the first model of the server's list. *)
Example validate_and_fix_replaces :
  fst (validate_and_fix_models two_installed tagged replacing 0
         (with_models sample_config [lit "mistral"; lit "mistral"]) fresh)
  = Ret (Some (true, with_models sample_config
                       [lit "llama3.2:latest"; lit "llama3.2:latest"])).
Proof. vm_compute. reflexivity. Qed.

(** With the server out of reach every model is missing and every pull
    fails: the answer is [False] at the first model. *)
Example validate_and_fix_unreachable :
  fst (validate_and_fix_models unreachable tagged pulling 0 sample_config fresh)
  = Ret (Some (false, sample_config)).
Proof. vm_compute. reflexivity. Qed.

(** A missing model whose name holds a closing tag with nothing to close:
    the line of the missing models makes the console raise, and the
    function returns neither [True] nor [False]. *)
Example validate_and_fix_markup :
  fst (validate_and_fix_models unreachable tagged pulling 0
         (with_models sample_config [lit "[/INST]"; lit "qwen2.5"]) fresh)
  = Raise (MarkupError
             (lit "closing tag '[/INST]' at position 26 doesn't match any open tag")).
Proof. vm_compute. reflexivity. Qed.
